(** * A shallow embedding of the Baileys multi-device core

    The development follows four source files:
    - [Utils/signal.ts]: pre-key bookkeeping and [extractDeviceJids];
    - [Socket/socket.ts]: the [end] funnel and the QR rotation of the
      [pair-device] handler;
    - the chats socket: the [resyncAppState] loop and its catch branch;
    - [Socket/messages-send.ts]: [getUSyncDevices], [assertSessions],
      [createParticipantNodes] and [relayMessage].

    JavaScript numbers that hold identifiers and counters are integers of
    [Z]; JS objects used as dictionaries are [gmap]s; arrays are lists.
    Asynchronous code is sequenced in program order. *)

From Stdlib Require Import ZArith.
From stdpp Require Import base option list strings pretty gmap sets fin_maps.
From stdpp Require Import sorting.

Local Open Scope Z_scope.

#[local] Set Warnings "-register-all,-clear-no-such-hyp".

Abbreviation bytes := (list Byte.byte).

(** ** Part I: definitions *)

(** *** WABinary data and the externals of the send path *)

Module WABinary.

(** [jidDecode]'s answer: [{ user, server, device? }]. *)
Record FullJid := {
  fj_user : string;
  fj_server : string;
  fj_device : option Z
}.

(** [JidWithDevice]: [device] is [None] for a missing device and for the
    [NaN] that unary [+] gives on a malformed id; both are falsy and neither
    is [===] to a number. *)
Record JidWithDevice := { user : string; device : option Z }.

#[global] Instance JidWithDevice_eq_dec : EqDecision JidWithDevice.
Proof. solve_decision. Defined.

Inductive Content (N : Type) :=
| absent
| buffer (b : bytes)
| nodes (l : list N).
Arguments absent {N}.
Arguments buffer {N} b.
Arguments nodes {N} l.

Inductive BinaryNode := {
  tag : string;
  attrs : gmap string string;
  content : Content BinaryNode
}.

Inductive EncType := pkmsg | msg.

#[global] Instance EncType_eq_dec : EqDecision EncType.
Proof. solve_decision. Defined.

Definition encTypeName (t : EncType) : string :=
  match t with pkmsg => "pkmsg" | msg => "msg" end.

(** The fields of [proto.IMessage] that the send path inspects;
    [videoMessage] carries [gifPlayback], [audioMessage] carries [ptt],
    [listMessage] carries [listType] (0 when unset). *)
Record MessageContent := {
  imageMessage : bool;
  videoMessage : option bool;
  audioMessage : option bool;
  contactMessage : bool;
  documentMessage : bool;
  contactsArrayMessage : bool;
  liveLocationMessage : bool;
  stickerMessage : bool;
  listMessage : option Z;
  listResponseMessage : bool;
  buttonsResponseMessage : bool;
  orderMessage : bool;
  productMessage : bool;
  interactiveResponseMessage : bool;
  buttonsMessage : bool;
  templateMessage : bool;
  otherFields : bytes
}.

Inductive IMessage :=
| contentMessage (c : MessageContent)
| deviceSentMessage (destinationJid : string) (message : IMessage)
| senderKeyDistributionMessage (axolotlSenderKeyDistributionMessage : bytes)
                               (groupId : string).

(** What a rejected promise or a failed destructuring leaves: no result. *)
Inductive Thrown := TypeError | Rejected.

Inductive Result (A : Type) :=
| Ok (a : A)
| Throw (e : Thrown).
Arguments Ok {A} a.
Arguments Throw {A} e.

(** Everything the send path calls that is not in the given sources.  [Ext]
    is the state behind the calls (server, Signal sessions, random source):
    a call may change it and may fail ([None]). *)
Class Host (Ext : Type) := {
  (* WABinary *)
  jidDecode : string → option FullJid;
  jidEncode : string → string → option Z → string;
  jidNormalizedUser : string → string;
  areJidsSameUser : string → string → bool;
  isJidGroup : string → bool;
  getBinaryNodeChild : option BinaryNode → string → option BinaryNode;
  (* unary [+] on an attribute that may be missing; [None] is [NaN] *)
  toNumber : option string → option Z;
  (* Utils and WAProto *)
  encodeWAMessage : IMessage → bytes;
  encodeSignedDeviceIdentity : bytes;
  listTypeName : Z → option string;
  generateMessageID : Ext → string * Ext;
  (* socket config *)
  patchMessageBeforeSending : IMessage → list string → IMessage;
  (* SignalRepository and the [session] namespace behind it *)
  jidToSignalProtocolAddress : string → string;
  hasSession : Ext → string → bool;
  encryptMessage : Ext → string → bytes → option (EncType * bytes * Ext);
  encryptGroupMessage : Ext → string → bytes → string → option (bytes * bytes * Ext);
  (* socket: the three queries of the send path, by their variable part *)
  usyncQuery : Ext → list string → option (BinaryNode * Ext);
  sessionsQuery : Ext → list string → option Ext;
  groupMetadata : Ext → string → option (list string * Ext);
  sendNode : Ext → BinaryNode → option Ext
}.

End WABinary.

(** *** Utils/signal.ts *)

Module Signal.

Record KeyPair := { public : bytes; private : bytes }.

  (** The counters of [AuthenticationCreds] that the pre-key code reads and
      the fields the QR code needs. *)
Record AuthenticationCreds := {
    noiseKey : KeyPair;
    signedIdentityKey : KeyPair;
    advSecretKey : string;
    nextPreKeyId : Z;
    firstUnuploadedPreKeyId : Z
  }.

  (** [Partial<AuthenticationCreds>] as built by [getNextPreKeys]. *)
Record CredsUpdate := {
    upd_nextPreKeyId : Z;
    upd_firstUnuploadedPreKeyId : Z
  }.

  (** [Object.assign(creds, update)] of the [creds.update] listener. *)
Definition assignCreds (creds : AuthenticationCreds) (update : CredsUpdate)
    : AuthenticationCreds :=
    {| noiseKey := noiseKey creds;
       signedIdentityKey := signedIdentityKey creds;
       advSecretKey := advSecretKey creds;
       nextPreKeyId := upd_nextPreKeyId update;
       firstUnuploadedPreKeyId := upd_firstUnuploadedPreKeyId update |}.

Record PreKeyBatch := {
    newPreKeys : gmap Z KeyPair;
    lastPreKeyId : Z;
    preKeysRange : Z * Z
  }.

Section WithCurve.
    (** [Curve.generateKeyPair] draws from a random source, threaded here as
        an explicit generator state. *)
Context {Rng : Type} (generateKeyPair : Rng → KeyPair * Rng).

    (** [for(let i = creds.nextPreKeyId; i <= lastPreKeyId; i++)
           newPreKeys[i] = Curve.generateKeyPair()].
        The loop test is kept; [fuel] only bounds the unfolding. *)
Fixpoint generateLoop (fuel : nat) (i last : Z)
        (acc : gmap Z KeyPair) (rng : Rng) : gmap Z KeyPair * Rng :=
      match fuel with
      | O => (acc, rng)
      | S fuel' =>
          if bool_decide (i ≤ last) then
            let '(kp, rng') := generateKeyPair rng in
            generateLoop fuel' (i + 1) last (<[i := kp]> acc) rng'
          else (acc, rng)
      end.

Definition generateOrGetPreKeys (creds : AuthenticationCreds) (range : Z)
        (rng : Rng) : PreKeyBatch * Rng :=
      let avaliable := nextPreKeyId creds - firstUnuploadedPreKeyId creds in
      let remaining := range - avaliable in
      let lastPreKeyId := nextPreKeyId creds + remaining - 1 in
      let '(newPreKeys, rng') :=
        if bool_decide (0 < remaining) then
          generateLoop (Z.to_nat (lastPreKeyId - nextPreKeyId creds + 1))
                       (nextPreKeyId creds) lastPreKeyId ∅ rng
        else (∅, rng) in
      ({| newPreKeys := newPreKeys;
          lastPreKeyId := lastPreKeyId;
          preKeysRange := (firstUnuploadedPreKeyId creds, range) |}, rng').

    (** [getPreKeys]: ids [min .. limit-1] looked up in the [pre-key]
        namespace; absent ids are simply missing from the answer. *)
Definition getPreKeys (store : gmap Z KeyPair) (min limit : Z)
      : gmap Z KeyPair :=
      filter (λ kv, min ≤ kv.1 < limit) store.

Record AuthenticationState := {
      creds : AuthenticationCreds;
      keys : gmap Z KeyPair          (* the [pre-key] namespace *)
    }.

Record NextPreKeys := {
      update : CredsUpdate;
      preKeys : gmap Z KeyPair;
      keys_after : gmap Z KeyPair
    }.

    (** [keys.set({'pre-key': newPreKeys})] writes every generated pair under
        its id and leaves the other ids alone. *)
Definition getNextPreKeys (st : AuthenticationState) (count : Z) (rng : Rng)
      : NextPreKeys * Rng :=
      let '(batch, rng') := generateOrGetPreKeys (creds st) count rng in
      let update :=
        {| upd_nextPreKeyId :=
             Z.max (lastPreKeyId batch + 1) (nextPreKeyId (creds st));
           upd_firstUnuploadedPreKeyId :=
             Z.max (firstUnuploadedPreKeyId (creds st)) (lastPreKeyId batch + 1) |} in
      let keys' := newPreKeys batch ∪ keys st in
      let range := preKeysRange batch in
      ({| update := update;
          preKeys := getPreKeys keys' range.1 (range.1 + range.2);
          keys_after := keys' |}, rng').

    (** [uploadPreKeys] of socket.ts: inside one key-store transaction the
        node is built, sent with [query], and on the server's answer the
        update is emitted as [creds.update], whose listener assigns it to
        [creds].  [accepted] is the outcome of the query; a rejected query
        throws, the transaction is dropped and nothing changes. *)
Definition uploadPreKeys (st : AuthenticationState) (count : Z) (rng : Rng)
        (accepted : bool) : option (AuthenticationState * Rng) :=
      let '(r, rng') := getNextPreKeys st count rng in
      if accepted then
        Some ({| creds := assignCreds (creds st) (update r);
                 keys := keys_after r |}, rng')
      else None.
End WithCurve.

Section WithHost.
Import WABinary.
Context {Ext : Type} `{!Host Ext}.

(** [a !== b] for [myDevice] ([undefined] or a number) against the parsed
    id ([NaN] or a number): false only for two equal numbers. *)
Definition strictNe (myDevice device : option Z) : bool :=
  match myDevice, device with
  | Some a, Some b => bool_decide (a ≠ b)
  | _, _ => true
  end.

(** [!!attrs['key-index']]: present and not the empty string. *)
Definition truthyAttr (v : option string) : bool :=
  match v with
  | Some s => bool_decide (s ≠ "")
  | None => false
  end.

(** The test guarding [extracted.push({ user, device })]. *)
Definition acceptDevice (myUser : string) (myDevice : option Z)
    (excludeZeroDevices : bool) (user : string) (n : BinaryNode) : bool :=
  let device := toNumber (attrs n !! "id") in
  bool_decide (tag n = "device")
  && (negb excludeZeroDevices || bool_decide (device ≠ Some 0))
  && (bool_decide (myUser ≠ user) || strictNe myDevice device)
  && (bool_decide (device = Some 0) || truthyAttr (attrs n !! "key-index")).

(** The innermost loop, over the children of one [device-list]. *)
Definition extractFromDeviceList (myUser : string) (myDevice : option Z)
    (excludeZeroDevices : bool) (user : string) (l : list BinaryNode)
  : list JidWithDevice :=
  omap (λ n, if acceptDevice myUser myDevice excludeZeroDevices user n
             then Some {| user := user; device := toNumber (attrs n !! "id") |}
             else None) l.

(** One [item] of a [list]: [jidDecode(item.attrs.jid)!] throws a type
    error when the jid does not decode. *)
Definition extractFromItem (myUser : string) (myDevice : option Z)
    (excludeZeroDevices : bool) (item : BinaryNode)
  : Result (list JidWithDevice) :=
  match attrs item !! "jid" ≫= jidDecode with
  | None => Throw TypeError
  | Some d =>
      let devicesNode := getBinaryNodeChild (Some item) "devices" in
      let deviceListNode := getBinaryNodeChild devicesNode "device-list" in
      match content <$> deviceListNode with
      | Some (nodes l) =>
          Ok (extractFromDeviceList myUser myDevice excludeZeroDevices (fj_user d) l)
      | _ => Ok []
      end
  end.

(** A loop whose body may throw: results are appended in order, the first
    throw ends the loop. *)
Fixpoint collect {A B : Type} (f : A → Result (list B)) (l : list A)
  : Result (list B) :=
  match l with
  | [] => Ok []
  | x :: l' =>
      match f x with
      | Throw e => Throw e
      | Ok xs =>
          match collect f l' with
          | Throw e => Throw e
          | Ok ys => Ok (xs ++ ys)
          end
      end
  end.

(** One child of the result: its [list] child, when that has children. *)
Definition extractFromNode (myUser : string) (myDevice : option Z)
    (excludeZeroDevices : bool) (node : BinaryNode)
  : Result (list JidWithDevice) :=
  match content <$> getBinaryNodeChild (Some node) "list" with
  | Some (nodes list) =>
      collect (extractFromItem myUser myDevice excludeZeroDevices) list
  | _ => Ok []
  end.

(** [extractDeviceJids].  [jidDecode(myJid)!] throws when [myJid] does not
    decode; iterating a missing [content] throws; the elements of a buffer
    are numbers, which have no [list] child. *)
Definition extractDeviceJids (result : BinaryNode) (myJid : string)
    (excludeZeroDevices : bool) : Result (list JidWithDevice) :=
  match jidDecode myJid with
  | None => Throw TypeError
  | Some me =>
      match content result with
      | absent => Throw TypeError
      | buffer _ => Ok []
      | nodes l =>
          collect (extractFromNode (fj_user me) (fj_device me) excludeZeroDevices) l
      end
  end.

(** The devices a USync result reports, as the claims speak of them: every
    child of every [device-list], with the user of the item it stands
    under, before the tests of [acceptDevice].  The traversal and its throws
    are those of [extractDeviceJids]. *)
Definition reportedInItem (item : BinaryNode) : Result (list (string * BinaryNode)) :=
  match attrs item !! "jid" ≫= jidDecode with
  | None => Throw TypeError
  | Some d =>
      let devicesNode := getBinaryNodeChild (Some item) "devices" in
      let deviceListNode := getBinaryNodeChild devicesNode "device-list" in
      match content <$> deviceListNode with
      | Some (nodes l) => Ok ((λ n, (fj_user d, n)) <$> l)
      | _ => Ok []
      end
  end.

Definition reportedInNode (node : BinaryNode) : Result (list (string * BinaryNode)) :=
  match content <$> getBinaryNodeChild (Some node) "list" with
  | Some (nodes list) => collect reportedInItem list
  | _ => Ok []
  end.

Definition reportedDevices (result : BinaryNode) : Result (list (string * BinaryNode)) :=
  match content result with
  | absent => Throw TypeError
  | buffer _ => Ok []
  | nodes l => collect reportedInNode l
  end.

(** What [extractDeviceJids] makes of one reported entry. *)
Definition keepDevice (myUser : string) (myDevice : option Z)
    (excludeZeroDevices : bool) (entry : string * BinaryNode)
  : option JidWithDevice :=
  if acceptDevice myUser myDevice excludeZeroDevices entry.1 entry.2
  then Some {| user := entry.1; device := toNumber (attrs entry.2 !! "id") |}
  else None.

(** A reported entry as a device: tag [device], with its parsed id. *)
Definition reportedAsDevices (reported : list (string * BinaryNode))
  : list JidWithDevice :=
  (λ e, {| user := e.1; device := toNumber (attrs e.2 !! "id") |})
    <$> filter (λ e, tag e.2 = "device") reported.

End WithHost.

End Signal.

(** *** Socket/socket.ts: [end] and the QR rotation *)

Module Socket.
Import Signal.

Inductive ReadyState := CONNECTING | OPEN | CLOSING | CLOSED.

  (** The members of [DisconnectReason] that socket.ts names; any other
      status code (stream errors, [failure] reasons) is [statusOther]. *)
Inductive DisconnectReason :=
  | connectionClosed | connectionLost | timedOut | loggedOut
  | multideviceMismatch | statusOther (code : Z).

Record Boom := { message : string; statusCode : DisconnectReason }.

Inductive WAConnectionState := connecting | open | close.

  (** A partial [ConnectionState], the payload of [connection.update]. *)
Record ConnectionUpdate := {
    connection : option WAConnectionState;
    qr : option string;
    lastDisconnect : option (option Boom * Z)     (* { error, date } *)
  }.

Inductive Event :=
  | connection_update (u : ConnectionUpdate).

  (** The mutable variables of the [makeSocket] closure that [end] and
      [genPairQR] touch, with the listeners registered on [ws] and [ev] and
      the events handed to [ev.emit], oldest first.  A timer is the delay it
      was armed with. *)
Record State := {
    closed : bool;
    readyState : ReadyState;
    keepAliveReq : option Z;
    qrTimer : option Z;
    wsListeners : gset string;
    evListeners : gset string;
    emitted : list Event;
    refNodes : list string;
    qrMs : Z
  }.

#[global] Instance ReadyState_eq_dec : EqDecision ReadyState.
Proof. solve_decision. Defined.

Section WithConfig.
    (** [qrTimeout] of the socket config, the credentials, Node's base64
        printer, and what [ws.close()] does to the ready state of the
        WebSocket (library code). *)
Context (qrTimeout : option Z) (creds : AuthenticationCreds)
            (base64 : bytes → string) (ws_close : ReadyState → ReadyState).

    (** [x || d] on an optional number: [undefined] and [0] are falsy. *)
Definition orDefault (x : option Z) (d : Z) : Z :=
      match x with
      | Some v => if bool_decide (v = 0) then d else v
      | None => d
      end.

    (** [end(error)]; [now] is the [new Date()] read when the event is built. *)
Definition end_ (s : State) (error : option Boom) (now : Z) : State :=
      if closed s then s
      else
        {| closed := true;
           readyState :=
             (if bool_decide (readyState s ≠ CLOSED ∧ readyState s ≠ CLOSING)
              then ws_close (readyState s) else readyState s);
           keepAliveReq := None;
           qrTimer := None;
           wsListeners :=
             wsListeners s ∖ {["close"; "error"; "open"; "message"]};
           evListeners := evListeners s ∖ {["connection.update"]};
           emitted :=
             emitted s ++
               [connection_update
                  {| connection := Some close; qr := None;
                     lastDisconnect := Some (error, now) |}];
           refNodes := refNodes s;
           qrMs := qrMs s |}.

Definition noiseKeyB64 : string := base64 (public (noiseKey creds)).
Definition identityKeyB64 : string := base64 (public (signedIdentityKey creds)).
Definition advB64 : string := advSecretKey creds.

    (** [[ref, noiseKeyB64, identityKeyB64, advB64].join(',')] *)
Definition qrOf (ref : string) : string :=
      String.concat "," [ref; noiseKeyB64; identityKeyB64; advB64].

Definition genPairQR (s : State) (now : Z) : State :=
      if bool_decide (readyState s ≠ OPEN) then s
      else
        match refNodes s with
        | [] =>
            end_ s (Some {| message := "QR refs attempts ended";
                            statusCode := timedOut |}) now
        | ref :: rest =>
            {| closed := closed s;
               readyState := readyState s;
               keepAliveReq := keepAliveReq s;
               qrTimer := Some (qrMs s);
               wsListeners := wsListeners s;
               evListeners := evListeners s;
               emitted :=
                 emitted s ++
                   [connection_update
                      {| connection := None; qr := Some (qrOf ref);
                         lastDisconnect := None |}];
               refNodes := rest;
               qrMs := orDefault qrTimeout 20000 |}
        end.

    (** The [CB:iq,type:set,pair-device] handler after its reply was sent:
        [refs] are the utf-8 contents of the [ref] children, in order. *)
Definition onPairDevice (s : State) (refs : list string) (now : Z) : State :=
      genPairQR
        {| closed := closed s; readyState := readyState s;
           keepAliveReq := keepAliveReq s; qrTimer := qrTimer s;
           wsListeners := wsListeners s; evListeners := evListeners s;
           emitted := emitted s;
           refNodes := refs;
           qrMs := orDefault qrTimeout 60000 |} now.

    (** The [connection.update] that carries the QR built from [ref]. *)
Definition qrUpdate (ref : string) : Event :=
  connection_update
    {| connection := None;
       qr := Some (ref +:+ "," +:+ base64 (public (noiseKey creds)) +:+ ","
                   +:+ base64 (public (signedIdentityKey creds)) +:+ ","
                   +:+ advSecretKey creds);
       lastDisconnect := None |}.

(** The armed [qrTimer] expires and runs its callback [genPairQR]. *)
Definition fireQrTimer (s : State) (now : Z) : State :=
      match qrTimer s with
      | Some _ => genPairQR s now
      | None => s
      end.

    (** [k] expiries in a row, at the given dates. *)
Definition rotate (s : State) (dates : list Z) : State :=
      foldl fireQrTimer s dates.

    (** [N] calls of [end], each with its error and date. *)
Definition endAll (s : State) (calls : list (option Boom * Z)) : State :=
      foldl (λ s c, end_ s c.1 c.2) s calls.

    (** The [connection.update] events that report [connection: 'close']. *)
Definition isCloseEvent (e : Event) : bool :=
      match e with
      | connection_update u =>
          match connection u with Some close => true | _ => false end
      end.

Definition closeEvents (evs : list Event) : list Event :=
      List.filter isCloseEvent evs.
End WithConfig.

  (** The closure right after [makeSocket] registered its listeners and the
      WebSocket opened. *)
Definition initial : State :=
    {| closed := false; readyState := OPEN;
       keepAliveReq := None; qrTimer := None;
       wsListeners := {["message"; "open"; "error"; "close"]};
       evListeners := {["connection.update"; "creds.update"]};
       emitted := []; refNodes := []; qrMs := 0 |}.

End Socket.

(** *** The chats socket: [resyncAppState] *)

Module Chats.

Definition MAX_SYNC_ATTEMPTS : nat := 2.

(** Modelled from the spec: the type [LTHashState] and [newLTHashState] live
    in Types and Utils, outside the given sources.  Section 3 gives the
    shape [{version, hash: 128-byte accumulator, indexValueMap}]; a new
    state is at version 0 with a zero accumulator and no entries. *)
Record LTHashState := {
  version : Z;
  hash : bytes;
  indexValueMap : gmap string bytes
}.

Definition newLTHashState : LTHashState :=
  {| version := 0; hash := replicate 128 Byte.x00; indexValueMap := ∅ |}.

(** What the catch branch reads of a thrown value:
    [error.output?.statusCode] and [error.name]. *)
Record SyncError := { output_statusCode : option Z; name : string }.

(** [attemptsMap[name]! >= MAX_SYNC_ATTEMPTS || error.output?.statusCode === 404
     || error.name === 'TypeError']; a missing counter is [undefined], and
    [undefined >= 2] is false. *)
Definition isIrrecoverableError (attempts : option nat) (error : SyncError) : bool :=
  match attempts with
  | Some a => bool_decide (MAX_SYNC_ATTEMPTS ≤ a)%nat
  | None => false
  end
  || bool_decide (output_statusCode error = Some 404)
  || bool_decide (name error = "TypeError").

Section WithCodec.
(** The protobuf payloads and the decoders of Utils are outside the given
    sources: they are parameters.  A decoder either throws or returns the
    new state with its mutation map. *)
Context {Snapshot Patch ChatMutation : Type}.
Context (decodeSyncdSnapshot :
           string → Snapshot → option Z → bool →
           SyncError + (LTHashState * gmap string ChatMutation)).
Context (decodePatches :
           string → list Patch → option LTHashState → option Z → bool →
           SyncError + (LTHashState * gmap string ChatMutation)).
(** [appStateMacVerification.snapshot] and [.patch] of the config. *)
Context (macSnapshot macPatch : bool).

(** One value of the object returned by [extractSyncdPatches]. *)
Record SyncEntry := {
  patches : list Patch;
  hasMorePatches : bool;
  snapshot : option Snapshot
}.

(** A [collection] node of the sync query. *)
Record CollectionNode := {
  cn_name : string;
  cn_version : Z;
  return_snapshot : bool
}.

(** The variables of one [resyncAppState] call, with the
    [app-state-sync-version] namespace of the key store ([store]; writing
    [null] erases the entry, so that a later read is falsy) and the sync
    queries sent so far. *)
Record Sync := {
  store : gmap string LTHashState;
  collectionsToHandle : list string;
  attemptsMap : gmap string nat;
  initialVersionMap : gmap string Z;
  globalMutationMap : gmap string ChatMutation;
  queries : list (list CollectionNode)
}.

Definition setStore (f : gmap string LTHashState → gmap string LTHashState)
    (s : Sync) : Sync :=
  {| store := f (store s); collectionsToHandle := collectionsToHandle s;
     attemptsMap := attemptsMap s; initialVersionMap := initialVersionMap s;
     globalMutationMap := globalMutationMap s; queries := queries s |}.

Definition setToHandle (f : list string → list string) (s : Sync) : Sync :=
  {| store := store s; collectionsToHandle := f (collectionsToHandle s);
     attemptsMap := attemptsMap s; initialVersionMap := initialVersionMap s;
     globalMutationMap := globalMutationMap s; queries := queries s |}.

Definition setAttempts (f : gmap string nat → gmap string nat) (s : Sync) : Sync :=
  {| store := store s; collectionsToHandle := collectionsToHandle s;
     attemptsMap := f (attemptsMap s); initialVersionMap := initialVersionMap s;
     globalMutationMap := globalMutationMap s; queries := queries s |}.

Definition setInitialVersion (f : gmap string Z → gmap string Z) (s : Sync) : Sync :=
  {| store := store s; collectionsToHandle := collectionsToHandle s;
     attemptsMap := attemptsMap s; initialVersionMap := f (initialVersionMap s);
     globalMutationMap := globalMutationMap s; queries := queries s |}.

(** [Object.assign(globalMutationMap, mutationMap)] *)
Definition assignMutations (m : gmap string ChatMutation) (s : Sync) : Sync :=
  {| store := store s; collectionsToHandle := collectionsToHandle s;
     attemptsMap := attemptsMap s; initialVersionMap := initialVersionMap s;
     globalMutationMap := m ∪ globalMutationMap s; queries := queries s |}.

Definition addQuery (q : list CollectionNode) (s : Sync) : Sync :=
  {| store := store s; collectionsToHandle := collectionsToHandle s;
     attemptsMap := attemptsMap s; initialVersionMap := initialVersionMap s;
     globalMutationMap := globalMutationMap s; queries := queries s ++ [q] |}.

(** [collectionsToHandle.delete(name)] *)
Definition deleteCollection (n : string) (l : list string) : list string :=
  filter (λ x, x ≠ n) l.

(** The [try] block for one collection.  It returns the variables as they
    stand when the block ends, and the thrown value if a decoder threw.
    [states] is the per-round table filled before the query. *)
Definition trySync (s : Sync) (states : gmap string LTHashState)
    (n : string) (entry : SyncEntry) : Sync * option SyncError :=
  let afterSnapshot :=
    match snapshot entry with
    | Some snap =>
        match decodeSyncdSnapshot n snap (initialVersionMap s !! n) macSnapshot with
        | inl e => inl (s, e)
        | inr (newState, mutationMap) =>
            inr (setStore (insert n newState) (assignMutations mutationMap s),
                 <[n := newState]> states)
        end
    | None => inr (s, states)
    end in
  match afterSnapshot with
  | inl (s1, e) => (s1, Some e)
  | inr (s1, states1) =>
      let afterPatches :=
        match patches entry with
        | [] => inr s1
        | _ :: _ =>
            match decodePatches n (patches entry) (states1 !! n)
                    (initialVersionMap s1 !! n) macPatch with
            | inl e => inl e
            | inr (newState, mutationMap) =>
                inr (assignMutations mutationMap
                       (setInitialVersion (insert n (version newState))
                          (setStore (insert n newState) s1)))
            end
        end in
      match afterPatches with
      | inl e => (s1, Some e)
      | inr s2 =>
          if hasMorePatches entry then (s2, None)
          else (setToHandle (deleteCollection n) s2, None)
      end
  end.

(** The [catch] block. *)
Definition onSyncError (s : Sync) (n : string) (error : SyncError) : Sync :=
  let isIrrecoverable := isIrrecoverableError (attemptsMap s !! n) error in
  let s1 := setStore (delete n) s in
  let s2 := setAttempts (insert n (default 0%nat (attemptsMap s !! n) + 1)%nat) s1 in
  if isIrrecoverable then setToHandle (deleteCollection n) s2 else s2.

(** The body of [for(const key in decoded)]. *)
Definition syncCollection (states : gmap string LTHashState) (s : Sync)
    (kv : string * SyncEntry) : Sync :=
  match trySync s states kv.1 kv.2 with
  | (s', None) => s'
  | (s', Some e) => onSyncError s' kv.1 e
  end.

(** The first loop of a round: read the stored state of every collection
    still to handle and build its [collection] node. *)
Definition prepareCollection
    (acc : Sync * gmap string LTHashState * list CollectionNode) (n : string)
  : Sync * gmap string LTHashState * list CollectionNode :=
  let '(s, states, nodes) := acc in
  let '(state, s') :=
    match store s !! n with
    | Some state =>
        (state,
         match initialVersionMap s !! n with
         | None => setInitialVersion (insert n (version state)) s
         | Some _ => s
         end)
    | None => (newLTHashState, s)
    end in
  (s', <[n := state]> states,
   nodes ++ [{| cn_name := n; cn_version := version state;
                return_snapshot := bool_decide (version state = 0) |}]).

(** One turn of [while(collectionsToHandle.size)], given what
    [extractSyncdPatches] made of the server's answer. *)
Definition syncRound (s : Sync) (decoded : list (string * SyncEntry)) : Sync :=
  let '(s1, states, nodes) :=
    foldl prepareCollection (s, ∅, []) (collectionsToHandle s) in
  foldl (syncCollection states) (addQuery nodes s1) decoded.

(** The loop, run against the answers the server gives in turn.  [None]:
    the answers ran out while collections were still to handle. *)
Fixpoint syncLoop (answers : list (list (string * SyncEntry))) (s : Sync)
  : option Sync :=
  match collectionsToHandle s with
  | [] => Some s
  | _ :: _ =>
      match answers with
      | [] => None
      | decoded :: rest => syncLoop rest (syncRound s decoded)
      end
  end.

(** The state in which the transaction body starts:
    [new Set(collections)] and empty tables. *)
Definition startSync (stored : gmap string LTHashState)
    (collections : list string) : Sync :=
  {| store := stored; collectionsToHandle := remove_dups collections;
     attemptsMap := ∅; initialVersionMap := ∅; globalMutationMap := ∅;
     queries := [] |}.

Definition resyncAppState (stored : gmap string LTHashState)
    (collections : list string) (answers : list (list (string * SyncEntry)))
  : option Sync :=
  syncLoop answers (startSync stored collections).

(** [k] answers in a row, whether or not the loop would have stopped. *)
Definition syncRounds (s : Sync) (answers : list (list (string * SyncEntry)))
  : Sync :=
  foldl syncRound s answers.

(** A round in which collection [n] comes back once, with patches only,
    and [decodePatches] throws [e] on them. *)
Definition failingRound (n : string) (e : SyncError)
    (decoded : list (string * SyncEntry)) : Prop :=
  ∃ before entry after,
    decoded = before ++ (n, entry) :: after
    ∧ (n ∉ before.*1) ∧ (n ∉ after.*1)
    ∧ snapshot entry = None ∧ patches entry ≠ []
    ∧ ∀ st iv, decodePatches n (patches entry) st iv macPatch = inl e.

End WithCodec.

End Chats.

(** *** Socket/messages-send.ts *)

Module MessagesSend.
Import WABinary.

(** The calls that leave the function, newest first. *)
Inductive Effect :=
| keys_get (type : string) (ids : list string)
| keys_set (type : string) (id : string)
| usync_query (users : list string)
| sessions_query (jids : list string)
| group_metadata_query (jid : string)
| group_encrypted (group : string)
| encrypted (jid : string) (type : EncType)
| node_sent (stanza : BinaryNode).

(** The state the send path reads and writes: the externals, [creds.me.id],
    the [sender-key-memory] namespace of the key store (group jid to the
    object that marks device jids), the user-devices cache (expiry is a
    matter of the clock, not modelled), and the trace of effects. *)
Record World (Ext : Type) := {
  ext : Ext;
  me : option string;
  senderKeyMemory : gmap string (gmap string bool);
  userDevicesCache : gmap string (list JidWithDevice);
  log : list Effect
}.
Arguments ext {Ext} w.
Arguments me {Ext} w.
Arguments senderKeyMemory {Ext} w.
Arguments userDevicesCache {Ext} w.
Arguments log {Ext} w.

(** [opts.participant]: [{ jid, count }]. *)
Record RetryParticipant := { participant_jid : string; participant_count : Z }.

Record MessageRelayOptions := {
  messageId : option string;
  participant : option RetryParticipant;
  additionalAttributes : option (gmap string string);
  useUserDevicesCache : option bool;
  cachedGroupMetadata : option (string → option (list string))
}.

(** State and exception monad of the async functions. *)
Definition M (Ext A : Type) : Type := World Ext → Result (A * World Ext).

Definition ret {Ext A} (a : A) : M Ext A := λ w, Ok (a, w).

Definition bind {Ext A B} (m : M Ext A) (k : A → M Ext B) : M Ext B :=
  λ w, match m w with
       | Ok (a, w') => k a w'
       | Throw e => Throw e
       end.

Definition throw {Ext A} (e : Thrown) : M Ext A := λ _, Throw e.

Notation "'let*' x := m 'in' k" := (bind m (λ x, k))
  (at level 10, x pattern, m at level 100, k at level 200,
   only parsing).

Section WithHost.
Context {Ext : Type} `{!Host Ext}.

Definition withExt {A} (e : Thrown) (f : Ext → option (A * Ext)) : M Ext A :=
  λ w, match f (ext w) with
       | Some (a, x) =>
           Ok (a, {| ext := x; me := me w; senderKeyMemory := senderKeyMemory w;
                     userDevicesCache := userDevicesCache w; log := log w |})
       | None => Throw e
       end.

Definition emit (ev : Effect) : M Ext unit :=
  λ w, Ok (tt, {| ext := ext w; me := me w; senderKeyMemory := senderKeyMemory w;
                  userDevicesCache := userDevicesCache w; log := ev :: log w |}).

Definition get {A} (f : World Ext → A) : M Ext A := λ w, Ok (f w, w).

(** [x!] followed by a destructuring. *)
Definition nonNull {A} (x : option A) : M Ext A :=
  match x with Some a => ret a | None => throw TypeError end.

Definition liftResult {A} (r : Result A) : M Ext A :=
  match r with Ok a => ret a | Throw e => throw e end.

(** [authState.keys.set({ 'sender-key-memory': { [jid]: map } })] *)
Definition setSenderKeyMemory (jid : string) (map : gmap string bool) : M Ext unit :=
  λ w, Ok (tt, {| ext := ext w; me := me w;
                  senderKeyMemory := <[jid := map]> (senderKeyMemory w);
                  userDevicesCache := userDevicesCache w;
                  log := keys_set "sender-key-memory" jid :: log w |}).

Definition setUserDevicesCache (f : gmap string (list JidWithDevice) →
                                    gmap string (list JidWithDevice)) : M Ext unit :=
  λ w, Ok (tt, {| ext := ext w; me := me w; senderKeyMemory := senderKeyMemory w;
                  userDevicesCache := f (userDevicesCache w); log := log w |}).

(** A loop over a list whose body is in the monad. *)
Fixpoint forEach {A B} (f : A → M Ext B) (l : list A) : M Ext (list B) :=
  match l with
  | [] => ret []
  | x :: l' =>
      let* y := f x in
      let* ys := forEach f l' in
      ret (y :: ys)
  end.

(** [getUSyncDevices], first loop: split the (deduplicated) jids into
    cached device lists and users to query.  The cache rejects a key that is
    not a string, which is what a jid that does not decode gives. *)
Definition lookupCached (useCache : bool)
    (cache : gmap string (list JidWithDevice))
    (acc : Result (list JidWithDevice * list string)) (jid : string)
  : Result (list JidWithDevice * list string) :=
  match acc with
  | Throw e => Throw e
  | Ok (deviceResults, users) =>
      match fj_user <$> jidDecode jid with
      | None => Throw Rejected
      | Some user =>
          match cache !! user with
          | Some devices =>
              if useCache then Ok (deviceResults ++ devices, users)
              else Ok (deviceResults, users ++ [jidNormalizedUser jid])
          | None => Ok (deviceResults, users ++ [jidNormalizedUser jid])
          end
      end
  end.

(** [deviceMap[item.user] = deviceMap[item.user] || []; push(item)] *)
Definition addToDeviceMap (deviceMap : gmap string (list JidWithDevice))
    (item : JidWithDevice) : gmap string (list JidWithDevice) :=
  <[user item := default [] (deviceMap !! user item) ++ [item]]> deviceMap.

Definition getUSyncDevices (jids : list string) (useCache : bool)
    (ignoreZeroDevices : bool) : M Ext (list JidWithDevice) :=
  let jids := remove_dups jids in
  let* cache := get userDevicesCache in
  let* (deviceResults, users) :=
    liftResult (foldl (lookupCached useCache cache) (Ok ([], [])) jids) in
  let* _ := emit (usync_query users) in
  let* result := withExt Rejected (λ x, usyncQuery x users) in
  let* meId := get me in
  let* meId := nonNull meId in
  let* extracted :=
    liftResult (Signal.extractDeviceJids result meId ignoreZeroDevices) in
  let deviceMap := foldl addToDeviceMap ∅ extracted in
  let* _ := setUserDevicesCache (λ c, deviceMap ∪ c) in
  ret (deviceResults ++ extracted).

(** [assertSessions] *)
Definition assertSessions (jids : list string) (force : bool) : M Ext bool :=
  let* jidsRequiringFetch :=
    if force then ret jids
    else
      let* _ := emit (keys_get "session" (jidToSignalProtocolAddress <$> jids)) in
      let* x := get ext in
      ret (filter (λ jid, hasSession x (jidToSignalProtocolAddress jid) = false) jids) in
  match jidsRequiringFetch with
  | [] => ret false
  | _ :: _ =>
      let* _ := emit (sessions_query jidsRequiringFetch) in
      let* _ := withExt Rejected
                  (λ x, (λ x', (tt, x')) <$> sessionsQuery x jidsRequiringFetch) in
      ret true
  end.

(** The [to] node built for one recipient. *)
Definition toNode (jid : string) (type : EncType) (ciphertext : bytes)
    (extraAttrs : option (gmap string string)) : BinaryNode :=
  {| tag := "to";
     attrs := {["jid" := jid]};
     content :=
       nodes [{| tag := "enc";
                 attrs := default ∅ extraAttrs
                          ∪ <["v" := "2"]> {["type" := encTypeName type]};
                 content := buffer ciphertext |}] |}.

(** The async callback mapped over [jids]: the node and whether the
    ciphertext was a [pkmsg]. *)
Definition encryptFor (data : bytes) (extraAttrs : option (gmap string string))
    (jid : string) : M Ext (BinaryNode * bool) :=
  let* (type, ciphertext) := withExt Rejected (λ x, encryptMessage x jid data) in
  let* _ := emit (encrypted jid type) in
  ret (toNode jid type ciphertext extraAttrs, bool_decide (type = pkmsg)).

(** [createParticipantNodes]: [{ nodes, shouldIncludeDeviceIdentity }] *)
Definition createParticipantNodes (jids : list string) (message : IMessage)
    (extraAttrs : option (gmap string string)) : M Ext (list BinaryNode * bool) :=
  let patched := patchMessageBeforeSending message jids in
  let data := encodeWAMessage patched in
  let* results := forEach (encryptFor data extraAttrs) jids in
  ret (results.*1, existsb id results.*2).

Definition getMediaType (message : IMessage) : option string :=
  match message with
  | contentMessage c =>
      if imageMessage c then Some "image"
      else match videoMessage c with
      | Some gifPlayback => Some (if gifPlayback then "gif" else "video")
      | None =>
      match audioMessage c with
      | Some ptt => Some (if ptt then "ptt" else "audio")
      | None =>
      if contactMessage c then Some "vcard"
      else if documentMessage c then Some "document"
      else if contactsArrayMessage c then Some "contact_array"
      else if liveLocationMessage c then Some "livelocation"
      else if stickerMessage c then Some "sticker"
      else if bool_decide (is_Some (listMessage c)) then Some "list"
      else if listResponseMessage c then Some "list_response"
      else if buttonsResponseMessage c then Some "buttons_response"
      else if orderMessage c then Some "order"
      else if productMessage c then Some "product"
      else if interactiveResponseMessage c then Some "native_flow_response"
      else None
      end end
  | _ => None
  end.

Definition getButtonType (message : IMessage) : option string :=
  match message with
  | contentMessage c =>
      if buttonsMessage c then Some "buttons"
      else if buttonsResponseMessage c then Some "buttons_response"
      else if interactiveResponseMessage c then Some "interactive_response"
      else if bool_decide (is_Some (listMessage c)) then Some "list"
      else if listResponseMessage c then Some "list_response"
      else None
  | _ => None
  end.

(** [getButtonArgs]; a list message without a list type throws, and so does
    a list type that the enumeration does not name. *)
Definition getButtonArgs (message : IMessage) : Result (gmap string string) :=
  match message with
  | contentMessage c =>
      if templateMessage c then Ok ∅
      else match listMessage c with
      | Some type =>
          if bool_decide (type = 0) then Throw Rejected
          else match listTypeName type with
               | Some n => Ok (<["v" := "2"]> {["type" := n]})
               | None => Throw TypeError
               end
      | None => Ok ∅
      end
  | _ => Ok ∅
  end.

Definition deviceJid (d : JidWithDevice) : string :=
  jidEncode (user d) "s.whatsapp.net" (device d).

(** [senderKeyMap[jid]] as a condition: marked with [true]. *)
Definition marked (senderKeyMap : gmap string bool) (jid : string) : bool :=
  bool_decide (senderKeyMap !! jid = Some true).

(** The body of the loop that fills [senderKeyJids]:
    [if(!senderKeyMap[jid] || !!participant)]. *)
Definition senderKeyStep (retry : bool) (acc : list string * gmap string bool)
    (d : JidWithDevice) : list string * gmap string bool :=
  let jid := deviceJid d in
  if negb (marked acc.2 jid) || retry
  then (acc.1 ++ [jid], <[jid := true]> acc.2)
  else acc.

Definition senderKeyLoop (retry : bool) (devices : list JidWithDevice)
    (senderKeyMap : gmap string bool) : list string * gmap string bool :=
  foldl (senderKeyStep retry) ([], senderKeyMap) devices.

Definition mediaAttrs (mediaType : option string) : option (gmap string string) :=
  (λ t, {["mediatype" := t]}) <$> mediaType.

(** The group branch of the transaction body.  It returns [participants],
    [binaryNodeContent] and [shouldIncludeDeviceIdentity]. *)
Definition relayGroup (jid destinationJid meId : string) (message : IMessage)
    (opts : MessageRelayOptions) (devices : list JidWithDevice)
  : M Ext (list BinaryNode * list BinaryNode * bool) :=
  let retry := bool_decide (is_Some (participant opts)) in
  let* groupData :=
    match cachedGroupMetadata opts ≫= (λ f, f jid) with
    | Some groupData => ret groupData
    | None =>
        let* _ := emit (group_metadata_query jid) in
        withExt Rejected (λ x, groupMetadata x jid)
    end in
  let* senderKeyMap :=
    if retry then ret ∅
    else
      let* _ := emit (keys_get "sender-key-memory" [jid]) in
      let* memory := get senderKeyMemory in
      ret (default ∅ (memory !! jid)) in
  let* devices :=
    if retry then ret devices
    else
      let* additionalDevices :=
        getUSyncDevices groupData
          (negb (bool_decide (useUserDevicesCache opts = Some false))) false in
      ret (devices ++ additionalDevices) in
  let patched := patchMessageBeforeSending message (deviceJid <$> devices) in
  let data := encodeWAMessage patched in
  let* _ := emit (group_encrypted destinationJid) in
  let* (ciphertext, senderKeyDistribution) :=
    withExt Rejected (λ x, encryptGroupMessage x destinationJid data meId) in
  let (senderKeyJids, senderKeyMap') := senderKeyLoop retry devices senderKeyMap in
  let* (participants, shouldIncludeDeviceIdentity) :=
    match senderKeyJids with
    | [] => ret ([], false)
    | _ :: _ =>
        let senderKeyMsg :=
          senderKeyDistributionMessage senderKeyDistribution destinationJid in
        let* _ := assertSessions senderKeyJids false in
        createParticipantNodes senderKeyJids senderKeyMsg
          (mediaAttrs (getMediaType message))
    end in
  let binaryNodeContent :=
    [{| tag := "enc"; attrs := <["v" := "2"]> {["type" := "skmsg"]};
        content := buffer ciphertext |}] in
  let* _ := setSenderKeyMemory jid senderKeyMap' in
  ret (participants, binaryNodeContent, shouldIncludeDeviceIdentity).

(** The 1-1 branch. *)
Definition relayDirect (jid destinationJid meId user : string)
    (message : IMessage) (opts : MessageRelayOptions)
    (devices : list JidWithDevice)
  : M Ext (list BinaryNode * list BinaryNode * bool) :=
  let* meDecoded := nonNull (jidDecode meId) in
  let meUser := fj_user meDecoded in
  let* devices :=
    match participant opts with
    | Some _ => ret devices
    | None =>
        let devices :=
          devices ++ [{| user := user; device := None |};
                      {| user := meUser; device := None |}] in
        let* additionalDevices :=
          getUSyncDevices [meId; jid]
            (negb (bool_decide (useUserDevicesCache opts = Some false))) true in
        ret (devices ++ additionalDevices)
    end in
  let meJids := deviceJid <$> filter (λ d, WABinary.user d = meUser) devices in
  let otherJids := deviceJid <$> filter (λ d, WABinary.user d ≠ meUser) devices in
  let allJids := deviceJid <$> devices in
  let* _ := assertSessions allJids false in
  let meMsg := deviceSentMessage destinationJid message in
  let extra := mediaAttrs (getMediaType message) in
  let* (meNodes, s1) := createParticipantNodes meJids meMsg extra in
  let* (otherNodes, s2) := createParticipantNodes otherJids message extra in
  ret (meNodes ++ otherNodes, [], s1 || s2).

(** [if(participants.length) binaryNodeContent.push({ tag: 'participants', ... })] *)
Definition pushParticipants (participants binaryNodeContent : list BinaryNode)
  : list BinaryNode :=
  match participants with
  | [] => binaryNodeContent
  | _ :: _ =>
      binaryNodeContent ++
        [{| tag := "participants"; attrs := ∅; content := nodes participants |}]
  end.

(** The attributes of the [message] stanza: [{ id, type: 'text',
    ...additionalAttributes }], then [to] and, for a retry, [participant] or
    [recipient]. *)
Definition stanzaAttrs (msgId destinationJid meId : string)
    (additionalAttributes : option (gmap string string))
    (participant : option RetryParticipant) : gmap string string :=
  let attrs0 :=
    default ∅ additionalAttributes ∪ <["id" := msgId]> {["type" := "text"]} in
  match participant with
  | Some p =>
      if isJidGroup destinationJid then
        <["participant" := participant_jid p]> (<["to" := destinationJid]> attrs0)
      else if areJidsSameUser (participant_jid p) meId then
        <["recipient" := destinationJid]> (<["to" := participant_jid p]> attrs0)
      else <["to" := participant_jid p]> attrs0
  | None => <["to" := destinationJid]> attrs0
  end.

(** [if(shouldIncludeDeviceIdentity) stanza.content.push({ tag: 'device-identity', ... })] *)
Definition pushDeviceIdentity (shouldIncludeDeviceIdentity : bool)
    (content : list BinaryNode) : list BinaryNode :=
  if shouldIncludeDeviceIdentity then
    content ++ [{| tag := "device-identity"; attrs := ∅;
                   content := buffer encodeSignedDeviceIdentity |}]
  else content.

(** [if(buttonType) stanza.content.push({ tag: 'biz', ... })] *)
Definition pushBiz (message : IMessage) (content : list BinaryNode)
  : Result (list BinaryNode) :=
  match getButtonType message with
  | Some buttonType =>
      match getButtonArgs message with
      | Ok args =>
          Ok (content ++
                [{| tag := "biz"; attrs := ∅;
                    content := nodes [{| tag := buttonType; attrs := args;
                                         content := absent |}] |}])
      | Throw e => Throw e
      end
  | None => Ok content
  end.

(** [msgId = msgId || generateMessageID()] *)
Definition orGenerateMessageID (msgId : option string) : M Ext string :=
  match msgId with
  | Some i =>
      if bool_decide (i = "") then withExt Rejected (Some ∘ generateMessageID)
      else ret i
  | None => withExt Rejected (Some ∘ generateMessageID)
  end.

(** The [if(participant)] block before the transaction: the attributes and
    the initial [devices]. *)
Definition retryTarget (isGroup : bool) (opts : MessageRelayOptions)
  : M Ext (option (gmap string string) * list JidWithDevice) :=
  match participant opts with
  | Some p =>
      let additionalAttributes :=
        if isGroup then additionalAttributes opts
        else Some (<["device_fanout" := "false"]>
                     (default ∅ (additionalAttributes opts))) in
      let* d := nonNull (jidDecode (participant_jid p)) in
      ret (additionalAttributes, [{| user := fj_user d; device := fj_device d |}])
  | None => ret (additionalAttributes opts, [])
  end.

(** [relayMessage].  The body of the key-store transaction is inlined: a
    throw anywhere leaves no result, and with it no committed write. *)
Definition relayMessage (jid : string) (message : IMessage)
    (opts : MessageRelayOptions) : M Ext string :=
  let* meId := get me in
  let* meId := nonNull meId in
  let* decoded := nonNull (jidDecode jid) in
  let user := fj_user decoded in
  let isGroup := bool_decide (fj_server decoded = "g.us") in
  let* msgId := orGenerateMessageID (messageId opts) in
  let destinationJid :=
    jidEncode user (if isGroup then "g.us" else "s.whatsapp.net") None in
  let* (additionalAttributes, devices) := retryTarget isGroup opts in
  let* (participants, binaryNodeContent, shouldIncludeDeviceIdentity) :=
    if isGroup then relayGroup jid destinationJid meId message opts devices
    else relayDirect jid destinationJid meId user message opts devices in
  let* content :=
    liftResult
      (pushBiz message
         (pushDeviceIdentity shouldIncludeDeviceIdentity
            (pushParticipants participants binaryNodeContent))) in
  let stanza :=
    {| tag := "message";
       attrs := stanzaAttrs msgId destinationJid meId additionalAttributes
                  (participant opts);
       content := nodes content |} in
  let* _ := emit (node_sent stanza) in
  let* _ := withExt Rejected (λ x, (λ x', (tt, x')) <$> sendNode x stanza) in
  ret msgId.

(** The recipients that claim C4 states for a 1-1 send: the devices the
    USync result reports for the two users, minus the sending device. *)
Definition claimedFanout (sender : FullJid) (reported : list (string * BinaryNode))
  : list string :=
  deviceJid
    <$> filter (λ d, d ≠ {| user := fj_user sender; device := fj_device sender |})
          (Signal.reportedAsDevices reported).

Definition claimedRecipients (result : BinaryNode) (myJid : string)
  : option (list string) :=
  match jidDecode myJid, Signal.reportedDevices result with
  | Some sender, Ok reported => Some (claimedFanout sender reported)
  | _, _ => None
  end.

(** [devices] is what device discovery returned to a group send made with
    [opts] from world [w]: the answer of [getUSyncDevices], run without
    skipping device 0 on the participants of the group, in a world that
    has the account and the device cache of [w]. *)
Definition discovers (opts : MessageRelayOptions) (w : World Ext)
    (devices : list JidWithDevice) : Prop :=
  ∃ groupData wa wb,
    me wa = me w ∧ userDevicesCache wa = userDevicesCache w
    ∧ getUSyncDevices groupData
        (negb (bool_decide (useUserDevicesCache opts = Some false))) false wa
      = Ok (devices, wb).

End WithHost.

(** Reading a stanza back. *)
Definition childrenOf (n : BinaryNode) : list BinaryNode :=
  match content n with
  | nodes l => l
  | _ => []
  end.

(** The per-device nodes: the children of the [participants] child. *)
Definition recipientNodes (stanza : BinaryNode) : list BinaryNode :=
  filter (λ n, tag n = "participants") (childrenOf stanza) ≫= childrenOf.

Definition recipientJids (stanza : BinaryNode) : list string :=
  omap (λ n, attrs n !! "jid") (recipientNodes stanza).

Definition hasChild (t : string) (stanza : BinaryNode) : bool :=
  bool_decide (Exists (λ n, tag n = t) (childrenOf stanza)).

(** The effects that the claims single out. *)
Inductive EffectKind := KUSync | KMemoryRead | KPkmsg | KOther.

#[global] Instance EffectKind_eq_dec : EqDecision EffectKind.
Proof. solve_decision. Defined.

Definition kindOf (e : Effect) : EffectKind :=
  match e with
  | usync_query _ => KUSync
  | keys_get t _ => if bool_decide (t = "sender-key-memory") then KMemoryRead else KOther
  | encrypted _ pkmsg => KPkmsg
  | _ => KOther
  end.

(** [w'] differs from [w] by the externals, the cache and the effects
    [new]: the account and the sender-key memory are those of [w]. *)
Definition extends {Ext} (w w' : World Ext) (new : list Effect) : Prop :=
  me w' = me w
  ∧ senderKeyMemory w' = senderKeyMemory w
  ∧ log w' = new ++ log w.

(** Whether an effect of kind [k] is among [new]. *)
Definition hasKind (k : EffectKind) (new : list Effect) : bool :=
  existsb (λ e, bool_decide (kindOf e = k)) new.

End MessagesSend.

(** *** Sample inputs

    Concrete externals and inputs on which the model is run. *)

Module Samples.
Import Signal.

(** A counter as random source: the n-th pair drawn carries n. *)
Definition countingCurve (n : nat) : KeyPair * nat :=
  ({| public := replicate n Byte.x01; private := [] |}, S n).

Definition sampleCreds (first next : Z) : AuthenticationCreds :=
  {| noiseKey := {| public := [Byte.x01]; private := [] |};
     signedIdentityKey := {| public := [Byte.x02]; private := [] |};
     advSecretKey := "adv";
     nextPreKeyId := next;
     firstUnuploadedPreKeyId := first |}.

(** Ids 5, 6, 7 generated and not uploaded; 8 is the next id. *)
Definition sampleAuth : AuthenticationState :=
  {| creds := sampleCreds 5 8;
     keys := list_to_map [(5, (countingCurve 0).1); (6, (countingCurve 0).1);
                          (7, (countingCurve 0).1)] |}.


(** Node's base64 on the two sample public keys. *)
Definition sampleBase64 (b : bytes) : string :=
  match b with
  | [Byte.x01] => "AQ=="
  | [Byte.x02] => "Ag=="
  | _ => ""
  end.

(** [ws.close()] on an open WebSocket starts the closing handshake. *)
Definition sampleClose (r : Socket.ReadyState) : Socket.ReadyState := Socket.CLOSING.


(** Decoders for the sync loop.  A sample patch is [true] when its MAC is
    intact.  With verification on, a patch list with a tampered MAC throws a
    Boom without a status of its own (status 500, name "Error"). *)
Definition macMismatch : Chats.SyncError :=
  {| Chats.output_statusCode := Some 500; Chats.name := "Error" |}.

Definition sampleDecodeSnapshot (n : string) (snap : Z) (initial : option Z)
    (verify : bool) : Chats.SyncError + (Chats.LTHashState * gmap string unit) :=
  inr ({| Chats.version := snap; Chats.hash := []; Chats.indexValueMap := ∅ |}, ∅).

Definition sampleDecodePatches (n : string) (ps : list bool)
    (state : option Chats.LTHashState) (initial : option Z) (verify : bool)
  : Chats.SyncError + (Chats.LTHashState * gmap string unit) :=
  if verify && negb (forallb id ps) then inl macMismatch
  else
    inr ({| Chats.version :=
              from_option Chats.version 0 state + Z.of_nat (length ps);
            Chats.hash := []; Chats.indexValueMap := ∅ |}, ∅).

(** One patch for the collection, tampered or not, and nothing more to
    fetch. *)
Definition onePatch (intact : bool) : Chats.SyncEntry (Snapshot := Z) (Patch := bool) :=
  {| Chats.patches := [intact]; Chats.hasMorePatches := false;
     Chats.snapshot := None |}.

(** Scenario S6: [regular] always comes back with a tampered patch,
    [critical_block] syncs at once. *)
Definition tamperedAnswers : list (list (string * Chats.SyncEntry)) :=
  [ [("regular", onePatch false); ("critical_block", onePatch true)];
    [("regular", onePatch false)];
    [("regular", onePatch false)] ].


(** A test double of [Host], to run the send path on concrete inputs.
    Modelled from the spec: WABinary, the Signal repository and the socket
    are outside the given sources.  Jids have the glossary's shape
    [user@server[:device]], the primary device (device 0) being addressed by
    the bare user jid; a child of a node is its first child with the tag.
    The double answers every USync query with [reply], encrypts to a [msg]
    for the jids in [established] and to a [pkmsg] otherwise, and never
    fails. *)
Fixpoint splitOn (c : Ascii.ascii) (s : string) : string * option string :=
  match s with
  | EmptyString => (EmptyString, None)
  | String a rest =>
      if Ascii.eqb a c then (EmptyString, Some rest)
      else let '(u, r) := splitOn c rest in (String a u, r)
  end.

Fixpoint digits (acc : Z) (s : string) : option Z :=
  match s with
  | EmptyString => Some acc
  | String a rest =>
      let n := Z.of_nat (Ascii.nat_of_ascii a) - 48 in
      if bool_decide (0 ≤ n ≤ 9) then digits (10 * acc + n) rest else None
  end.

Definition sampleJidDecode (jid : string) : option WABinary.FullJid :=
  match splitOn (Ascii.ascii_of_nat 64) (* @ *) jid with
  | (u, Some rest) =>
      match splitOn (Ascii.ascii_of_nat 58) (* : *) rest with
      | (srv, Some dev) =>
          (λ d, {| WABinary.fj_user := u; WABinary.fj_server := srv;
                   WABinary.fj_device := Some d |}) <$> digits 0 dev
      | (srv, None) =>
          Some {| WABinary.fj_user := u; WABinary.fj_server := srv;
                  WABinary.fj_device := None |}
      end
  | (_, None) => None
  end.

Definition sampleJidEncode (u srv : string) (device : option Z) : string :=
  u +:+ "@" +:+ srv +:+
  match device with
  | Some d => if bool_decide (d = 0) then "" else ":" +:+ pretty d
  | None => ""
  end.

Definition sampleChild (n : option WABinary.BinaryNode) (t : string)
  : option WABinary.BinaryNode :=
  n ≫= λ n, match WABinary.content n with
            | WABinary.nodes l => head (filter (λ c, WABinary.tag c = t) l)
            | _ => None
            end.

Record SampleExt := {
  reply : WABinary.BinaryNode;
  established : list string;
  members : list string
}.

#[global] Instance sampleHost : WABinary.Host SampleExt := {|
  WABinary.jidDecode := sampleJidDecode;
  WABinary.jidEncode := sampleJidEncode;
  WABinary.jidNormalizedUser jid :=
    from_option (λ d, sampleJidEncode (WABinary.fj_user d) (WABinary.fj_server d) None)
                "" (sampleJidDecode jid);
  WABinary.areJidsSameUser a b :=
    bool_decide (WABinary.fj_user <$> sampleJidDecode a
                 = WABinary.fj_user <$> sampleJidDecode b);
  WABinary.isJidGroup jid :=
    bool_decide (WABinary.fj_server <$> sampleJidDecode jid = Some "g.us");
  WABinary.getBinaryNodeChild := sampleChild;
  WABinary.toNumber v := v ≫= digits 0;
  WABinary.encodeWAMessage _ := [Byte.x0a];
  WABinary.encodeSignedDeviceIdentity := [Byte.x07];
  WABinary.listTypeName t :=
    if bool_decide (t = 1) then Some "single_select"
    else if bool_decide (t = 2) then Some "product_list" else None;
  WABinary.generateMessageID x := ("3EB0", x);
  WABinary.patchMessageBeforeSending m _ := m;
  WABinary.jidToSignalProtocolAddress jid := jid;
  WABinary.hasSession _ _ := true;
  WABinary.encryptMessage x jid data :=
    Some (if bool_decide (jid ∈ established x) then WABinary.msg else WABinary.pkmsg,
          data, x);
  WABinary.encryptGroupMessage x _ data _ := Some (data, [Byte.x09], x);
  WABinary.usyncQuery x _ := Some (reply x, x);
  WABinary.sessionsQuery x _ := Some x;
  WABinary.groupMetadata x _ := Some (members x, x);
  WABinary.sendNode x _ := Some x
|}.

Definition node (t : string) (a : list (string * string))
    (c : list WABinary.BinaryNode) : WABinary.BinaryNode :=
  {| WABinary.tag := t; WABinary.attrs := list_to_map a;
     WABinary.content := WABinary.nodes c |}.

Definition leaf (t : string) (a : list (string * string)) : WABinary.BinaryNode :=
  {| WABinary.tag := t; WABinary.attrs := list_to_map a;
     WABinary.content := WABinary.absent |}.

(** A user of a USync result with its device list. *)
Definition usyncUser (jid : string) (devices : list WABinary.BinaryNode)
  : WABinary.BinaryNode :=
  node "user" [("jid", jid)] [node "devices" [] [node "device-list" [] devices]].

Definition usyncResult (users : list WABinary.BinaryNode) : WABinary.BinaryNode :=
  node "iq" [("type", "result")] [node "usync" [] [node "list" [] users]].

(** The sending device is device 5 of user 999.  The server reports, for
    the peer 111, the devices 0, 1 and 2, the last without a key index, and
    for 999 the devices 0 and 5. *)
Definition meJid : string := "999@s.whatsapp.net:5".
Definition peerJid : string := "111@s.whatsapp.net".
Definition groupJid : string := "g1@g.us".

Definition peerReply : WABinary.BinaryNode :=
  usyncResult
    [usyncUser "999@s.whatsapp.net"
       [leaf "device" [("id", "0")]; leaf "device" [("id", "5"); ("key-index", "1")]];
     usyncUser "111@s.whatsapp.net"
       [leaf "device" [("id", "0")]; leaf "device" [("id", "1"); ("key-index", "1")];
        leaf "device" [("id", "2")]]].

Definition sampleWorld (r : WABinary.BinaryNode) (est : list string)
  : MessagesSend.World SampleExt :=
  {| MessagesSend.ext := {| reply := r; established := est;
                            members := ["111@s.whatsapp.net"; "222@s.whatsapp.net"] |};
     MessagesSend.me := Some meJid;
     MessagesSend.senderKeyMemory := ∅;
     MessagesSend.userDevicesCache := ∅;
     MessagesSend.log := [] |}.

Definition textMessage : WABinary.IMessage :=
  WABinary.contentMessage
    {| WABinary.imageMessage := false; WABinary.videoMessage := None;
       WABinary.audioMessage := None; WABinary.contactMessage := false;
       WABinary.documentMessage := false; WABinary.contactsArrayMessage := false;
       WABinary.liveLocationMessage := false; WABinary.stickerMessage := false;
       WABinary.listMessage := None; WABinary.listResponseMessage := false;
       WABinary.buttonsResponseMessage := false; WABinary.orderMessage := false;
       WABinary.productMessage := false;
       WABinary.interactiveResponseMessage := false;
       WABinary.buttonsMessage := false; WABinary.templateMessage := false;
       WABinary.otherFields := [] |}.

Definition plainSend : MessagesSend.MessageRelayOptions :=
  {| MessagesSend.messageId := Some "MSG1";
     MessagesSend.participant := None;
     MessagesSend.additionalAttributes := None;
     MessagesSend.useUserDevicesCache := None;
     MessagesSend.cachedGroupMetadata := None |}.

Definition retrySend (jid : string) : MessagesSend.MessageRelayOptions :=
  {| MessagesSend.messageId := Some "MSG1";
     MessagesSend.participant :=
       Some {| MessagesSend.participant_jid := jid;
               MessagesSend.participant_count := 1 |};
     MessagesSend.additionalAttributes := None;
     MessagesSend.useUserDevicesCache := None;
     MessagesSend.cachedGroupMetadata := None |}.

(** What a run leaves to look at: the recipients of the stanza sent last. *)
Definition lastSent {Ext} (r : WABinary.Result (string * MessagesSend.World Ext))
  : option WABinary.BinaryNode :=
  match r with
  | WABinary.Ok (_, w) =>
      match MessagesSend.log w with
      | MessagesSend.node_sent stanza :: _ => Some stanza
      | _ => None
      end
  | WABinary.Throw _ => None
  end.

(** Between two sends user 333 joins the group: the group metadata lists the
    new member and the server reports the devices 0 and 3 for it.  All else
    of the world is as the earlier send left it. *)
Definition joinReply : WABinary.BinaryNode :=
  usyncResult
    [usyncUser "333@s.whatsapp.net"
       [leaf "device" [("id", "0")]; leaf "device" [("id", "3"); ("key-index", "1")]]].

Definition afterJoin (w : MessagesSend.World SampleExt) : MessagesSend.World SampleExt :=
  {| MessagesSend.ext :=
       {| reply := joinReply; established := established (MessagesSend.ext w);
          members := members (MessagesSend.ext w) ++ ["333@s.whatsapp.net"] |};
     MessagesSend.me := MessagesSend.me w;
     MessagesSend.senderKeyMemory := MessagesSend.senderKeyMemory w;
     MessagesSend.userDevicesCache := MessagesSend.userDevicesCache w;
     MessagesSend.log := MessagesSend.log w |}.

End Samples.

(** *** Utils/signal.ts: the node that uploads a batch of pre-keys *)

Module PreKeyUpload.
Import WABinary Signal.

(** The [pre-key] namespace holds a pair for every id that was generated and
    is not yet uploaded. *)
Definition holdsUnuploaded (st : AuthenticationState) : Prop :=
  firstUnuploadedPreKeyId (creds st) ≤ nextPreKeyId (creds st)
  ∧ ∀ id, firstUnuploadedPreKeyId (creds st) ≤ id < nextPreKeyId (creds st) →
          is_Some (keys st !! id).

(** [SignedKeyPair], and the two fields of the credentials that only
    [getNextPreKeysNode] reads. *)
Record SignedKeyPair := {
  keyPair : KeyPair;
  signature : bytes;
  keyId : Z
}.

Record RegistrationCreds := {
  registrationId : Z;
  signedPreKey : SignedKeyPair
}.

(** [Object.keys] of an object whose keys are array indices: ascending. *)
Definition objectKeys {A} (m : gmap Z A) : list Z :=
  merge_sort Z.le (map_to_list m).*1.

Section WithEncoding.
(** [encodeBigEndian] of Utils/generics (its second argument is the number
    of bytes, 4 by default) and the constants [KEY_BUNDLE_TYPE] and
    [S_WHATSAPP_NET] are outside the given sources. *)
Context (encodeBigEndian : Z → nat → bytes) (KEY_BUNDLE_TYPE : bytes)
        (S_WHATSAPP_NET : string).
Context {Rng : Type} (generateKeyPair : Rng → KeyPair * Rng).

Definition xmppSignedPreKey (key : SignedKeyPair) : BinaryNode :=
  {| tag := "skey"; attrs := ∅;
     content :=
       nodes [ {| tag := "id"; attrs := ∅;
                  content := buffer (encodeBigEndian (keyId key) 3) |};
               {| tag := "value"; attrs := ∅;
                  content := buffer (public (keyPair key)) |};
               {| tag := "signature"; attrs := ∅;
                  content := buffer (signature key) |} ] |}.

Definition xmppPreKey (pair : KeyPair) (id : Z) : BinaryNode :=
  {| tag := "key"; attrs := ∅;
     content :=
       nodes [ {| tag := "id"; attrs := ∅;
                  content := buffer (encodeBigEndian id 3) |};
               {| tag := "value"; attrs := ∅;
                  content := buffer (public pair) |} ] |}.

(** [Object.keys(preKeys).map(k => xmppPreKey(preKeys[+k], +k))] *)
Definition preKeyNodes (preKeys : gmap Z KeyPair) : list BinaryNode :=
  omap (λ k, (λ pair, xmppPreKey pair k) <$> preKeys !! k) (objectKeys preKeys).

(** [getNextPreKeysNode]: [{ update, node }], with the key store as
    [getNextPreKeys] leaves it. *)
Definition getNextPreKeysNode (st : AuthenticationState) (reg : RegistrationCreds)
    (count : Z) (rng : Rng) : NextPreKeys * BinaryNode * Rng :=
  let '(r, rng') := getNextPreKeys generateKeyPair st count rng in
  let node :=
    {| tag := "iq";
       attrs := <["xmlns" := "encrypt"]>
                  (<["type" := "set"]> {["to" := S_WHATSAPP_NET]});
       content :=
         nodes [ {| tag := "registration"; attrs := ∅;
                    content := buffer (encodeBigEndian (registrationId reg) 4) |};
                 {| tag := "type"; attrs := ∅; content := buffer KEY_BUNDLE_TYPE |};
                 {| tag := "identity"; attrs := ∅;
                    content := buffer (public (signedIdentityKey (creds st))) |};
                 {| tag := "list"; attrs := ∅;
                    content := nodes (preKeyNodes (preKeys r)) |};
                 xmppSignedPreKey (signedPreKey reg) ] |} in
  (r, node, rng').

End WithEncoding.

(** The [key] children of the [list] child of an upload node. *)
Definition listedKeys (node : BinaryNode) : list BinaryNode :=
  filter (λ n, tag n = "list") (MessagesSend.childrenOf node)
    ≫= MessagesSend.childrenOf.

End PreKeyUpload.

(** *** Socket/socket.ts: message tags, sending and [logout] *)

Module SocketIO.
Import WABinary Signal Socket.

(** Beside the variables of [State]: the counter behind
    [generateMessageTag] and the frames that were handed to [ws.send],
    oldest first. *)
Record Conn := {
  core : State;
  epoch : Z;
  sent : list BinaryNode
}.

(** Why a send did not go through: the check of [sendRawMessage] (a Boom
    with status [connectionClosed]) or a rejection by [ws.send] or its
    timeout. *)
Inductive SendError :=
| notOpen (b : Boom)
| sendFailed.

(** [x] as a condition, for a string that may be missing. *)
Definition truthy (x : option string) : bool :=
  match x with
  | Some s => bool_decide (s ≠ "")
  | None => false
  end.

Section WithConfig.
(** [generateMdTagPrefix()] is drawn once per socket; [S_WHATSAPP_NET] is a
    constant of WABinary; [ws_close] is what [ws.close()] does to the ready
    state. *)
Context (uqTagId : string) (S_WHATSAPP_NET : string)
        (ws_close : ReadyState → ReadyState).

(** [() => `${uqTagId}${epoch++}`] *)
Definition generateMessageTag (c : Conn) : string * Conn :=
  (uqTagId +:+ pretty (epoch c),
   {| core := core c; epoch := epoch c + 1; sent := sent c |}).

(** [n] tags drawn in a row. *)
Fixpoint generateMessageTags (n : nat) (c : Conn) : list string * Conn :=
  match n with
  | O => ([], c)
  | S n' =>
      let '(t, c1) := generateMessageTag c in
      let '(ts, c2) := generateMessageTags n' c1 in
      (t :: ts, c2)
  end.

(** The head of [query]:
    [if(!node.attrs.id) node.attrs.id = generateMessageTag()]. *)
Definition assignId (c : Conn) (node : BinaryNode) : BinaryNode * Conn :=
  if truthy (attrs node !! "id") then (node, c)
  else
    let '(t, c') := generateMessageTag c in
    ({| tag := tag node; attrs := <["id" := t]> (attrs node);
        content := content node |}, c').

(** The ids under which a row of queries goes out. *)
Fixpoint assignIds (c : Conn) (nodes : list BinaryNode) : list (option string) * Conn :=
  match nodes with
  | [] => ([], c)
  | node :: rest =>
      let '(node', c1) := assignId c node in
      let '(ids, c2) := assignIds c1 rest in
      (attrs node' !! "id" :: ids, c2)
  end.

(** [sendNode], that is [sendRawMessage(encodeBinaryNode(frame))];
    [delivered] tells whether [ws.send] went through in time. *)
Definition sendNode (c : Conn) (frame : BinaryNode) (delivered : bool)
  : Conn * option SendError :=
  if bool_decide (readyState (core c) ≠ OPEN) then
    (c, Some (notOpen {| message := "Connection Closed";
                         statusCode := connectionClosed |}))
  else
    ({| core := core c; epoch := epoch c; sent := sent c ++ [frame] |},
     if delivered then None else Some sendFailed).

(** [logout(msg)]; [meId] is [authState.creds.me?.id]. *)
Definition logout (c : Conn) (meId : option string) (msg : option string)
    (delivered : bool) (now : Z) : Conn * option SendError :=
  let '(c1, failure) :=
    match meId with
    | Some jid =>
        if bool_decide (jid ≠ "") then
          let '(id, c0) := generateMessageTag c in
          sendNode c0
            {| tag := "iq";
               attrs := <["to" := S_WHATSAPP_NET]>
                          (<["type" := "set"]>
                             (<["id" := id]> {["xmlns" := "md"]}));
               content :=
                 nodes [ {| tag := "remove-companion-device";
                            attrs := <["jid" := jid]>
                                       {["reason" := "user_initiated"]};
                            content := absent |} ] |}
            delivered
        else (c, None)
    | None => (c, None)
    end in
  match failure with
  | Some e => (c1, Some e)
  | None =>
      ({| core :=
            end_ ws_close (core c1)
              (Some {| message := if truthy msg then default "" msg
                                  else "Intentional Logout";
                       statusCode := loggedOut |}) now;
          epoch := epoch c1; sent := sent c1 |}, None)
  end.

End WithConfig.

End SocketIO.

(** *** Socket/messages-send.ts: receipts; the chats socket: privacy settings *)

Module Receipts.
Import WABinary MessagesSend.

(** [proto.IMessageKey]. *)
Record WAMessageKey := {
  remoteJid : option string;
  fromMe : bool;
  id : option string;
  key_participant : option string
}.

(** An entry of the list that [aggregateMessageKeysNotFromMe] returns. *)
Record ReceiptGroup := {
  rg_jid : string;
  rg_participant : option string;
  rg_messageIds : list string
}.

(** [x] as a condition, for a string that may be missing. *)
Definition truthy (x : option string) : bool :=
  match x with
  | Some s => bool_decide (s ≠ "")
  | None => false
  end.

(** [attrs[k] = v] where [v] may be [undefined]: an attribute without a
    value is not an attribute of the node. *)
Definition setAttr (k : string) (v : option string) (m : gmap string string)
  : gmap string string :=
  match v with
  | Some s => <[k := s]> m
  | None => m
  end.

(** [content?.[0]]: the first child, the first byte of a buffer, or
    nothing. *)
Definition firstOf (c : Content BinaryNode) : option (Byte.byte + BinaryNode) :=
  match c with
  | absent => None
  | buffer b => inl <$> head b
  | nodes l => inr <$> head l
  end.

Section WithHost.
Context {Ext : Type} `{!Host Ext}.
(** Outside the given sources: [isJidUser] of WABinary, the clock behind
    [unixTimestampSeconds], [aggregateMessageKeysNotFromMe] of Utils, the
    socket's [query], [reduceBinaryNodeToDictionary] of WABinary (applied to
    whatever [content?.[0]] is) and the constant [S_WHATSAPP_NET]. *)
Context (isJidUser : string → bool) (unixTimestampSeconds : Ext → Z)
        (aggregateMessageKeysNotFromMe : list WAMessageKey → list ReceiptGroup)
        (query : Ext → BinaryNode → option (BinaryNode * Ext))
        (reduceBinaryNodeToDictionary :
           option (Byte.byte + BinaryNode) → string → gmap string string)
        (S_WHATSAPP_NET : string).

(** The node that [sendReceipt] builds; [now] is the clock in seconds. *)
Definition receiptNode (now : Z) (jid : string) (participant : option string)
    (messageIds : list string) (type : option string) : BinaryNode :=
  let attrs0 := setAttr "id" (head messageIds) ∅ in
  let isReadReceipt :=
    bool_decide (type = Some "read" ∨ type = Some "read-self") in
  let attrs1 := if isReadReceipt then <["t" := pretty now]> attrs0 else attrs0 in
  let attrs2 :=
    if bool_decide (type = Some "sender") && isJidUser jid then
      setAttr "to" participant (<["recipient" := jid]> attrs1)
    else
      let attrs' := <["to" := jid]> attrs1 in
      if truthy participant then setAttr "participant" participant attrs'
      else attrs' in
  let attrs3 := if truthy type then setAttr "type" type attrs2 else attrs2 in
  let remainingMessageIds := tail messageIds in
  {| tag := "receipt";
     attrs := attrs3;
     content :=
       match remainingMessageIds with
       | [] => absent
       | _ :: _ =>
           nodes [ {| tag := "list"; attrs := ∅;
                      content :=
                        nodes ((λ id, {| tag := "item"; attrs := {["id" := id]};
                                         content := absent |})
                                 <$> remainingMessageIds) |} ]
       end |}.

Definition sendReceipt (jid : string) (participant : option string)
    (messageIds : list string) (type : option string) : M Ext unit :=
  let* x := get ext in
  let node := receiptNode (unixTimestampSeconds x) jid participant messageIds type in
  let* _ := emit (node_sent node) in
  withExt Rejected (λ x, (λ x', (tt, x')) <$> sendNode x node).

Definition sendReceipts (keys : list WAMessageKey) (type : option string)
  : M Ext (list unit) :=
  let recps := aggregateMessageKeysNotFromMe keys in
  forEach (λ g, sendReceipt (rg_jid g) (rg_participant g) (rg_messageIds g) type)
          recps.

(** The query of [fetchPrivacySettings]. *)
Definition privacyIq : BinaryNode :=
  {| tag := "iq";
     attrs := <["xmlns" := "privacy"]>
                (<["to" := S_WHATSAPP_NET]> {["type" := "get"]});
     content := nodes [ {| tag := "privacy"; attrs := ∅; content := absent |} ] |}.

(** [fetchPrivacySettings(force)], given the closure variable
    [privacySettings]; after a call that returns, the variable holds what
    the call returned. *)
Definition fetchPrivacySettings (privacySettings : option (gmap string string))
    (force : bool) : M Ext (gmap string string) :=
  match privacySettings with
  | Some settings =>
      if force then
        let* _ := emit (node_sent privacyIq) in
        let* result := withExt Rejected (λ x, query x privacyIq) in
        ret (reduceBinaryNodeToDictionary (firstOf (content result)) "category")
      else ret settings
  | None =>
      let* _ := emit (node_sent privacyIq) in
      let* result := withExt Rejected (λ x, query x privacyIq) in
      ret (reduceBinaryNodeToDictionary (firstOf (content result)) "category")
  end.

(** [readMessages]; it returns the settings that [privacySettings] now
    holds. *)
Definition readMessages (privacySettings : option (gmap string string))
    (keys : list WAMessageKey) : M Ext (gmap string string) :=
  let* settings := fetchPrivacySettings privacySettings false in
  let readType :=
    if bool_decide (settings !! "readreceipts" = Some "all") then "read"
    else "read-self" in
  let* _ := sendReceipts keys (Some readType) in
  ret settings.

End WithHost.

(** Reading a receipt back: the message ids it acknowledges, the first in
    the [id] attribute and the others as the [item]s of its [list]. *)
Definition receiptIds (node : BinaryNode) : list string :=
  option_list (attrs node !! "id")
  ++ omap (λ item, attrs item !! "id")
          (filter (λ n, tag n = "list") (childrenOf node) ≫= childrenOf).

(** The nodes of a trace, oldest first. *)
Definition nodesSent (new : list Effect) : list BinaryNode :=
  omap (λ e, match e with node_sent n => Some n | _ => None end) (reverse new).

End Receipts.

(** *** Socket/messages-send.ts: [refreshMediaConn] *)

Module MediaConn.
Import WABinary MessagesSend.

(** [MediaConnInfo]; a number read with unary [+] is [None] when it is
    [NaN]. *)
Record MediaConnInfo := {
  hosts : list (option string * option Z);
  auth : option string;
  ttl : option Z;
  fetchDate : Z
}.

(** The closure variable [mediaConn]: not assigned yet, or a promise that
    resolved, or a promise that rejected. *)
Inductive Promise (A : Type) :=
| unassigned
| resolved (a : A)
| rejected (e : Thrown).
Arguments unassigned {A}.
Arguments resolved {A} a.
Arguments rejected {A} e.

Section WithHost.
Context {Ext : Type} `{!Host Ext}.
(** Outside the given sources: the socket's [query], the clock behind
    [new Date()] in milliseconds, [getBinaryNodeChildren] of WABinary and
    the constant [S_WHATSAPP_NET]. *)
Context (query : Ext → BinaryNode → option (BinaryNode * Ext))
        (nowMs : Ext → Z)
        (getBinaryNodeChildren : option BinaryNode → string → list BinaryNode)
        (S_WHATSAPP_NET : string).

Definition mediaIq : BinaryNode :=
  {| tag := "iq";
     attrs := <["type" := "set"]>
                (<["xmlns" := "w:m"]> {["to" := S_WHATSAPP_NET]});
     content := nodes [ {| tag := "media_conn"; attrs := ∅; content := absent |} ] |}.

(** [(new Date().getTime() - media.fetchDate.getTime()) > media.ttl * 1000];
    a comparison with [NaN] is false. *)
Definition expired (media : MediaConnInfo) (now : Z) : bool :=
  match ttl media with
  | Some t => bool_decide (t * 1000 < now - fetchDate media)
  | None => false
  end.

(** [!media || forceGet || expired] *)
Definition mustFetch (media : option MediaConnInfo) (forceGet : bool) (now : Z)
  : bool :=
  match media with
  | None => true
  | Some m => forceGet || expired m now
  end.

(** The inner async function: the promise it leaves, and the world after
    it settled. *)
Definition fetchMediaConn (w : World Ext) : Promise MediaConnInfo * World Ext :=
  let w1 := {| ext := ext w; me := me w; senderKeyMemory := senderKeyMemory w;
               userDevicesCache := userDevicesCache w;
               log := node_sent mediaIq :: log w |} in
  match query (ext w) mediaIq with
  | None => (rejected Rejected, w1)
  | Some (result, x) =>
      let w2 := {| ext := x; me := me w; senderKeyMemory := senderKeyMemory w;
                   userDevicesCache := userDevicesCache w; log := log w1 |} in
      let mediaConnNode := getBinaryNodeChild (Some result) "media_conn" in
      let hosts :=
        (λ n, (attrs n !! "hostname",
               toNumber (attrs n !! "maxContentLengthBytes")))
          <$> getBinaryNodeChildren mediaConnNode "host" in
      match mediaConnNode with
      | None => (rejected TypeError, w2)
      | Some n =>
          (resolved {| hosts := hosts; auth := attrs n !! "auth";
                       ttl := toNumber (attrs n !! "ttl");
                       fetchDate := nowMs x |}, w2)
      end
  end.

(** [refreshMediaConn(forceGet)], given the variable [mediaConn]: the
    promise that the variable holds afterwards, which is also the promise
    the call returns. *)
Definition refreshMediaConn (mediaConn : Promise MediaConnInfo) (forceGet : bool)
    (w : World Ext) : Promise MediaConnInfo * World Ext :=
  match mediaConn with
  | rejected e => (rejected e, w)
  | unassigned =>
      if mustFetch None forceGet (nowMs (ext w)) then fetchMediaConn w
      else (mediaConn, w)
  | resolved media =>
      if mustFetch (Some media) forceGet (nowMs (ext w)) then fetchMediaConn w
      else (mediaConn, w)
  end.

(** Calls in a row, each with its flag; between two calls the world moves
    on as [between] says (the clock, other traffic). *)
Definition refreshAll (between : World Ext → World Ext)
    (flags : list bool) (start : Promise MediaConnInfo * World Ext)
  : Promise MediaConnInfo * World Ext :=
  foldl (λ pw forceGet, refreshMediaConn pw.1 forceGet (between pw.2)) start flags.

End WithHost.

End MediaConn.

(** *** Socket/messages-send.ts: [sendMessage] *)

Module SendMessage.
Import WABinary MessagesSend.

(** What [sendMessage] reads of an [AnyMessageContent]: the
    [disappearingMessagesInChat] member (a boolean or a number of seconds;
    [None] when it is missing or [undefined]) and the [delete] member (a
    message key; [None] when it is missing or falsy).  The rest goes to
    [generateWAMessage] unread. *)
Record AnyMessageContent := {
  disappearingMessagesInChat : option (bool + Z);
  delete : option Receipts.WAMessageKey;
  otherMembers : bytes
}.

(** [WAMessage]: its key and its [message]. *)
Record WAMessage := {
  key : Receipts.WAMessageKey;
  message : option IMessage
}.

(** What a call that returns a message leaves behind: the message, and
    whether its upsert was put on the next tick. *)
Record Sent := {
  fullMsg : WAMessage;
  upsertScheduled : bool
}.

Section WithHost.
Context {Ext : Type} `{!Host Ext}.
(** Outside the given sources: [generateWAMessage] of Utils,
    [groupToggleEphemeral] of the groups socket, the constant
    [WA_DEFAULT_EPHEMERAL], what [isJidGroup] answers when it is given no
    jid, and [emitOwnEvents] of the config. *)
Context (generateWAMessage :
           Ext → string → AnyMessageContent → string → option (WAMessage * Ext))
        (groupToggleEphemeral : Ext → string → Z → option Ext)
        (WA_DEFAULT_EPHEMERAL : Z)
        (isJidGroupOfNothing : bool)
        (emitOwnEvents : bool).

(** [additionalAttributes] as [sendMessage] fills it. *)
Definition deleteAttributes (content : AnyMessageContent) : gmap string string :=
  match delete content with
  | Some k =>
      if from_option isJidGroup isJidGroupOfNothing (Receipts.remoteJid k)
         && negb (Receipts.fromMe k)
      then {["edit" := "8"]}
      else {["edit" := "7"]}
  | None => ∅
  end.

(** The value handed to [groupToggleEphemeral]. *)
Definition ephemeralValue (d : bool + Z) : Z :=
  match d with
  | inl true => WA_DEFAULT_EPHEMERAL
  | inl false => 0
  | inr n => n
  end.

(** [sendMessage(jid, content, options)]; of the options only
    [cachedGroupMetadata] is read here.  [None] is the [undefined] that the
    branch for disappearing messages returns. *)
Definition sendMessage (jid : string) (content : AnyMessageContent)
    (cachedGroupMetadata : option (string → option (list string)))
  : M Ext (option Sent) :=
  let* userJid := get me in
  let* userJid := nonNull userJid in
  let relay : M Ext (option Sent) :=
    let* fullMsg := withExt Rejected (λ x, generateWAMessage x jid content userJid) in
    let additionalAttributes := deleteAttributes content in
    let* relayed := nonNull (message fullMsg) in
    let* _ :=
      relayMessage jid relayed
        {| messageId := Receipts.id (key fullMsg);
           participant := None;
           additionalAttributes := Some additionalAttributes;
           useUserDevicesCache := None;
           MessagesSend.cachedGroupMetadata := cachedGroupMetadata |} in
    ret (Some {| fullMsg := fullMsg; upsertScheduled := emitOwnEvents |}) in
  match disappearingMessagesInChat content with
  | Some d =>
      if isJidGroup jid then
        let* _ := withExt Rejected
                    (λ x, (λ x', (tt, x'))
                            <$> groupToggleEphemeral x jid (ephemeralValue d)) in
        ret None
      else relay
  | None => relay
  end.

End WithHost.

End SendMessage.

(** *** The chats socket: presence *)

Module Presence.
Import WABinary.

Inductive WAPresence := unavailable | available | composing | recording | paused.

#[global] Instance WAPresence_eq_dec : EqDecision WAPresence.
Proof. solve_decision. Defined.

Definition presenceName (p : WAPresence) : string :=
  match p with
  | unavailable => "unavailable"
  | available => "available"
  | composing => "composing"
  | recording => "recording"
  | paused => "paused"
  end.

(** [authState.creds.me]: [{ id, name? }]. *)
Record Contact := { c_id : option string; c_name : option string }.

(** [PresenceData]; [lastKnownPresence] is whatever string the node gave,
    [lastSeen] is [None] when it is [undefined] or [NaN]. *)
Record PresenceData := {
  lastKnownPresence : string;
  lastSeen : option Z
}.

(** The events of the two functions: [connection.update] with
    [{ isOnline }], and [presence.update] with
    [{ id, presences: { [participant]: presence } }]. *)
Inductive Event :=
| isOnline_update (isOnline : bool)
| presence_update (id : option string) (participant : option string)
                  (presence : PresenceData).

Section WithHost.
Context {Ext : Type} `{!Host Ext}.
(** [shouldIgnoreJid] of the config, applied to [attrs.from] as it is. *)
Context (shouldIgnoreJid : option string → bool).

(** [sendPresenceUpdate(type, toJid)]: the events it emits and the nodes it
    hands to [sendNode], in order.  Reading a member of a missing [me]
    throws. *)
Definition sendPresenceUpdate (me : option Contact) (type : WAPresence)
    (toJid : option string) : Result (list Event * list BinaryNode) :=
  match me with
  | None => Throw TypeError
  | Some me =>
      if bool_decide (type = available ∨ type = unavailable) then
        if Receipts.truthy (c_name me) then
          Ok ([isOnline_update (bool_decide (type = available))],
              [ {| tag := "presence";
                   attrs := Receipts.setAttr "name" (c_name me)
                              {["type" := presenceName type]};
                   content := absent |} ])
        else Ok ([], [])
      else
        Ok ([],
            [ {| tag := "chatstate";
                 attrs := Receipts.setAttr "from" (c_id me)
                            (Receipts.setAttr "to" toJid ∅);
                 content :=
                   nodes [ {| tag := if bool_decide (type = recording)
                                     then "composing" else presenceName type;
                              attrs := if bool_decide (type = recording)
                                       then {["media" := "audio"]} else ∅;
                              content := absent |} ] |} ])
  end.

(** [handlePresenceUpdate]: the events it emits.  Destructuring an empty
    array leaves [firstChild] undefined, and reading its tag throws. *)
Definition handlePresenceUpdate (node : BinaryNode) : Result (list Event) :=
  let jid := attrs node !! "from" in
  let participant :=
    if Receipts.truthy (attrs node !! "participant")
    then attrs node !! "participant" else attrs node !! "from" in
  if shouldIgnoreJid jid then Ok []
  else if bool_decide (tag node = "presence") then
    Ok [presence_update jid participant
          {| lastKnownPresence :=
               if bool_decide (attrs node !! "type" = Some "unavailable")
               then "unavailable" else "available";
             lastSeen :=
               if Receipts.truthy (attrs node !! "last")
                  && bool_decide (attrs node !! "last" ≠ Some "deny")
               then toNumber (attrs node !! "last") else None |}]
  else
    match content node with
    | nodes [] => Throw TypeError
    | nodes (firstChild :: _) =>
        let type := tag firstChild in
        let type := if bool_decide (type = "paused") then "available" else type in
        let type := if bool_decide (attrs firstChild !! "media" = Some "audio")
                    then "recording" else type in
        Ok [presence_update jid participant
              {| lastKnownPresence := type; lastSeen := None |}]
    | _ => Ok []
    end.

End WithHost.

End Presence.

(** *** Sample inputs for the further functions

    Concrete externals and inputs for the functions modelled after the send
    path. *)

Module MoreSamples.
Import WABinary.

(** [len] bytes of [n], most significant first. *)
Fixpoint sampleBigEndian (n : Z) (len : nat) : bytes :=
  match len with
  | O => []
  | S len' =>
      sampleBigEndian (n / 256) len'
        ++ [default Byte.x00 (Byte.of_N (Z.to_N (n mod 256)))]
  end.

Definition sampleRegistration : PreKeyUpload.RegistrationCreds :=
  {| PreKeyUpload.registrationId := 77;
     PreKeyUpload.signedPreKey :=
       {| PreKeyUpload.keyPair :=
            {| Signal.public := [Byte.x03]; Signal.private := [] |};
          PreKeyUpload.signature := [Byte.x04];
          PreKeyUpload.keyId := 1 |} |}.

(** A socket right after [makeSocket], with its WebSocket in state [r]. *)
Definition freshConn (r : Socket.ReadyState) : SocketIO.Conn :=
  {| SocketIO.core :=
       {| Socket.closed := false; Socket.readyState := r;
          Socket.keepAliveReq := None; Socket.qrTimer := None;
          Socket.wsListeners := {["message"; "open"; "error"; "close"]};
          Socket.evListeners := {["connection.update"; "creds.update"]};
          Socket.emitted := []; Socket.refNodes := []; Socket.qrMs := 0 |};
     SocketIO.epoch := 1;
     SocketIO.sent := [] |}.

(** Test doubles for the externals of the receipt path.  Modelled from the
    spec: a user jid is one on the server [s.whatsapp.net]; keys that are
    not from the account are grouped by chat and participant, in the order
    in which the groups first appear; the clock stands still. *)
Definition sampleIsJidUser (jid : string) : bool :=
  bool_decide (fj_server <$> Samples.sampleJidDecode jid = Some "s.whatsapp.net").

Definition sampleClock (x : Samples.SampleExt) : Z := 1700000000.

Definition addKey (groups : list Receipts.ReceiptGroup) (k : Receipts.WAMessageKey)
  : list Receipts.ReceiptGroup :=
  if Receipts.fromMe k then groups
  else
    let jid := default "" (Receipts.remoteJid k) in
    let same (g : Receipts.ReceiptGroup) : bool :=
      bool_decide (Receipts.rg_jid g = jid
                   ∧ Receipts.rg_participant g = Receipts.key_participant k) in
    if existsb same groups then
      (λ g, if same g
            then {| Receipts.rg_jid := Receipts.rg_jid g;
                    Receipts.rg_participant := Receipts.rg_participant g;
                    Receipts.rg_messageIds :=
                      Receipts.rg_messageIds g
                        ++ option_list (Receipts.id k) |}
            else g) <$> groups
    else
      groups ++ [{| Receipts.rg_jid := jid;
                    Receipts.rg_participant := Receipts.key_participant k;
                    Receipts.rg_messageIds := option_list (Receipts.id k) |}].

Definition sampleAggregate (keys : list Receipts.WAMessageKey)
  : list Receipts.ReceiptGroup :=
  foldl addKey [] keys.

Definition sampleQuery (x : Samples.SampleExt) (node : BinaryNode)
  : option (BinaryNode * Samples.SampleExt) :=
  Some (Samples.reply x, x).

(** The dictionary of a node: the [name] and [value] attributes of its
    children. *)
Definition sampleReduce (first : option (Byte.byte + BinaryNode)) (t : string)
  : gmap string string :=
  match first with
  | Some (inr node) =>
      list_to_map
        (omap (λ c : BinaryNode,
                 match attrs c !! "name", attrs c !! "value" with
                 | Some k, Some v => Some (k, v)
                 | _, _ => None
                 end)
              (MessagesSend.childrenOf node) : list (string * string))
  | _ => ∅
  end.

Definition keyOf (chat : string) (mine : bool) (i : string) : Receipts.WAMessageKey :=
  {| Receipts.remoteJid := Some chat; Receipts.fromMe := mine;
     Receipts.id := Some i; Receipts.key_participant := None |}.

(** Three keys: two messages of the peer and one of the account. *)
Definition sampleKeys : list Receipts.WAMessageKey :=
  [keyOf Samples.peerJid false "A1"; keyOf Samples.peerJid true "B1";
   keyOf Samples.peerJid false "A2"].

(** The children of a node with a given tag; a clock (in ms) that stands
    still; a server that does not answer. *)
Definition sampleChildren (n : option BinaryNode) (t : string) : list BinaryNode :=
  from_option (λ n, filter (λ c, tag c = t) (MessagesSend.childrenOf n)) [] n.

Definition sampleNowMs (x : Samples.SampleExt) : Z := 2000000.

Definition noAnswer (x : Samples.SampleExt) (node : BinaryNode)
  : option (BinaryNode * Samples.SampleExt) := None.

(** A media connection fetched 100 s before [sampleNowMs], good for 300 s. *)
Definition sampleMedia : MediaConn.MediaConnInfo :=
  {| MediaConn.hosts := [(Some "mmg.whatsapp.net", Some 100000)];
     MediaConn.auth := Some "token";
     MediaConn.ttl := Some 300;
     MediaConn.fetchDate := 1900000 |}.

(** A list message on which no list type was set. *)
Definition listWithoutType : MessageContent :=
  {| imageMessage := false; videoMessage := None; audioMessage := None;
     contactMessage := false; documentMessage := false;
     contactsArrayMessage := false; liveLocationMessage := false;
     stickerMessage := false; listMessage := Some 0;
     listResponseMessage := false; buttonsResponseMessage := false;
     orderMessage := false; productMessage := false;
     interactiveResponseMessage := false; buttonsMessage := false;
     templateMessage := false; otherFields := [] |}.

(** A send whose additional attributes name [to] and [id]. *)
Definition overridingSend : MessagesSend.MessageRelayOptions :=
  {| MessagesSend.messageId := Some "MSG1";
     MessagesSend.participant := None;
     MessagesSend.additionalAttributes :=
       Some (<["to" := "000@s.whatsapp.net"]> {["id" := "OTHER"]});
     MessagesSend.useUserDevicesCache := None;
     MessagesSend.cachedGroupMetadata := None |}.

(** Test doubles for [sendMessage]: the generated message is a text with
    key id [GEN1]; toggling the ephemeral setting always succeeds. *)
Definition sampleGenerate (x : Samples.SampleExt) (jid : string)
    (content : SendMessage.AnyMessageContent) (userJid : string)
  : option (SendMessage.WAMessage * Samples.SampleExt) :=
  Some ({| SendMessage.key :=
             {| Receipts.remoteJid := Some jid; Receipts.fromMe := true;
                Receipts.id := Some "GEN1"; Receipts.key_participant := None |};
           SendMessage.message := Some Samples.textMessage |}, x).

Definition sampleToggle (x : Samples.SampleExt) (jid : string) (v : Z)
  : option Samples.SampleExt := Some x.

(** Deleting, as an admin, a message that a member sent to the group. *)
Definition deleteOther : SendMessage.AnyMessageContent :=
  {| SendMessage.disappearingMessagesInChat := None;
     SendMessage.delete :=
       Some {| Receipts.remoteJid := Some Samples.groupJid;
               Receipts.fromMe := false; Receipts.id := Some "A1";
               Receipts.key_participant := Some "111@s.whatsapp.net" |};
     SendMessage.otherMembers := [] |}.

Definition deleteRun
  : Result (option SendMessage.Sent * MessagesSend.World Samples.SampleExt) :=
  SendMessage.sendMessage sampleGenerate sampleToggle 604800 false true
    Samples.groupJid deleteOther None (Samples.sampleWorld Samples.peerReply []).

(** The account with a push name, and the [chatstate] node it sends while
    recording for the peer. *)
Definition sampleMe : Presence.Contact :=
  {| Presence.c_id := Some Samples.meJid; Presence.c_name := Some "Me" |}.

Definition recordingNode : BinaryNode :=
  {| tag := "chatstate";
     attrs := <["from" := Samples.meJid]> {["to" := Samples.peerJid]};
     content :=
       nodes [ {| tag := "composing"; attrs := {["media" := "audio"]};
                  content := absent |} ] |}.

End MoreSamples.

(** ** Part II: theorems *)

(** *** Pre-keys *)

Module SignalFacts.
Import Signal.

Section WithCurve.
Context {Rng : Type} (generateKeyPair : Rng → KeyPair * Rng).

(** With fuel for every id up to [last], the loop has written exactly the
    ids [i .. last] on top of what [acc] held. *)
Lemma generateLoop_ids (fuel : nat) : ∀ (i last : Z) acc rng (id : Z),
  (Z.to_nat (last - i + 1) ≤ fuel)%nat →
  is_Some ((generateLoop generateKeyPair fuel i last acc rng).1 !! id)
  ↔ is_Some (acc !! id) ∨ i ≤ id ≤ last.
Proof.
  induction fuel as [|fuel IH]; intros i last acc rng id Hfuel; simpl.
  - split; [by left|]. intros [?|?]; [done|lia].
  - case_bool_decide as Hle.
    + destruct (generateKeyPair rng) as [kp rng'].
      rewrite IH by lia. rewrite lookup_insert_is_Some.
      destruct (decide (i = id)); naive_solver lia.
    + split; [by left|]. intros [?|?]; [done|lia].
Qed.

Lemma generateOrGetPreKeys_last creds range rng :
  lastPreKeyId (generateOrGetPreKeys generateKeyPair creds range rng).1
  = firstUnuploadedPreKeyId creds + range - 1.
Proof.
  unfold generateOrGetPreKeys.
  case_bool_decide; [destruct (generateLoop _ _ _ _ _ _)|]; simpl; lia.
Qed.

Lemma generateOrGetPreKeys_new creds range rng (id : Z) :
  is_Some (newPreKeys (generateOrGetPreKeys generateKeyPair creds range rng).1 !! id)
  ↔ nextPreKeyId creds ≤ id ≤ firstUnuploadedPreKeyId creds + range - 1.
Proof.
  unfold generateOrGetPreKeys.
  case_bool_decide as Hrem.
  - pose proof (generateLoop_ids
      (Z.to_nat (nextPreKeyId creds
                 + (range - (nextPreKeyId creds - firstUnuploadedPreKeyId creds))
                 - 1 - nextPreKeyId creds + 1))
      (nextPreKeyId creds)
      (nextPreKeyId creds
       + (range - (nextPreKeyId creds - firstUnuploadedPreKeyId creds)) - 1)
      ∅ rng id) as Hloop.
    destruct (generateLoop _ _ _ _ _ _) as [m rng']. simpl in *.
    rewrite Hloop by lia. rewrite lookup_empty.
    split; [intros [[? ?]|?]; [done|lia] | intros ?; right; lia].
  - simpl. rewrite lookup_empty. split; [intros [? ?]; done | lia].
Qed.

Lemma getPreKeys_lookup (store : gmap Z KeyPair) (lo hi id : Z) :
  is_Some (getPreKeys store lo hi !! id) ↔ is_Some (store !! id) ∧ lo ≤ id < hi.
Proof.
  unfold getPreKeys. split.
  - intros [kp Hkp]. apply map_lookup_filter_Some in Hkp as [? ?]. eauto.
  - intros [[kp Hkp] ?]. exists kp. by apply map_lookup_filter_Some.
Qed.

(** C6.  For every creds record and every requested range of at least 1,
    [generateOrGetPreKeys] returns [lastPreKeyId = firstUnuploadedPreKeyId +
    range - 1] and [preKeysRange = [firstUnuploadedPreKeyId, range]]; it
    generates a pair exactly for the ids [nextPreKeyId .. lastPreKeyId] (none
    when that interval is empty), so every id of the range is either an
    unuploaded id generated before or a new one, and when the store holds
    the earlier ones [getNextPreKeys] reads back all [range] ids; after the
    server took the upload, [firstUnuploadedPreKeyId] is
    [max(firstUnuploadedPreKeyId, lastPreKeyId + 1)]. *)
Theorem generateOrGetPreKeys_dense (st : AuthenticationState) (range : Z) (rng : Rng) :
  1 ≤ range →
  let first := firstUnuploadedPreKeyId (creds st) in
  let next := nextPreKeyId (creds st) in
  let batch := (generateOrGetPreKeys generateKeyPair (creds st) range rng).1 in
  lastPreKeyId batch = first + range - 1
  ∧ preKeysRange batch = (first, range)
  ∧ (∀ id, is_Some (newPreKeys batch !! id) ↔ next ≤ id ≤ lastPreKeyId batch)
  ∧ (∀ id, first ≤ id ≤ lastPreKeyId batch →
           first ≤ id < next ∨ is_Some (newPreKeys batch !! id))
  ∧ ((∀ id, first ≤ id < next → is_Some (keys st !! id)) →
     ∀ id, first ≤ id < first + range →
           is_Some (preKeys (getNextPreKeys generateKeyPair st range rng).1 !! id))
  ∧ ∃ st' rng',
      uploadPreKeys generateKeyPair st range rng true = Some (st', rng')
      ∧ firstUnuploadedPreKeyId (creds st') = Z.max first (lastPreKeyId batch + 1).
Proof.
  intros Hrange first next batch.
  pose proof (generateOrGetPreKeys_last (creds st) range rng) as Hlast.
  pose proof (generateOrGetPreKeys_new (creds st) range rng) as Hnew.
  fold batch in Hlast, Hnew. fold first in Hlast, Hnew. fold next in Hnew.
  assert (Hrg : preKeysRange batch = (first, range)).
  { subst batch. unfold generateOrGetPreKeys.
    case_bool_decide; [destruct (generateLoop _ _ _ _ _ _)|]; done. }
  split_and!.
  - done.
  - done.
  - intros id. rewrite Hnew, Hlast. done.
  - intros id Hid. rewrite Hnew. lia.
  - intros Hstore id Hid. unfold getNextPreKeys.
    subst batch. destruct (generateOrGetPreKeys _ _ _ _) as [b rng'] eqn:Hb.
    simpl in *. rewrite getPreKeys_lookup, Hrg. simpl. split; [|lia].
    rewrite lookup_union_is_Some, Hnew.
    destruct (decide (id < next)); [right; apply Hstore; lia | left; lia].
  - unfold uploadPreKeys, getNextPreKeys. subst batch.
    destruct (generateOrGetPreKeys _ _ _ _) as [b rng'] eqn:Hb.
    simpl. eexists _, _. split; [done|]. done.
Qed.

(** C7.  The creds invariant [firstUnuploadedPreKeyId ≤ nextPreKeyId] is
    kept by the update that [getNextPreKeys] builds, for every count of at
    least 1. *)
Theorem getNextPreKeys_keeps_order (st : AuthenticationState) (count : Z) (rng : Rng) :
  firstUnuploadedPreKeyId (creds st) ≤ nextPreKeyId (creds st) →
  1 ≤ count →
  let r := (getNextPreKeys generateKeyPair st count rng).1 in
  upd_nextPreKeyId (update r)
    = Z.max (firstUnuploadedPreKeyId (creds st) + count - 1 + 1) (nextPreKeyId (creds st))
  ∧ upd_firstUnuploadedPreKeyId (update r)
    = Z.max (firstUnuploadedPreKeyId (creds st))
            (firstUnuploadedPreKeyId (creds st) + count - 1 + 1)
  ∧ upd_firstUnuploadedPreKeyId (update r) ≤ upd_nextPreKeyId (update r)
  ∧ firstUnuploadedPreKeyId (assignCreds (creds st) (update r))
    ≤ nextPreKeyId (assignCreds (creds st) (update r)).
Proof.
  intros Hinv Hcount r. subst r. unfold getNextPreKeys.
  pose proof (generateOrGetPreKeys_last (creds st) count rng) as Hlast.
  destruct (generateOrGetPreKeys _ _ _ _) as [b rng']. simpl in *.
  rewrite Hlast. lia.
Qed.

End WithCurve.

Lemma generateOrGetPreKeys_dense_witness :
  1 ≤ 10
  ∧ lastPreKeyId
      (generateOrGetPreKeys Samples.countingCurve (creds Samples.sampleAuth) 10 0%nat).1
    = 14
  ∧ is_Some (preKeys (getNextPreKeys Samples.countingCurve Samples.sampleAuth
                        10 0%nat).1 !! 14).
Proof.
  assert (H : 1 ≤ 10) by lia.
  destruct (generateOrGetPreKeys_dense Samples.countingCurve Samples.sampleAuth
              10 0%nat H) as (Hlast & _ & _ & _ & Hread & _).
  split_and!; [done | exact Hlast |].
  apply Hread; [|simpl; lia].
  intros id Hid. simpl in Hid.
  assert (id = 5 ∨ id = 6 ∨ id = 7) as [->|[->| ->]] by lia; vm_compute; eauto.
Defined.

Lemma getNextPreKeys_keeps_order_witness :
  5 ≤ 8 ∧ 1 ≤ 10
  ∧ upd_firstUnuploadedPreKeyId
      (update (getNextPreKeys Samples.countingCurve Samples.sampleAuth 10 0%nat).1)
    ≤ upd_nextPreKeyId
      (update (getNextPreKeys Samples.countingCurve Samples.sampleAuth 10 0%nat).1).
Proof.
  assert (H1 : 5 ≤ 8) by lia. assert (H2 : 1 ≤ 10) by lia.
  split_and!; [done | done |].
  apply (getNextPreKeys_keeps_order Samples.countingCurve Samples.sampleAuth
           10 0%nat H1 H2).
Defined.

End SignalFacts.

(** *** The socket: [end] and the QR rotation *)

Module SocketFacts.
Import Signal Socket.

Section WithConfig.
Context (qrTimeout : option Z) (creds : AuthenticationCreds)
        (base64 : bytes → string) (ws_close : ReadyState → ReadyState).

Lemma end_closed s error now : closed (end_ ws_close s error now) = true.
Proof. unfold end_. destruct (closed s) eqn:E; done. Qed.

Lemma end_when_closed s error now :
  closed s = true → end_ ws_close s error now = s.
Proof. intros H. unfold end_. by rewrite H. Qed.

Lemma endAll_when_closed calls : ∀ s,
  closed s = true → endAll ws_close s calls = s.
Proof.
  induction calls as [|c calls IH]; intros s H; [done|].
  simpl. rewrite end_when_closed by done. by apply IH.
Qed.

Lemma closeEvents_app (l1 l2 : list Event) :
  closeEvents (l1 ++ l2) = closeEvents l1 ++ closeEvents l2.
Proof. unfold closeEvents. apply List.filter_app. Qed.

(** C9.  On a socket on which [end] has not run, any number N ≥ 1 of calls
    of [end] emits exactly one [connection.update] with [connection: 'close'],
    carrying the error and date of the first call; every later call leaves
    the state as it is. *)
Theorem end_idempotent (s : State) (first : option Boom * Z)
    (rest : list (option Boom * Z)) :
  closed s = false →
  let closing :=
    connection_update {| connection := Some close; qr := None;
                         lastDisconnect := Some (first.1, first.2) |} in
  let s' := endAll ws_close s (first :: rest) in
  emitted s' = emitted s ++ [closing]
  ∧ closeEvents (emitted s') = closeEvents (emitted s) ++ [closing]
  ∧ s' = end_ ws_close s first.1 first.2
  ∧ ∀ earlier later call,
      rest = earlier ++ call :: later →
      end_ ws_close (endAll ws_close s (first :: earlier)) call.1 call.2
      = endAll ws_close s (first :: earlier).
Proof.
  intros Hopen closing s'.
  assert (Hs' : s' = end_ ws_close s first.1 first.2).
  { subst s'. simpl. apply endAll_when_closed, end_closed. }
  assert (Hem : emitted s' = emitted s ++ [closing]).
  { rewrite Hs'. unfold end_. by rewrite Hopen. }
  split_and!; [done | | done |].
  - rewrite Hem, closeEvents_app. done.
  - intros earlier later call _. apply end_when_closed.
    simpl. rewrite endAll_when_closed by apply end_closed. apply end_closed.
Qed.

Lemma genPairQR_next s now ref rest :
  readyState s = OPEN → refNodes s = ref :: rest →
  genPairQR qrTimeout creds base64 ws_close s now
  = {| closed := closed s; readyState := OPEN;
       keepAliveReq := keepAliveReq s; qrTimer := Some (qrMs s);
       wsListeners := wsListeners s; evListeners := evListeners s;
       emitted := emitted s ++ [qrUpdate creds base64 ref];
       refNodes := rest; qrMs := orDefault qrTimeout 20000 |}.
Proof. intros Hopen Hrefs. unfold genPairQR. rewrite Hopen, Hrefs. done. Qed.

(** While refs remain, every expiry emits the next QR and arms the timer
    with the later lifetime. *)
Lemma rotate_while_refs (dates : list Z) : ∀ s,
  readyState s = OPEN → closed s = false → is_Some (qrTimer s) →
  qrMs s = orDefault qrTimeout 20000 →
  (length dates ≤ length (refNodes s))%nat →
  let s' := rotate qrTimeout creds base64 ws_close s dates in
  emitted s' = emitted s ++ (qrUpdate creds base64 <$> take (length dates) (refNodes s))
  ∧ refNodes s' = drop (length dates) (refNodes s)
  ∧ readyState s' = OPEN ∧ closed s' = false
  ∧ qrMs s' = orDefault qrTimeout 20000
  ∧ qrTimer s' = match dates with
                 | [] => qrTimer s
                 | _ :: _ => Some (orDefault qrTimeout 20000)
                 end.
Proof.
  induction dates as [|d dates IH]; intros s Hopen Hlive [t Ht] Hms Hlen.
  - simpl. rewrite app_nil_r. by rewrite drop_0.
  - simpl in Hlen. destruct (refNodes s) as [|ref rest] eqn:Hrefs;
      [simpl in Hlen; lia|].
    unfold rotate in *. cbv zeta in *. cbn [length foldl take drop fmap list_fmap].
    assert (Hfire : fireQrTimer qrTimeout creds base64 ws_close s d
                    = genPairQR qrTimeout creds base64 ws_close s d)
      by (unfold fireQrTimer; by rewrite Ht).
    rewrite Hfire, (genPairQR_next s d ref rest) by done.
    match goal with |- context [foldl _ ?s1 dates] => set (s1' := s1) end.
    destruct (IH s1') as (He & Hr & Ho & Hc & Hm & Hq);
      [done | done | by eexists | done | simpl in *; lia |].
    rewrite He, Hr, Ho, Hc, Hm. simpl.
    rewrite <- app_assoc. split_and!; try done.
    rewrite Hq. destruct dates; simpl; [by rewrite Hms | done].
Qed.

Lemma onPairDevice_first s ref rest t0 :
  readyState s = OPEN →
  onPairDevice qrTimeout creds base64 ws_close s (ref :: rest) t0
  = {| closed := closed s; readyState := OPEN;
       keepAliveReq := keepAliveReq s;
       qrTimer := Some (orDefault qrTimeout 60000);
       wsListeners := wsListeners s; evListeners := evListeners s;
       emitted := emitted s ++ [qrUpdate creds base64 ref];
       refNodes := rest; qrMs := orDefault qrTimeout 20000 |}.
Proof. intros Hopen. unfold onPairDevice. by rewrite (genPairQR_next _ t0 ref rest). Qed.

(** C8, amended.  On the pair-device IQ with refs r1..rn, on a socket that
    is open and stays open: the QR emitted for a ref is
    [ref,base64(noiseKey.public),base64(signedIdentityKey.public),advSecretKey];
    the first QR lives [qrTimeout || 60000] ms and every later one
    [qrTimeout || 20000] ms, that is 60 s then 20 s when [qrTimeout] is unset
    and [qrTimeout] ms throughout when it is set; the expiry after the last
    ref closes the connection with status [timedOut]. *)
Theorem qr_rotation (s : State) (refs : list string) (t0 : Z) (dates : list Z) :
  readyState s = OPEN → closed s = false →
  let first := orDefault qrTimeout 60000 in
  let later := orDefault qrTimeout 20000 in
  let s' := rotate qrTimeout creds base64 ws_close
              (onPairDevice qrTimeout creds base64 ws_close s refs t0) dates in
  (qrTimeout = None → first = 60000 ∧ later = 20000)
  ∧ (∀ v, qrTimeout = Some v → v ≠ 0 → first = v ∧ later = v)
  ∧ ((length dates < length refs)%nat →
     emitted s' = emitted s ++ (qrUpdate creds base64 <$> take (S (length dates)) refs)
     ∧ qrTimer s' = Some (match dates with [] => first | _ :: _ => later end)
     ∧ closed s' = false)
  ∧ (length dates = length refs →
     emitted s'
     = emitted s ++ (qrUpdate creds base64 <$> refs)
       ++ [connection_update
             {| connection := Some close; qr := None;
                lastDisconnect :=
                  Some (Some {| message := "QR refs attempts ended";
                                statusCode := timedOut |},
                        default t0 (last dates)) |}]
     ∧ closed s' = true ∧ qrTimer s' = None).
Proof.
  intros Hopen Hlive first later s'. split_and!.
  - intros ->. done.
  - intros v -> Hv. subst first later. unfold orDefault.
    by rewrite bool_decide_eq_false_2.
  - intros Hlt. destruct refs as [|ref rest]; [simpl in Hlt; lia|].
    subst s'. rewrite onPairDevice_first by done.
    match goal with |- context [rotate _ _ _ _ ?s1 dates] => set (s1' := s1) end.
    destruct (rotate_while_refs dates s1') as (He & _ & _ & Hc & _ & Hq);
      [done | done | by eexists | done | simpl in *; lia |].
    rewrite He, Hc, Hq. subst s1'. cbn [emitted refNodes qrTimer length].
    rewrite <- app_assoc. destruct dates; done.
  - intros Hlen. destruct refs as [|ref rest].
    + destruct dates; [|done]. subst s'. simpl.
      unfold onPairDevice, genPairQR. simpl. rewrite Hopen. simpl.
      unfold end_. simpl. rewrite Hlive. simpl. done.
    + destruct (decide (dates = [])) as [->|Hne]; [done|].
      destruct (exists_last Hne) as (ds & t & ->).
      rewrite length_app in Hlen. simpl in Hlen.
      subst s'. rewrite onPairDevice_first by done.
      unfold rotate. rewrite foldl_app. simpl.
      match goal with |- context [foldl _ ?s1 ds] => set (s1' := s1) end.
      destruct (rotate_while_refs ds s1') as (He & Hr & Ho & Hc & _ & Hq);
        [done | done | by eexists | done | simpl in *; lia |].
      unfold rotate in *. cbv zeta in *.
      assert (Hds : length ds = length rest) by lia.
      assert (Hsome : is_Some (qrTimer (foldl (fireQrTimer qrTimeout creds base64 ws_close) s1' ds))).
      { rewrite Hq. destruct ds; simpl; by eexists. }
      destruct Hsome as [tm Htm].
      unfold fireQrTimer at 1 3 5. rewrite Htm.
      unfold genPairQR. rewrite Ho, Hr. simpl refNodes.
      rewrite Hds, drop_all. rewrite bool_decide_eq_false_2 by (intros X; by apply X).
      unfold end_. rewrite Hc. simpl. rewrite He. simpl.
      rewrite Hds, firstn_all, last_snoc. simpl.
      split_and!; [|done|done]. by rewrite <- !app_assoc.
Qed.

End WithConfig.

Lemma end_idempotent_witness :
  closed initial = false
  ∧ closeEvents
      (emitted (endAll Samples.sampleClose initial
                  [(Some {| message := "Connection was lost";
                            statusCode := connectionLost |}, 100);
                   (None, 101);
                   (Some {| message := "Connection Terminated";
                            statusCode := connectionClosed |}, 102)]))
    = [connection_update
         {| connection := Some close; qr := None;
            lastDisconnect :=
              Some (Some {| message := "Connection was lost";
                            statusCode := connectionLost |}, 100) |}].
Proof.
  split; [reflexivity|].
  apply (end_idempotent Samples.sampleClose initial
           (Some {| message := "Connection was lost";
                    statusCode := connectionLost |}, 100)
           [(None, 101);
            (Some {| message := "Connection Terminated";
                     statusCode := connectionClosed |}, 102)]
           eq_refl).
Defined.

Lemma qr_rotation_witness :
  readyState initial = OPEN ∧ closed initial = false
  ∧ emitted (rotate None (Samples.sampleCreds 5 8) Samples.sampleBase64
               Samples.sampleClose
               (onPairDevice None (Samples.sampleCreds 5 8) Samples.sampleBase64
                  Samples.sampleClose initial ["r1"; "r2"] 0)
               [60000; 80000])
    = [connection_update
         {| connection := None; qr := Some "r1,AQ==,Ag==,adv"; lastDisconnect := None |};
       connection_update
         {| connection := None; qr := Some "r2,AQ==,Ag==,adv"; lastDisconnect := None |};
       connection_update
         {| connection := Some close; qr := None;
            lastDisconnect :=
              Some (Some {| message := "QR refs attempts ended";
                            statusCode := timedOut |}, 80000) |}].
Proof.
  split_and!; [reflexivity | reflexivity |].
  apply (qr_rotation None (Samples.sampleCreds 5 8) Samples.sampleBase64
           Samples.sampleClose initial ["r1"; "r2"] 0 [60000; 80000]
           eq_refl eq_refl).
  reflexivity.
Defined.

(** C8 as stated fails: with [qrTimeout] set to 30 s, the second QR lives
    30 s, not 20 s. *)
Lemma qr_rotation_later_not_20s :
  emitted (rotate (Some 30000) (Samples.sampleCreds 5 8) Samples.sampleBase64
             Samples.sampleClose
             (onPairDevice (Some 30000) (Samples.sampleCreds 5 8)
                Samples.sampleBase64 Samples.sampleClose initial ["r1"; "r2"] 0)
             [30000])
  = [connection_update
       {| connection := None; qr := Some "r1,AQ==,Ag==,adv"; lastDisconnect := None |};
     connection_update
       {| connection := None; qr := Some "r2,AQ==,Ag==,adv"; lastDisconnect := None |}]
  ∧ qrTimer (rotate (Some 30000) (Samples.sampleCreds 5 8) Samples.sampleBase64
               Samples.sampleClose
               (onPairDevice (Some 30000) (Samples.sampleCreds 5 8)
                  Samples.sampleBase64 Samples.sampleClose initial ["r1"; "r2"] 0)
               [30000])
    = Some 30000
  ∧ qrTimer (rotate (Some 30000) (Samples.sampleCreds 5 8) Samples.sampleBase64
               Samples.sampleClose
               (onPairDevice (Some 30000) (Samples.sampleCreds 5 8)
                  Samples.sampleBase64 Samples.sampleClose initial ["r1"; "r2"] 0)
               [30000])
    ≠ Some 20000.
Proof. split_and!; [reflexivity | reflexivity | discriminate]. Qed.

End SocketFacts.

(** *** The sync loop *)

Module ChatsFacts.
Import Chats.

Lemma elem_of_deleteCollection (n x : string) (l : list string) :
  x ∈ deleteCollection n l ↔ x ∈ l ∧ x ≠ n.
Proof. unfold deleteCollection. rewrite list_elem_of_filter. tauto. Qed.

Lemma isIrrecoverableError_spec (attempts : option nat) (e : SyncError) :
  isIrrecoverableError attempts e = true
  ↔ (MAX_SYNC_ATTEMPTS ≤ default 0 attempts)%nat
    ∨ output_statusCode e = Some 404 ∨ name e = "TypeError".
Proof.
  unfold isIrrecoverableError, MAX_SYNC_ATTEMPTS.
  rewrite !orb_true_iff, !bool_decide_eq_true.
  destruct attempts as [a|]; simpl.
  - rewrite bool_decide_eq_true. tauto.
  - split; [intros [[?|?]|?]; [done|tauto|tauto] | intros [?|[?|?]]; [lia|tauto|tauto]].
Qed.

Section WithCodec.
Context {Snapshot Patch ChatMutation : Type}.
Context (decodeSyncdSnapshot :
           string → Snapshot → option Z → bool →
           SyncError + (LTHashState * gmap string ChatMutation)).
Context (decodePatches :
           string → list Patch → option LTHashState → option Z → bool →
           SyncError + (LTHashState * gmap string ChatMutation)).
Context (macSnapshot macPatch : bool).

#[local] Abbreviation trySync := (trySync decodeSyncdSnapshot decodePatches macSnapshot macPatch).
#[local] Abbreviation syncCollection :=
  (syncCollection decodeSyncdSnapshot decodePatches macSnapshot macPatch).
#[local] Abbreviation syncRound := (syncRound decodeSyncdSnapshot decodePatches macSnapshot macPatch).
#[local] Abbreviation syncRounds := (syncRounds decodeSyncdSnapshot decodePatches macSnapshot macPatch).

(** What the [try] block can have changed: the stored state of its own
    collection, never the counters, and the set only by dropping its own
    collection at a normal exit. *)
Lemma trySync_frame (s : Sync (ChatMutation := ChatMutation)) states n entry :
  let r := trySync s states n entry in
  attemptsMap r.1 = attemptsMap s
  ∧ (∀ n', n' ≠ n → store r.1 !! n' = store s !! n')
  ∧ (∀ n', n' ≠ n → n' ∈ collectionsToHandle r.1 ↔ n' ∈ collectionsToHandle s)
  ∧ (is_Some r.2 → collectionsToHandle r.1 = collectionsToHandle s).
Proof.
  unfold Chats.trySync.
  destruct (snapshot entry) as [snap|];
    [destruct (decodeSyncdSnapshot _ _ _ _) as [e|[st mm]]|];
    [simpl; split_and!; by intros | |];
    (destruct (patches entry) as [|p ps];
     [|destruct (decodePatches _ _ _ _ _) as [e|[st' mm']]];
     try destruct (hasMorePatches entry); simpl;
     split_and!; try done;
     try (intros n' Hn'; by rewrite ?lookup_insert_ne by done);
     try (intros n' Hn'; rewrite ?elem_of_deleteCollection; tauto);
     try (by intros [? ?])).
Qed.

Lemma onSyncError_facts (s : Sync (ChatMutation := ChatMutation)) n e :
  let s' := onSyncError s n e in
  store s' !! n = None
  ∧ attemptsMap s' !! n = Some (S (default 0%nat (attemptsMap s !! n)))
  ∧ (n ∈ collectionsToHandle s'
     ↔ n ∈ collectionsToHandle s ∧ isIrrecoverableError (attemptsMap s !! n) e = false)
  ∧ (∀ n', n' ≠ n →
       (n' ∈ collectionsToHandle s' ↔ n' ∈ collectionsToHandle s)
       ∧ store s' !! n' = store s !! n'
       ∧ attemptsMap s' !! n' = attemptsMap s !! n').
Proof.
  unfold onSyncError.
  destruct (isIrrecoverableError _ e); simpl;
    rewrite lookup_delete_eq, lookup_insert_eq, Nat.add_1_r;
    split_and!; try done.
  - rewrite elem_of_deleteCollection. intuition congruence.
  - intros n' Hn'. rewrite elem_of_deleteCollection.
    rewrite lookup_delete_ne, lookup_insert_ne by done. tauto.
  - tauto.
  - intros n' Hn'. by rewrite lookup_delete_ne, lookup_insert_ne by done.
Qed.

Lemma syncCollection_other (s : Sync (ChatMutation := ChatMutation)) states n n' entry :
  n' ≠ n →
  let s' := syncCollection states s (n', entry) in
  attemptsMap s' !! n = attemptsMap s !! n
  ∧ (n ∈ collectionsToHandle s' ↔ n ∈ collectionsToHandle s).
Proof.
  intros Hne. unfold Chats.syncCollection. simpl.
  pose proof (trySync_frame s states n' entry) as (Ha & _ & Hc & _).
  destruct (trySync s states n' entry) as [s1 [e|]]; simpl in *.
  - destruct (onSyncError_facts s1 n' e) as (_ & _ & _ & Ho).
    destruct (Ho n) as (Hc' & _ & Ha'); [done|].
    rewrite Ha', Ha, Hc', Hc by done. done.
  - rewrite Ha, Hc by done. done.
Qed.

Lemma syncCollections_other (decoded : list (string * SyncEntry)) : ∀ s states n,
  n ∉ decoded.*1 →
  let s' := foldl (syncCollection states) s decoded in
  attemptsMap s' !! n = attemptsMap s !! n
  ∧ (n ∈ collectionsToHandle s' ↔ n ∈ collectionsToHandle s).
Proof.
  induction decoded as [|[n' entry] decoded IH]; intros s states n Hn; [done|].
  simpl in *. apply not_elem_of_cons in Hn as [Hne Hn].
  destruct (IH (syncCollection states s (n', entry)) states n Hn) as [Ha Hc].
  destruct (syncCollection_other s states n n' entry) as [Ha' Hc']; [done|].
  rewrite Ha, Hc, Ha', Hc'. done.
Qed.

Lemma prepare_frame (l : list string) : ∀ (s : Sync (ChatMutation := ChatMutation)) states ns,
  let r := foldl prepareCollection (s, states, ns) l in
  attemptsMap r.1.1 = attemptsMap s
  ∧ collectionsToHandle r.1.1 = collectionsToHandle s
  ∧ store r.1.1 = store s.
Proof.
  induction l as [|n l IH]; intros s states ns; [done|].
  cbv zeta. cbn [foldl].
  destruct (prepareCollection (s, states, ns) n) as [[s1 st1] ns1] eqn:Hstep.
  destruct (IH s1 st1 ns1) as (H1 & H2 & H3). cbv zeta in *.
  rewrite H1, H2, H3. unfold prepareCollection in Hstep.
  destruct (store s !! n) as [st|]; [destruct (initialVersionMap s !! n)|];
    by simplify_eq.
Qed.

Section Tampered.
Context (n : string) (e : SyncError).

#[local] Abbreviation failingRound := (failingRound decodePatches macPatch n e).

Lemma syncCollection_failing (s : Sync (ChatMutation := ChatMutation)) states entry :
  snapshot entry = None → patches entry ≠ [] →
  (∀ st iv, decodePatches n (patches entry) st iv macPatch = inl e) →
  syncCollection states s (n, entry) = onSyncError s n e.
Proof.
  intros Hsnap Hps Hthrows. unfold Chats.syncCollection, Chats.trySync. simpl.
  rewrite Hsnap. destruct (patches entry) as [|p ps] eqn:Hp; [done|].
  by rewrite Hthrows.
Qed.

Lemma syncRound_failing (s : Sync (ChatMutation := ChatMutation)) decoded :
  failingRound decoded →
  let s' := syncRound s decoded in
  attemptsMap s' !! n = Some (S (default 0%nat (attemptsMap s !! n)))
  ∧ (n ∈ collectionsToHandle s'
     ↔ n ∈ collectionsToHandle s ∧ isIrrecoverableError (attemptsMap s !! n) e = false).
Proof.
  intros (before & entry & after & -> & Hb & Ha & Hsnap & Hps & Hthrows).
  unfold Chats.syncRound.
  pose proof (prepare_frame (collectionsToHandle s) s ∅ []) as (Hpa & Hpc & _).
  destruct (foldl prepareCollection _ _) as [[s1 states] nodes]. simpl in *.
  rewrite foldl_app. simpl.
  match goal with |- context [foldl _ ?s2 before] => set (s2' := s2) end.
  destruct (syncCollections_other before s2' states n Hb) as [Hba Hbc].
  rewrite syncCollection_failing by done.
  match goal with |- context [onSyncError ?s3 n e] => set (s3' := s3) in * end.
  destruct (syncCollections_other after (onSyncError s3' n e) states n Ha) as [Haa Hac].
  destruct (onSyncError_facts s3' n e) as (_ & Hoa & Hoc & _).
  rewrite Haa, Hac, Hoa, Hoc, Hba, Hbc. subst s2'. simpl. rewrite Hpa, Hpc. done.
Qed.

Lemma syncRounds_failing (answers : list (list (string * SyncEntry))) :
  ∀ s : Sync (ChatMutation := ChatMutation),
  output_statusCode e ≠ Some 404 → name e ≠ "TypeError" →
  Forall failingRound answers →
  let r := syncRounds s answers in
  let a := default 0%nat (attemptsMap s !! n) in
  default 0%nat (attemptsMap r !! n) = (a + length answers)%nat
  ∧ (n ∈ collectionsToHandle r
     ↔ n ∈ collectionsToHandle s
       ∧ (answers = [] ∨ (a + length answers ≤ MAX_SYNC_ATTEMPTS)%nat)).
Proof.
  induction answers as [|decoded answers IH]; intros s H404 Hty Hall.
  - simpl. split; [lia|]. tauto.
  - apply Forall_cons in Hall as [Hd Hall].
    unfold Chats.syncRounds. simpl.
    destruct (syncRound_failing s decoded Hd) as [Ha Hc].
    destruct (IH (syncRound s decoded) H404 Hty Hall) as [IHa IHc].
    unfold Chats.syncRounds in *. cbv zeta in *.
    rewrite IHa, IHc, Ha, Hc. simpl.
    assert (Hirr : isIrrecoverableError (attemptsMap s !! n) e = false
                   ↔ (default 0 (attemptsMap s !! n) < MAX_SYNC_ATTEMPTS)%nat).
    { rewrite <- not_true_iff_false, isIrrecoverableError_spec.
      split; [intros H; apply Nat.nlt_ge; intros ?; apply H; left; lia
             | intros H [?|[?|?]]; [lia | done | done]]. }
    rewrite Hirr. unfold MAX_SYNC_ATTEMPTS in *.
    split; [lia|].
    split.
    + intros [[? ?] [->|?]]; (split; [done|right; simpl in *; lia]).
    + intros [? [?|?]]; [done|]. split; [split; [done|lia]|].
      destruct answers; [by left | right; simpl in *; lia].
Qed.

End Tampered.

(** C2, amended.  When the [try] block for collection [n] throws [e]: the
    stored [app-state-sync-version] entry of [n] is erased and its attempt
    counter goes up by one; [n] stays to be handled (and is asked again on
    the next round) unless the error is irrecoverable, that is unless the
    counter was already at [MAX_SYNC_ATTEMPTS = 2] or more, or the status is
    404, or it is a type error; the other collections keep their place,
    stored state and counter.  So when the patches of [n] are rejected on
    every round with an error that is neither a 404 nor a type error, [n] is
    retried twice: it is still to be handled after the first and the second
    failure and is abandoned at the third. *)
Theorem resync_failure_handling (s s1 : Sync (ChatMutation := ChatMutation))
    states n entry e :
  trySync s states n entry = (s1, Some e) →
  let s' := syncCollection states s (n, entry) in
  let attempts := default 0%nat (attemptsMap s !! n) in
  store s' !! n = None
  ∧ attemptsMap s' !! n = Some (S attempts)
  ∧ (isIrrecoverableError (attemptsMap s !! n) e = true
     ↔ (MAX_SYNC_ATTEMPTS ≤ attempts)%nat
       ∨ output_statusCode e = Some 404 ∨ name e = "TypeError")
  ∧ (n ∈ collectionsToHandle s'
     ↔ n ∈ collectionsToHandle s
       ∧ isIrrecoverableError (attemptsMap s !! n) e = false)
  ∧ (∀ n', n' ≠ n →
       (n' ∈ collectionsToHandle s' ↔ n' ∈ collectionsToHandle s)
       ∧ store s' !! n' = store s !! n'
       ∧ attemptsMap s' !! n' = attemptsMap s !! n')
  ∧ (∀ stored collections answers,
       output_statusCode e ≠ Some 404 → name e ≠ "TypeError" →
       n ∈ collections →
       Forall (failingRound decodePatches macPatch n e) answers →
       let r := syncRounds (startSync stored collections) answers in
       default 0%nat (attemptsMap r !! n) = length answers
       ∧ (n ∈ collectionsToHandle r ↔ (length answers ≤ 2)%nat)).
Proof.
  intros Htry s' attempts.
  pose proof (trySync_frame s states n entry) as (Ha & Hs & Hc & Hc').
  assert (Hs' : s' = onSyncError s1 n e).
  { subst s'. unfold Chats.syncCollection. simpl. by rewrite Htry. }
  rewrite Htry in Ha, Hs, Hc, Hc'. simpl in *.
  specialize (Hc' (ltac:(by eexists))).
  destruct (onSyncError_facts s1 n e) as (Hst & Hat & Hin & Hoth).
  rewrite <- Hs' in Hst, Hat, Hin, Hoth. rewrite Ha, Hc' in *.
  split_and!; try done.
  - apply isIrrecoverableError_spec.
  - intros n' Hn'. destruct (Hoth n' Hn') as (H1 & H2 & H3).
    rewrite H1, H2, H3, Hs by done. done.
  - intros stored collections answers H404 Hty Hn Hall.
    set (r := syncRounds (startSync stored collections) answers).
    destruct (syncRounds_failing n e answers (startSync stored collections)
                H404 Hty Hall) as [Hcount Hmem].
    fold r in Hcount, Hmem. simpl in Hcount, Hmem.
    rewrite lookup_empty in Hcount, Hmem. simpl in *.
    split; [done|]. rewrite Hmem, elem_of_remove_dups.
    unfold MAX_SYNC_ATTEMPTS.
    split; [intros [_ [->|?]]; simpl; lia | intros ?; split; [done|right; done]].
Qed.

End WithCodec.

Lemma resync_failure_handling_witness :
  trySync Samples.sampleDecodeSnapshot Samples.sampleDecodePatches true true
    (startSync ∅ ["regular"; "critical_block"]) ∅ "regular" (Samples.onePatch false)
  = (startSync ∅ ["regular"; "critical_block"], Some Samples.macMismatch)
  ∧ attemptsMap
      (syncCollection Samples.sampleDecodeSnapshot Samples.sampleDecodePatches
         true true ∅ (startSync ∅ ["regular"; "critical_block"])
         ("regular", Samples.onePatch false)) !! "regular"
    = Some 1%nat
  ∧ Forall (failingRound Samples.sampleDecodePatches true "regular" Samples.macMismatch)
      Samples.tamperedAnswers
  ∧ ("regular"
     ∈ collectionsToHandle
         (syncRounds Samples.sampleDecodeSnapshot Samples.sampleDecodePatches
            true true (startSync ∅ ["regular"; "critical_block"])
            Samples.tamperedAnswers)
     ↔ (length Samples.tamperedAnswers ≤ 2)%nat).
Proof.
  assert (Hrounds : Forall (failingRound Samples.sampleDecodePatches true "regular"
                              Samples.macMismatch) Samples.tamperedAnswers).
  { repeat constructor.
    - exists [], (Samples.onePatch false), [("critical_block", Samples.onePatch true)].
      split_and!; [done | set_solver | set_solver | done | done | done].
    - exists [], (Samples.onePatch false), [].
      split_and!; [done | set_solver | set_solver | done | done | done].
    - exists [], (Samples.onePatch false), [].
      split_and!; [done | set_solver | set_solver | done | done | done]. }
  destruct (resync_failure_handling Samples.sampleDecodeSnapshot
              Samples.sampleDecodePatches true true
              (startSync ∅ ["regular"; "critical_block"])
              (startSync ∅ ["regular"; "critical_block"])
              ∅ "regular" (Samples.onePatch false) Samples.macMismatch eq_refl)
    as (_ & Hattempts & _ & _ & _ & Hloop).
  split_and!; [reflexivity | exact Hattempts | exact Hrounds |].
  apply Hloop; [discriminate | discriminate | set_solver | exact Hrounds].
Defined.

(** C2 as stated fails: in scenario S6 the collection whose patch MAC is
    tampered is still to be handled after its second failure (its counter
    then reads 2); only the third failure abandons it and ends the loop. *)
Lemma second_failure_does_not_abandon :
  collectionsToHandle
    (syncRounds Samples.sampleDecodeSnapshot Samples.sampleDecodePatches true true
       (startSync ∅ ["regular"; "critical_block"]) (take 2 Samples.tamperedAnswers))
  = ["regular"]
  ∧ attemptsMap
      (syncRounds Samples.sampleDecodeSnapshot Samples.sampleDecodePatches true true
         (startSync ∅ ["regular"; "critical_block"]) (take 2 Samples.tamperedAnswers))
    !! "regular" = Some 2%nat
  ∧ resyncAppState Samples.sampleDecodeSnapshot Samples.sampleDecodePatches true true
      ∅ ["regular"; "critical_block"] (take 2 Samples.tamperedAnswers) = None
  ∧ (collectionsToHandle
       <$> resyncAppState Samples.sampleDecodeSnapshot Samples.sampleDecodePatches
             true true ∅ ["regular"; "critical_block"] Samples.tamperedAnswers)
    = Some []
  ∧ ((λ r, attemptsMap r !! "regular")
       <$> resyncAppState Samples.sampleDecodeSnapshot Samples.sampleDecodePatches
             true true ∅ ["regular"; "critical_block"] Samples.tamperedAnswers)
    = Some (Some 3%nat).
Proof. split_and!; vm_compute; reflexivity. Qed.

End ChatsFacts.

(** *** The send path *)

Module DeviceFacts.
Import WABinary Signal.

Section WithHost.
Context {Ext : Type} `{!Host Ext}.

Lemma collect_omap {A B C} (f : A → Result (list C)) (g : A → Result (list B))
    (h : B → option C) (l : list A) :
  (∀ x ys, f x = Ok ys → ∃ zs, g x = Ok zs ∧ ys = omap h zs) →
  ∀ ys, collect f l = Ok ys → ∃ zs, collect g l = Ok zs ∧ ys = omap h zs.
Proof.
  intros Hfg. induction l as [|x l IH]; intros ys Hys; simpl in *.
  - simplify_eq. by exists [].
  - destruct (f x) as [xs|] eqn:Hx; [|done].
    destruct (collect f l) as [ys'|] eqn:Hl; [|done]. simplify_eq.
    destruct (Hfg _ _ Hx) as (zs & -> & ->).
    destruct (IH _ eq_refl) as (zs' & -> & ->).
    eexists. split; [done|]. by rewrite omap_app.
Qed.

Lemma extractFromDeviceList_keep myUser myDevice excludeZeroDevices u l :
  extractFromDeviceList myUser myDevice excludeZeroDevices u l
  = omap (keepDevice myUser myDevice excludeZeroDevices) ((λ n, (u, n)) <$> l).
Proof.
  unfold extractFromDeviceList. induction l as [|n l IH]; [done|].
  cbn [omap list_omap fmap list_fmap]. unfold keepDevice at 1. cbn [fst snd].
  destruct (acceptDevice _ _ _ _ _); by rewrite <- IH.
Qed.

(** [extractDeviceJids] keeps, in order, the reported entries that pass
    [acceptDevice]. *)
Lemma extractDeviceJids_reported result myJid excludeZeroDevices extracted :
  extractDeviceJids result myJid excludeZeroDevices = Ok extracted →
  ∃ sender reported,
    jidDecode myJid = Some sender
    ∧ reportedDevices result = Ok reported
    ∧ extracted
      = omap (keepDevice (fj_user sender) (fj_device sender) excludeZeroDevices)
             reported.
Proof.
  unfold extractDeviceJids, reportedDevices.
  destruct (jidDecode myJid) as [sender|]; [|done].
  intros Hrun. exists sender.
  destruct (content result) as [| |l]; [done | simplify_eq; by exists [] |].
  eapply collect_omap in Hrun as (zs & Hzs & ->); [by exists zs|].
  clear. intros node ys. unfold extractFromNode, reportedInNode.
  destruct (content <$> getBinaryNodeChild (Some node) "list") as [[| |l]|];
    try (intros; simplify_eq; by exists []).
  apply collect_omap. clear. intros item ys.
  unfold extractFromItem, reportedInItem.
  destruct (attrs item !! "jid" ≫= jidDecode) as [d|]; [|done]. simpl.
  destruct (content <$> getBinaryNodeChild _ "device-list") as [[| |l]|];
    try (intros; simplify_eq; by exists []).
  intros [= <-]. eexists. split; [done|]. apply extractFromDeviceList_keep.
Qed.

(** With device 0 excluded, an entry is kept when it is a [device] with an
    id other than 0 and a key index, and is not the sending device. *)
Lemma keepDevice_spec myUser myDevice (u : string) (n : BinaryNode) :
  is_Some (keepDevice myUser myDevice true (u, n))
  ↔ tag n = "device"
    ∧ toNumber (attrs n !! "id") ≠ Some 0
    ∧ (myUser ≠ u ∨ strictNe myDevice (toNumber (attrs n !! "id")) = true)
    ∧ truthyAttr (attrs n !! "key-index") = true.
Proof.
  unfold keepDevice, acceptDevice. cbn [fst snd negb orb].
  match goal with |- is_Some (if ?b then _ else _) ↔ _ =>
    assert (is_Some (if b then Some {| user := u;
                                       device := toNumber (attrs n !! "id") |}
                     else None) ↔ b = true) as ->
      by (destruct b; split; (done || by intros [? ?] || by eexists)) end.
  rewrite !andb_true_iff, !orb_true_iff, !bool_decide_eq_true. tauto.
Qed.

End WithHost.
End DeviceFacts.

Module MessagesSendFacts.
Import WABinary MessagesSend.

Lemma hasKind_app k l1 l2 : hasKind k (l1 ++ l2) = hasKind k l1 || hasKind k l2.
Proof. apply existsb_app. Qed.

Lemma hasKind_cons k e l :
  hasKind k (e :: l) = bool_decide (kindOf e = k) || hasKind k l.
Proof. done. Qed.

Lemma hasKind_true k l : hasKind k l = true ↔ ∃ e, e ∈ l ∧ kindOf e = k.
Proof.
  unfold hasKind. rewrite existsb_exists. split.
  - intros (e & Hin & He). exists e. split; [by apply list_elem_of_In|].
    by apply bool_decide_eq_true in He.
  - intros (e & Hin & He). exists e. split; [by apply list_elem_of_In|].
    by apply bool_decide_eq_true.
Qed.

Lemma hasKind_usync l users : hasKind KUSync l = false → usync_query users ∉ l.
Proof.
  intros Hno Hin. apply not_true_iff_false in Hno. apply Hno, hasKind_true.
  by exists (usync_query users).
Qed.

Lemma hasKind_memory_read l ids :
  hasKind KMemoryRead l = false → keys_get "sender-key-memory" ids ∉ l.
Proof.
  intros Hno Hin. apply not_true_iff_false in Hno. apply Hno, hasKind_true.
  by exists (keys_get "sender-key-memory" ids).
Qed.

Lemma hasKind_pkmsg l : hasKind KPkmsg l = true ↔ ∃ jid, encrypted jid pkmsg ∈ l.
Proof.
  rewrite hasKind_true. split.
  - intros (e & Hin & He). destruct e as [t| | | | | |j ty| ]; simpl in He;
      try discriminate; [by case_bool_decide|].
    destruct ty; [|done]. by exists j.
  - intros [j Hin]. by exists (encrypted j pkmsg).
Qed.

Section WithHost.
Context {Ext : Type} `{!Host Ext}.

Lemma extends_refl (w : World Ext) : extends w w [].
Proof. done. Qed.

Lemma extends_trans (w1 w2 w3 : World Ext) new1 new2 :
  extends w1 w2 new1 → extends w2 w3 new2 → extends w1 w3 (new2 ++ new1).
Proof.
  intros (? & ? & Hl1) (? & ? & Hl2). unfold extends.
  rewrite <- app_assoc, <- Hl1. split_and!; congruence.
Qed.

Lemma bind_Ok {A B} (m : M Ext A) (k : A → M Ext B) w r :
  bind m k w = Ok r → ∃ a w1, m w = Ok (a, w1) ∧ k a w1 = Ok r.
Proof.
  unfold bind. destruct (m w) as [[a w1]|e]; [|done]. intros. by exists a, w1.
Qed.

Lemma withExt_Ok {A} e (f : Ext → option (A * Ext)) w a w' :
  withExt e f w = Ok (a, w') →
  (∃ x, f (ext w) = Some (a, x) ∧ ext w' = x)
  ∧ userDevicesCache w' = userDevicesCache w ∧ extends w w' [].
Proof.
  unfold withExt. destruct (f (ext w)) as [[a' x]|]; [|done].
  intros [= <- <-]. split; [by exists x|done].
Qed.

Lemma emit_Ok ev (w : World Ext) (u : unit) w' :
  emit ev w = Ok (u, w') →
  userDevicesCache w' = userDevicesCache w ∧ ext w' = ext w ∧ extends w w' [ev].
Proof. intros [= <- <-]. done. Qed.

Lemma get_Ok {A} (f : World Ext → A) w a w' :
  get f w = Ok (a, w') → a = f w ∧ w' = w.
Proof. by intros [= <- <-]. Qed.

Lemma ret_Ok {A} (a : A) (w : World Ext) b w' :
  ret a w = Ok (b, w') → b = a ∧ w' = w.
Proof. by intros [= <- <-]. Qed.

Lemma nonNull_Ok {A} (x : option A) (w : World Ext) a w' :
  nonNull x w = Ok (a, w') → x = Some a ∧ w' = w.
Proof. destruct x; [|done]. by intros [= <- <-]. Qed.

Lemma liftResult_Ok {A} (r : Result A) (w : World Ext) a w' :
  liftResult r w = Ok (a, w') → r = Ok a ∧ w' = w.
Proof. destruct r; [|done]. by intros [= <- <-]. Qed.

End WithHost.

(** Take a successful run apart, one bind at a time. *)
Ltac inv_step :=
  match goal with
  | H : bind _ _ _ = Ok _ |- _ =>
      let a := fresh "a" in let w := fresh "w" in let Hm := fresh "Hm" in
      apply bind_Ok in H as (a & w & Hm & H)
  | H : ret _ _ = Ok (_, _) |- _ => apply ret_Ok in H as [? ?]; subst
  | H : get _ _ = Ok (_, _) |- _ => apply get_Ok in H as [? ?]; subst
  | H : nonNull _ _ = Ok (_, _) |- _ => apply nonNull_Ok in H as [? ?]; subst
  | H : liftResult _ _ = Ok (_, _) |- _ => apply liftResult_Ok in H as [? ?]; subst
  | H : emit _ _ = Ok (_, _) |- _ => apply emit_Ok in H as (? & ? & ?)
  | H : withExt _ _ _ = Ok (_, _) |- _ =>
      apply withExt_Ok in H as ((? & ? & ?) & ? & ?)
  | H : throw _ _ = Ok _ |- _ => discriminate H
  | H : Throw _ = Ok _ |- _ => discriminate H
  end.

Ltac split_pairs :=
  repeat match goal with p : (_ * _)%type |- _ => destruct p end.

(** Join the [extends] facts of consecutive steps into one. *)
Ltac compose :=
  repeat match goal with
         | H1 : extends ?a ?b ?n1, H2 : extends ?b ?c ?n2 |- _ =>
             pose proof (extends_trans a b c n1 n2 H1 H2); clear H1 H2
         end.

(** Close a goal about the account, the memory or the trace from the
    [extends] facts of the steps. *)
Ltac chain :=
  unfold extends in *; destruct_and?; simpl in *;
  repeat match goal with
         | H : log ?w = _ |- context [log ?w] => rewrite H
         end;
  rewrite <- ?app_assoc; simpl; try done; try congruence.

(** Evaluate [hasKind] on a trace put together from known pieces. *)
Ltac kinds :=
  repeat (rewrite hasKind_app || rewrite hasKind_cons);
  repeat match goal with
         | H : hasKind _ _ = _ |- _ => rewrite H
         end;
  simpl; rewrite ?orb_false_r, ?orb_true_r; simpl; try done.

Section WithHost.
Context {Ext : Type} `{!Host Ext}.

(** The per-recipient loop: one [to] node per jid, in order, each carrying
    its jid; the flag of a node tells a [pkmsg], which is also in the trace. *)
Lemma forEach_encryptFor data extraAttrs (jids : list string) :
  ∀ (w : World Ext) rs w',
  forEach (encryptFor data extraAttrs) jids w = Ok (rs, w') →
  (λ n, attrs n !! "jid") <$> rs.*1 = Some <$> jids
  ∧ Forall (λ n, tag n = "to") rs.*1
  ∧ userDevicesCache w' = userDevicesCache w
  ∧ ∃ new, extends w w' new
      ∧ hasKind KUSync new = false
      ∧ hasKind KMemoryRead new = false
      ∧ hasKind KPkmsg new = existsb id rs.*2.
Proof.
  induction jids as [|jid jids IH]; intros w rs w' Hrun; simpl in Hrun.
  - inv_step. split_and!; try done. by exists [].
  - repeat inv_step.
    match goal with Hx : encryptFor _ _ _ _ = _ |- _ => unfold encryptFor in Hx end.
    repeat inv_step. split_pairs. repeat inv_step. simplify_eq/=.
    match goal with Hrest : forEach _ _ _ = Ok _ |- _ =>
      destruct (IH _ _ _ Hrest) as (Hj & Ht & Hc3 & new & He3 & Hu & Hr & Hp) end.
    rewrite lookup_singleton_eq. simpl. rewrite Hj.
    split_and!; [done | by constructor | congruence |].
    compose. eexists. split; [done|].
    match goal with |- context [bool_decide (?ty = pkmsg)] => destruct ty end;
      split_and!; kinds.
Qed.

Lemma createParticipantNodes_Ok jids message extraAttrs (w : World Ext) ns flag w' :
  createParticipantNodes jids message extraAttrs w = Ok ((ns, flag), w') →
  (λ n, attrs n !! "jid") <$> ns = Some <$> jids
  ∧ Forall (λ n, tag n = "to") ns
  ∧ userDevicesCache w' = userDevicesCache w
  ∧ ∃ new, extends w w' new
      ∧ hasKind KUSync new = false
      ∧ hasKind KMemoryRead new = false
      ∧ hasKind KPkmsg new = flag.
Proof.
  unfold createParticipantNodes. intros Hrun. repeat inv_step.
  match goal with Hx : forEach _ _ _ = Ok _ |- _ =>
    apply forEach_encryptFor in Hx as (Hj & Ht & Hc & new & He & Hk & Hp) end.
  simplify_eq. eauto 10.
Qed.

Lemma assertSessions_Ok jids force (w : World Ext) b w' :
  assertSessions jids force w = Ok (b, w') →
  userDevicesCache w' = userDevicesCache w
  ∧ ∃ new, extends w w' new
      ∧ hasKind KUSync new = false
      ∧ hasKind KMemoryRead new = false
      ∧ hasKind KPkmsg new = false.
Proof.
  unfold assertSessions. intros Hrun. inv_step.
  assert (userDevicesCache w0 = userDevicesCache w
          ∧ ∃ new, extends w w0 new ∧ hasKind KUSync new = false
              ∧ hasKind KMemoryRead new = false ∧ hasKind KPkmsg new = false)
    as (Hc & new & He & Hu & Hr & Hp).
  { destruct force; repeat inv_step.
    - split; [done|]. by exists [].
    - split; [done|]. eexists [_]. split; [done|]. done. }
  destruct a as [|j js]; repeat inv_step.
  - eauto 10.
  - split; [congruence|]. compose. eexists. split; [done|]. split_and!; kinds.
Qed.

(** [getUSyncDevices] returns the cached lists of the users found in the
    cache, then what [extractDeviceJids] keeps of the answer to the one
    query it sends. *)
Lemma getUSyncDevices_Ok jids useCache ignoreZeroDevices (w : World Ext) ds w' :
  getUSyncDevices jids useCache ignoreZeroDevices w = Ok (ds, w') →
  ∃ cached users result meId extracted,
    foldl (lookupCached useCache (userDevicesCache w)) (Ok ([], []))
          (remove_dups jids) = Ok (cached, users)
    ∧ fst <$> usyncQuery (ext w) users = Some result
    ∧ me w = Some meId
    ∧ Signal.extractDeviceJids result meId ignoreZeroDevices = Ok extracted
    ∧ ds = cached ++ extracted
    ∧ extends w w' [usync_query users].
Proof.
  unfold getUSyncDevices. intros Hrun. repeat inv_step. split_pairs.
  repeat inv_step.
  match goal with Hx : setUserDevicesCache _ _ = Ok _ |- _ =>
    injection Hx as _ <- end.
  match goal with Hq : usyncQuery (ext ?w0) _ = Some _, Hx : ext ?w0 = ext w |- _ =>
    rewrite Hx in Hq end.
  eexists _, _, _, _, _. split_and!; try done.
  - match goal with Hq : usyncQuery _ _ = Some _ |- _ => by rewrite Hq end.
  - chain.
  - split_and!; chain.
Qed.

(** The loop over [devices] when the send is not a retry: a jid is pushed
    once, when it is not yet marked, and is marked from then on. *)
Lemma senderKeyLoop_plain (devices : list JidWithDevice) :
  ∀ acc : list string * gmap string bool,
  let r := foldl (senderKeyStep false) acc devices in
  (∀ j, marked r.2 j = true ↔ marked acc.2 j = true ∨ j ∈ deviceJid <$> devices)
  ∧ (∀ j, j ∈ r.1 ↔ j ∈ acc.1 ∨ (j ∈ deviceJid <$> devices ∧ marked acc.2 j = false))
  ∧ (NoDup acc.1 → (∀ j, j ∈ acc.1 → marked acc.2 j = true) → NoDup r.1).
Proof.
  induction devices as [|d devices IH]; intros acc.
  - simpl. split_and!; [set_solver | set_solver | done].
  - cbn [foldl fmap list_fmap]. cbv zeta.
    destruct (IH (senderKeyStep false acc d)) as (IHm & IHj & IHn).
    assert (Hmark : ∀ (m : gmap string bool) j,
               marked (<[deviceJid d := true]> m) j = true
               ↔ j = deviceJid d ∨ marked m j = true).
    { intros m j. unfold marked. rewrite !bool_decide_eq_true.
      destruct (decide (j = deviceJid d)) as [->|Hne].
      - rewrite lookup_insert_eq. tauto.
      - rewrite lookup_insert_ne by done. tauto. }
    assert (Hstep : senderKeyStep false acc d
                    = if marked acc.2 (deviceJid d) then acc
                      else (acc.1 ++ [deviceJid d], <[deviceJid d := true]> acc.2)).
    { unfold senderKeyStep. rewrite orb_false_r. by destruct (marked _ _). }
    rewrite Hstep in *. clear Hstep.
    destruct (marked acc.2 (deviceJid d)) eqn:Hd; simpl in IHm, IHj, IHn.
    + split_and!.
      * intros j. rewrite IHm, elem_of_cons.
        split; [tauto|]. intros [?|[->|?]]; tauto.
      * intros j. rewrite IHj, elem_of_cons.
        split; [tauto|]. intros [?|[[->|?] ?]]; [tauto|congruence|tauto].
      * done.
    + split_and!.
      * intros j. rewrite IHm, Hmark, elem_of_cons. tauto.
      * intros j. rewrite IHj, elem_of_app, list_elem_of_singleton, elem_of_cons.
        assert (marked (<[deviceJid d := true]> acc.2) j = false
                ↔ j ≠ deviceJid d ∧ marked acc.2 j = false) as ->.
        { rewrite <- !not_true_iff_false, Hmark. tauto. }
        destruct (decide (j = deviceJid d)) as [->|?]; tauto.
      * intros Hnd Hall. apply IHn.
        -- apply NoDup_app. split_and!; [done | | apply NoDup_singleton].
           intros j Hj Hj'. apply list_elem_of_singleton in Hj' as ->.
           apply Hall in Hj. congruence.
        -- intros j Hj. apply Hmark. apply elem_of_app in Hj as [Hj|Hj].
           ++ right. by apply Hall.
           ++ left. by apply list_elem_of_singleton in Hj.
Qed.

(** On a retry every device is pushed and marked. *)
Lemma senderKeyLoop_retry (devices : list JidWithDevice) :
  ∀ acc : list string * gmap string bool,
  foldl (senderKeyStep true) acc devices
  = (acc.1 ++ (deviceJid <$> devices),
     foldl (λ m d, <[deviceJid d := true]> m) acc.2 devices).
Proof.
  induction devices as [|d devices IH]; intros [js m].
  - simpl. by rewrite app_nil_r.
  - cbn [foldl]. rewrite IH. unfold senderKeyStep. rewrite orb_true_r. simpl.
    by rewrite <- app_assoc.
Qed.

(** Reading the group metadata: from the caller's cache or by a query. *)
Lemma groupData_Ok (opts : MessageRelayOptions) jid (w : World Ext) groupData w0 :
  match cachedGroupMetadata opts ≫= (λ f, f jid) with
  | Some groupData => ret groupData
  | None =>
      bind (emit (group_metadata_query jid))
           (λ _, withExt Rejected (λ x, groupMetadata x jid))
  end w = Ok (groupData, w0) →
  userDevicesCache w0 = userDevicesCache w
  ∧ ∃ new, extends w w0 new
      ∧ hasKind KUSync new = false
      ∧ hasKind KMemoryRead new = false
      ∧ hasKind KPkmsg new = false.
Proof.
  destruct (cachedGroupMetadata opts ≫= _); intros Hrun; repeat inv_step.
  - split; [done|]. by exists [].
  - split; [congruence|]. compose. eexists. split; [done|]. split_and!; kinds.
Qed.

(** Distributing the sender key to [senderKeyJids]. *)
Lemma distribute_Ok senderKeyJids senderKeyMsg extra (w : World Ext) ps flag w' :
  match senderKeyJids with
  | [] => ret ([], false)
  | _ :: _ =>
      bind (assertSessions senderKeyJids false)
           (λ _, createParticipantNodes senderKeyJids senderKeyMsg extra)
  end w = Ok ((ps, flag), w') →
  (λ n, attrs n !! "jid") <$> ps = Some <$> senderKeyJids
  ∧ Forall (λ n, tag n = "to") ps
  ∧ ∃ new, extends w w' new
      ∧ hasKind KUSync new = false
      ∧ hasKind KMemoryRead new = false
      ∧ hasKind KPkmsg new = flag.
Proof.
  destruct senderKeyJids as [|j js]; intros Hrun; repeat inv_step.
  - simplify_eq. split_and!; try done. by exists [].
  - match goal with Hx : assertSessions _ _ _ = Ok _ |- _ =>
      apply assertSessions_Ok in Hx as (_ & newa & Hea & Hua & Hra & Hpa) end.
    match goal with Hx : createParticipantNodes _ _ _ _ = Ok _ |- _ =>
      apply createParticipantNodes_Ok in Hx
        as (Hj & Ht & _ & newc & Hec & Huc & Hrc & Hpc) end.
    split_and!; try done. compose. eexists. split; [done|]. split_and!; kinds.
Qed.

Lemma relayGroup_plain_Ok jid destinationJid meId message opts devices
    (w : World Ext) ps content flag w' :
  participant opts = None →
  relayGroup jid destinationJid meId message opts devices w
  = Ok ((ps, content, flag), w') →
  ∃ groupData wa additional wb new,
    getUSyncDevices groupData
      (negb (bool_decide (useUserDevicesCache opts = Some false))) false wa
    = Ok (additional, wb)
    ∧ me wa = me w ∧ userDevicesCache wa = userDevicesCache w
    ∧ (λ n, attrs n !! "jid") <$> ps
      = Some <$> (senderKeyLoop false (devices ++ additional)
                    (default ∅ (senderKeyMemory w !! jid))).1
    ∧ Forall (λ n, tag n = "to") ps
    ∧ Forall (λ n, tag n = "enc") content
    ∧ me w' = me w
    ∧ senderKeyMemory w'
      = <[jid := (senderKeyLoop false (devices ++ additional)
                    (default ∅ (senderKeyMemory w !! jid))).2]> (senderKeyMemory w)
    ∧ log w' = new ++ log w
    ∧ hasKind KPkmsg new = flag.
Proof.
  intros Hp. unfold relayGroup. rewrite Hp.
  rewrite (bool_decide_eq_false_2 (is_Some None)) by (by intros [? ?]).
  intros Hrun. inv_step.
  match goal with Hx : _ = Ok (_, _) |- _ =>
    apply groupData_Ok in Hx as (Hc0 & new0 & He0 & Hu0 & Hr0 & Hp0) end.
  repeat inv_step. split_pairs.
  match goal with Hx : getUSyncDevices _ _ _ ?wa = Ok (?add, ?wb) |- _ =>
    pose proof Hx as Hus; apply getUSyncDevices_Ok in Hx
      as (cached & users & result & me' & extracted & _ & _ & _ & _ & _ & Heu);
    exists a, wa, add, wb end.
  match goal with Hx : context [senderKeyMemory ?wm !! jid] |- _ =>
    replace (senderKeyMemory wm) with (senderKeyMemory w) in Hx
      by (symmetry; chain) end.
  destruct (senderKeyLoop false _ _) as [senderKeyJids senderKeyMap'] eqn:Hloop.
  repeat inv_step. split_pairs. repeat inv_step.
  match goal with Hx : _ = Ok (_, _, _) |- _ =>
    apply distribute_Ok in Hx as (Hj & Ht & newd & Hed & Hud & Hrd & Hpd) end.
  match goal with Hx : setSenderKeyMemory _ _ _ = Ok _ |- _ =>
    injection Hx as _ <- end.
  simplify_eq/=.
  match type of Hus with getUSyncDevices _ _ _ ?wa = _ =>
    assert (me wa = me w ∧ userDevicesCache wa = userDevicesCache w)
      as [? ?] by (split; chain) end.
  compose.
  match goal with Hx : extends w _ ?n |- _ =>
    exists (keys_set "sender-key-memory" jid :: n) end.
  split_and!; [exact Hus | done | done | done | done
    | repeat constructor | chain | f_equal; chain | simpl; f_equal; chain | kinds ].
Qed.

Lemma relayGroup_retry_Ok jid destinationJid meId message opts devices p
    (w : World Ext) ps content flag w' :
  participant opts = Some p →
  relayGroup jid destinationJid meId message opts devices w
  = Ok ((ps, content, flag), w') →
  ∃ new,
    (λ n, attrs n !! "jid") <$> ps = Some <$> (deviceJid <$> devices)
    ∧ Forall (λ n, tag n = "to") ps
    ∧ Forall (λ n, tag n = "enc") content
    ∧ me w' = me w
    ∧ senderKeyMemory w'
      = <[jid := foldl (λ m d, <[deviceJid d := true]> m) ∅ devices]>
          (senderKeyMemory w)
    ∧ log w' = new ++ log w
    ∧ hasKind KUSync new = false
    ∧ hasKind KMemoryRead new = false
    ∧ hasKind KPkmsg new = flag.
Proof.
  intros Hp. unfold relayGroup. rewrite Hp.
  rewrite (bool_decide_eq_true_2 (is_Some (Some p))) by eauto.
  cbv zeta. unfold senderKeyLoop.
  intros Hrun. inv_step.
  match goal with Hx : _ = Ok (_, _) |- _ =>
    apply groupData_Ok in Hx as (Hc0 & new0 & He0 & Hu0 & Hr0 & Hp0) end.
  repeat inv_step. split_pairs.
  rewrite senderKeyLoop_retry in Hrun. simpl in Hrun.
  repeat inv_step. split_pairs. repeat inv_step.
  match goal with Hx : _ = Ok (_, _, _) |- _ =>
    apply distribute_Ok in Hx as (Hj & Ht & newd & Hed & Hud & Hrd & Hpd) end.
  match goal with Hx : setSenderKeyMemory _ _ _ = Ok _ |- _ =>
    injection Hx as _ <- end.
  simplify_eq/=. compose.
  match goal with Hx : extends w _ ?n |- _ =>
    exists (keys_set "sender-key-memory" jid :: n) end.
  split_and!; [done | done | repeat constructor | chain | f_equal; chain
    | simpl; f_equal; chain | kinds | kinds | kinds ].
Qed.

(** The devices of a 1-1 send: the retry target alone, or the primary
    devices of the peer and of the account followed by what
    [getUSyncDevices] returns. *)
Lemma directDevices_Ok (opts : MessageRelayOptions) devices meId jid peer meUser
    (w : World Ext) devices' w1 :
  match participant opts with
  | Some _ => ret devices
  | None =>
      bind (getUSyncDevices [meId; jid]
              (negb (bool_decide (useUserDevicesCache opts = Some false))) true)
           (λ additionalDevices,
              ret ((devices ++ [{| user := peer; device := None |};
                                {| user := meUser; device := None |}])
                   ++ additionalDevices))
  end w = Ok (devices', w1) →
  ∃ new,
    match participant opts with
    | Some _ => devices' = devices ∧ hasKind KUSync new = false
    | None =>
        ∃ additional,
          getUSyncDevices [meId; jid]
            (negb (bool_decide (useUserDevicesCache opts = Some false))) true w
          = Ok (additional, w1)
          ∧ devices' = devices ++ [{| user := peer; device := None |};
                                   {| user := meUser; device := None |}]
                       ++ additional
    end
    ∧ extends w w1 new
    ∧ hasKind KMemoryRead new = false
    ∧ hasKind KPkmsg new = false.
Proof.
  destruct (participant opts); intros Hrun; repeat inv_step.
  - by exists [].
  - match goal with Hx : getUSyncDevices _ _ _ _ = Ok _ |- _ =>
      pose proof Hx as Hus; apply getUSyncDevices_Ok in Hx
        as (cached & users & result & me' & extracted & _ & _ & _ & _ & _ & Heu) end.
    eexists. split; [eexists; split; [exact Hus|]; by rewrite <- app_assoc|].
    split_and!; [exact Heu | done | done].
Qed.

(** The two batches of the 1-1 branch hold the jids of [devices], those of
    the account's own user first.  The trace falls in two parts: finding
    the devices ([found]), then sessions and encryption ([rest]). *)
Lemma relayDirect_Ok jid destinationJid meId peer message opts devices
    (w : World Ext) ps content flag w' :
  relayDirect jid destinationJid meId peer message opts devices w
  = Ok ((ps, content, flag), w') →
  ∃ meDecoded devices' wd found rest,
    jidDecode meId = Some meDecoded
    ∧ match participant opts with
      | Some _ => devices' = devices ∧ hasKind KUSync found = false
      | None =>
          ∃ additional,
            getUSyncDevices [meId; jid]
              (negb (bool_decide (useUserDevicesCache opts = Some false))) true w
            = Ok (additional, wd)
            ∧ devices' = devices ++ [{| user := peer; device := None |};
                                     {| user := fj_user meDecoded; device := None |}]
                         ++ additional
      end
    ∧ (λ n, attrs n !! "jid") <$> ps
      = Some <$> ((deviceJid <$> filter (λ d, user d = fj_user meDecoded) devices')
                  ++ (deviceJid <$> filter (λ d, user d ≠ fj_user meDecoded) devices'))
    ∧ Forall (λ n, tag n = "to") ps
    ∧ content = []
    ∧ extends w wd found ∧ extends wd w' rest
    ∧ hasKind KMemoryRead found = false ∧ hasKind KPkmsg found = false
    ∧ hasKind KUSync rest = false
    ∧ hasKind KMemoryRead rest = false
    ∧ hasKind KPkmsg rest = flag.
Proof.
  unfold relayDirect. intros Hrun. repeat inv_step.
  match goal with Hx : match participant opts with _ => _ end _ = Ok _ |- _ =>
    apply directDevices_Ok in Hx as (new0 & Hdev & He0 & Hr0 & Hp0) end.
  split_pairs. repeat inv_step. split_pairs. repeat inv_step.
  match goal with Hx : assertSessions _ _ _ = Ok _ |- _ =>
    apply assertSessions_Ok in Hx as (_ & newa & Hea & Hua & Hra & Hpa) end.
  repeat match goal with Hx : createParticipantNodes _ _ _ _ = Ok _ |- _ =>
    let new := fresh "newc" in
    apply createParticipantNodes_Ok in Hx as (? & ? & _ & new & ? & ? & ? & ?) end.
  simplify_eq/=. revert He0. compose. intros He0.
  match type of He0 with extends _ ?wd _ =>
    match goal with
      Hx : extends wd _ ?n, Hd : jidDecode meId = Some ?d |- _ =>
        exists d; eexists; exists wd, new0, n end end.
  split_and!; [done | exact Hdev | | by apply Forall_app | done | done | done
    | done | done | kinds | kinds | ].
  - rewrite !fmap_app. congruence.
  - kinds. by rewrite orb_comm.
Qed.

Lemma orGenerateMessageID_Ok msgId (w : World Ext) i w0 :
  orGenerateMessageID msgId w = Ok (i, w0) →
  userDevicesCache w0 = userDevicesCache w ∧ extends w w0 [].
Proof.
  unfold orGenerateMessageID.
  destruct msgId as [m|]; [case_bool_decide|]; intros Hrun; repeat inv_step; done.
Qed.

Lemma retryTarget_Ok isGroup (opts : MessageRelayOptions) (w : World Ext)
    additional devices w1 :
  retryTarget isGroup opts w = Ok ((additional, devices), w1) →
  w1 = w
  ∧ match participant opts with
    | Some p =>
        ∃ d, jidDecode (participant_jid p) = Some d
             ∧ devices = [{| user := fj_user d; device := fj_device d |}]
             ∧ additional
               = (if isGroup then additionalAttributes opts
                  else Some (<["device_fanout" := "false"]>
                               (default ∅ (additionalAttributes opts))))
    | None => devices = [] ∧ additional = additionalAttributes opts
    end.
Proof.
  unfold retryTarget. destruct (participant opts) as [p|]; intros Hrun;
    repeat inv_step; simplify_eq; eauto.
Qed.

(** Taking a successful [relayMessage] apart: the branch that ran, and the
    stanza that was assembled from its results and sent last. *)
Lemma relayMessage_Ok jid message opts (w : World Ext) msgId w' :
  relayMessage jid message opts w = Ok (msgId, w') →
  ∃ meId decoded additional devices w1 ps binaryNodeContent flag w2 content,
    me w = Some meId
    ∧ jidDecode jid = Some decoded
    ∧ orGenerateMessageID (messageId opts) w = Ok (msgId, w1)
    ∧ retryTarget (bool_decide (fj_server decoded = "g.us")) opts w1
      = Ok ((additional, devices), w1)
    ∧ extends w w1 [] ∧ userDevicesCache w1 = userDevicesCache w
    ∧ (if bool_decide (fj_server decoded = "g.us")
       then relayGroup jid (jidEncode (fj_user decoded) "g.us" None) meId
              message opts devices w1
       else relayDirect jid (jidEncode (fj_user decoded) "s.whatsapp.net" None)
              meId (fj_user decoded) message opts devices w1)
      = Ok ((ps, binaryNodeContent, flag), w2)
    ∧ pushBiz message
        (pushDeviceIdentity flag (pushParticipants ps binaryNodeContent))
      = Ok content
    ∧ log w'
      = node_sent
          {| tag := "message";
             attrs := stanzaAttrs msgId
                        (jidEncode (fj_user decoded)
                           (if bool_decide (fj_server decoded = "g.us")
                            then "g.us" else "s.whatsapp.net") None)
                        meId additional (participant opts);
             content := nodes content |} :: log w2
    ∧ me w' = me w2
    ∧ senderKeyMemory w' = senderKeyMemory w2.
Proof.
  unfold relayMessage. intros Hrun. repeat inv_step. split_pairs.
  match goal with Hx : orGenerateMessageID _ _ = Ok _ |- _ =>
    pose proof Hx as Hid; apply orGenerateMessageID_Ok in Hx as (Hc0 & He0) end.
  match goal with Hx : retryTarget _ _ _ = Ok _ |- _ =>
    pose proof Hx as Hrt; apply retryTarget_Ok in Hx as (-> & _) end.
  repeat inv_step. split_pairs. repeat inv_step.
  eexists _, _, _, _, _, _, _, _, _, _.
  split_and!; [done | done | exact Hid | exact Hrt | done | done | | done | | |].
  - case_bool_decide; eassumption.
  - case_bool_decide; chain.
  - chain.
  - chain.
Qed.

Lemma filter_not_enc (t : string) (l : list BinaryNode) :
  t ≠ "enc" → Forall (λ n, tag n = "enc") l → filter (λ n, tag n = t) l = [].
Proof.
  intros Ht. induction 1 as [|n l Hn _ IH]; [done|].
  rewrite filter_cons_False by congruence. done.
Qed.

(** The per-device nodes of the assembled stanza are the [participants]
    the branch returned, and a [device-identity] child is there exactly
    when the flag is set. *)
Lemma assembled_stanza message flag ps binaryNodeContent content a :
  Forall (λ n, tag n = "enc") binaryNodeContent →
  Forall (λ n, tag n = "to") ps →
  pushBiz message (pushDeviceIdentity flag (pushParticipants ps binaryNodeContent))
  = Ok content →
  recipientNodes {| tag := "message"; attrs := a; content := nodes content |} = ps
  ∧ hasChild "device-identity"
      {| tag := "message"; attrs := a; content := nodes content |} = flag
  ∧ (hasChild "participants"
       {| tag := "message"; attrs := a; content := nodes content |} = true
     ↔ ps ≠ []).
Proof.
  intros Henc Hto Hpush.
  assert (Hnp : ¬ Exists (λ n, tag n = "participants") binaryNodeContent).
  { rewrite Exists_exists. intros (n & Hin & Hn).
    eapply Forall_forall in Henc; [|done]. congruence. }
  assert (Hnd : ¬ Exists (λ n, tag n = "device-identity") binaryNodeContent).
  { rewrite Exists_exists. intros (n & Hin & Hn).
    eapply Forall_forall in Henc; [|done]. congruence. }
  unfold pushBiz in Hpush.
  unfold recipientNodes, hasChild, childrenOf. simpl.
  destruct ps as [|p ps]; destruct flag;
    destruct (getButtonType message);
    try destruct (getButtonArgs message); simplify_eq/=;
    rewrite ?filter_app, ?(filter_not_enc "participants") by done;
    repeat (rewrite filter_cons_True by done
            || rewrite filter_cons_False by done);
    rewrite ?filter_nil; simpl; rewrite ?app_nil_r;
    (split_and!;
     [ done
     | first [ apply bool_decide_eq_true_2 | apply bool_decide_eq_false_2 ]
     | rewrite bool_decide_eq_true ]);
    rewrite ?Exists_app, ?Exists_cons, ?Exists_nil; simpl;
    intuition (done || congruence).
Qed.

Lemma fmap_Some_omap {A B} (f : A → option B) (l : list A) (js : list B) :
  f <$> l = Some <$> js → omap f l = js ∧ length l = length js.
Proof.
  revert js. induction l as [|x l IH]; intros [|j js] Heq; simplify_eq/=; [done|].
  destruct (IH js) as [-> ->]; [done|]. by rewrite H.
Qed.

(** What either branch of the transaction gives back. *)
Lemma branch_Ok (isGroup : bool) jid destG destD meId peer message opts devices
    (w1 : World Ext) ps binaryNodeContent flag w2 :
  (if isGroup then relayGroup jid destG meId message opts devices w1
   else relayDirect jid destD meId peer message opts devices w1)
  = Ok ((ps, binaryNodeContent, flag), w2) →
  Forall (λ n, tag n = "enc") binaryNodeContent
  ∧ Forall (λ n, tag n = "to") ps
  ∧ ∃ new, log w2 = new ++ log w1 ∧ hasKind KPkmsg new = flag.
Proof.
  destruct isGroup; intros Hrun.
  - destruct (participant opts) as [p|] eqn:Hp.
    + eapply relayGroup_retry_Ok in Hrun as (new & ? & ? & ? & ? & ? & ? & ? & ? & ?);
        [|done]. eauto 10.
    + eapply relayGroup_plain_Ok in Hrun
        as (? & ? & ? & ? & new & ? & ? & ? & ? & ? & ? & ? & ? & ? & ?); [|done].
      eauto 10.
  - apply relayDirect_Ok in Hrun
      as (? & ? & wd & found & rest & ? & ? & ? & ? & -> & Hf & Hr & ? & ? & ? & ? & ?).
    split_and!; [constructor | done |].
    exists (rest ++ found). split; [chain | kinds].
Qed.

(** C5.  For every [relayMessage] call that assembles and sends a stanza,
    the stanza has a [device-identity] child if and only if some
    per-device encryption of the call returned a ciphertext of type
    [pkmsg]; when every recipient yields [msg], there is none. *)
Theorem device_identity_iff_pkmsg jid message opts (w : World Ext) msgId w' :
  relayMessage jid message opts w = Ok (msgId, w') →
  ∃ stanza new,
    log w' = node_sent stanza :: new ++ log w
    ∧ (hasChild "device-identity" stanza = true ↔ ∃ j, encrypted j pkmsg ∈ new)
    ∧ ((∀ j type, encrypted j type ∈ new → type = msg) →
       hasChild "device-identity" stanza = false).
Proof.
  intros Hrun.
  apply relayMessage_Ok in Hrun
    as (meId & decoded & additional & devices & w1 & ps & bnc & flag & w2 & content
        & Hme & Hdec & Hid & Hrt & He1 & Hc1 & Hbranch & Hpush & Hlog & _ & _).
  apply branch_Ok in Hbranch as (Henc & Hto & new & Hl2 & Hpk).
  eapply assembled_stanza in Hpush as (_ & Hdi & _); [|done|done].
  eexists _, new. split_and!.
  - rewrite Hlog, Hl2. f_equal. f_equal. chain.
  - rewrite Hdi, <- Hpk. apply hasKind_pkmsg.
  - intros Hall. rewrite Hdi, <- Hpk. apply not_true_iff_false.
    rewrite hasKind_pkmsg. intros [j Hj]. by apply Hall in Hj.
Qed.

Lemma stanzaAttrs_device_fanout msgId destinationJid meId (aa : gmap string string) p :
  aa !! "device_fanout" = Some "false" →
  stanzaAttrs msgId destinationJid meId (Some aa) (Some p) !! "device_fanout"
  = Some "false".
Proof.
  intros Haa. unfold stanzaAttrs.
  destruct (isJidGroup destinationJid); [|destruct (areJidsSameUser _ _)];
    rewrite ?lookup_insert_ne by done; by apply lookup_union_Some_l.
Qed.

(** C3.  A relay to a jid that is not a group with [opts.participant = p]:
    the stanza sent carries [device_fanout = "false"], its per-device nodes
    are exactly one [to] node, for the device that [p] decodes to, and no
    USync query is made. *)
Theorem retry_isolation jid message opts p decoded (w : World Ext) msgId w' :
  jidDecode jid = Some decoded → fj_server decoded ≠ "g.us" →
  participant opts = Some p →
  relayMessage jid message opts w = Ok (msgId, w') →
  ∃ stanza new d,
    jidDecode (participant_jid p) = Some d
    ∧ log w' = node_sent stanza :: new ++ log w
    ∧ attrs stanza !! "device_fanout" = Some "false"
    ∧ recipientJids stanza = [jidEncode (fj_user d) "s.whatsapp.net" (fj_device d)]
    ∧ length (recipientNodes stanza) = 1%nat
    ∧ Forall (λ n, tag n = "to") (recipientNodes stanza)
    ∧ ∀ users, usync_query users ∉ new.
Proof.
  intros Hdec Hng Hp Hrun.
  apply relayMessage_Ok in Hrun
    as (meId & decoded' & additional & devices & w1 & ps & bnc & flag & w2 & content
        & Hme & Hdec' & Hid & Hrt & He1 & Hc1 & Hbranch & Hpush & Hlog & _ & _).
  assert (decoded' = decoded) as -> by congruence.
  rewrite bool_decide_eq_false_2 in Hrt, Hbranch, Hlog by done.
  apply retryTarget_Ok in Hrt as (_ & Hrt). rewrite Hp in Hrt.
  destruct Hrt as (d & Hd & -> & ->).
  apply relayDirect_Ok in Hbranch
    as (meDecoded & devices' & wd & found & rest & HmeD & Hdev & Hj & Hto & ->
        & Hef & Her & _ & _ & Hur & _ & _).
  rewrite Hp in Hdev. destruct Hdev as [-> Hus].
  pose proof (extends_trans _ _ _ _ _ Hef Her) as He2.
  set (new := rest ++ found) in *.
  assert (hasKind KUSync new = false) by (subst new; kinds).
  eapply assembled_stanza in Hpush as (Hrn & _ & _); [|constructor|done].
  assert (Hjids : (λ n, attrs n !! "jid") <$> ps
                  = Some <$> [jidEncode (fj_user d) "s.whatsapp.net" (fj_device d)]).
  { rewrite Hj. f_equal. rewrite !filter_cons, !filter_nil. simpl.
    destruct (decide (fj_user d = fj_user meDecoded)) as [Heq|Hne].
    - rewrite decide_False by (intros X; by apply X). done.
    - rewrite decide_True by done. done. }
  apply fmap_Some_omap in Hjids as [Hjids Hlen].
  eexists _, new, d. split_and!; [done | | | | | | ].
  - rewrite Hlog. f_equal. chain.
  - simpl. rewrite Hp. apply stanzaAttrs_device_fanout. apply lookup_insert_eq.
  - unfold recipientJids. by rewrite Hrn.
  - by rewrite Hrn.
  - by rewrite Hrn.
  - intros users. by apply hasKind_usync.
Qed.

(** C10.  A relay to a group jid with [opts.participant = p]: the stored
    sender-key memory of the group is not read, the per-device nodes are
    for the device of [p] alone, and the map written back for the group
    marks that device and nothing else; the memory of other groups is kept. *)
Theorem group_retry_resets_memory jid message opts p decoded
    (w : World Ext) msgId w' :
  jidDecode jid = Some decoded → fj_server decoded = "g.us" →
  participant opts = Some p →
  relayMessage jid message opts w = Ok (msgId, w') →
  ∃ stanza new d,
    jidDecode (participant_jid p) = Some d
    ∧ log w' = node_sent stanza :: new ++ log w
    ∧ (∀ ids, keys_get "sender-key-memory" ids ∉ new)
    ∧ recipientJids stanza = [jidEncode (fj_user d) "s.whatsapp.net" (fj_device d)]
    ∧ senderKeyMemory w' !! jid
      = Some {[jidEncode (fj_user d) "s.whatsapp.net" (fj_device d) := true]}
    ∧ (∀ j, j ≠ jidEncode (fj_user d) "s.whatsapp.net" (fj_device d) →
            senderKeyMemory w' !! jid ≫= (λ m, m !! j) = None)
    ∧ (∀ g, g ≠ jid → senderKeyMemory w' !! g = senderKeyMemory w !! g).
Proof.
  intros Hdec Hg Hp Hrun.
  apply relayMessage_Ok in Hrun
    as (meId & decoded' & additional & devices & w1 & ps & bnc & flag & w2 & content
        & Hme & Hdec' & Hid & Hrt & He1 & Hc1 & Hbranch & Hpush & Hlog & _ & Hmem).
  assert (decoded' = decoded) as -> by congruence.
  rewrite bool_decide_eq_true_2 in Hrt, Hbranch, Hlog by done.
  apply retryTarget_Ok in Hrt as (_ & Hrt). rewrite Hp in Hrt.
  destruct Hrt as (d & Hd & -> & ->).
  eapply relayGroup_retry_Ok in Hbranch
    as (new & Hj & Hto & Henc & _ & Hm2 & Hl2 & _ & Hread & _); [|done].
  eapply assembled_stanza in Hpush as (Hrn & _ & _); [|done|done].
  apply fmap_Some_omap in Hj as [Hj _]. simpl in Hm2, Hj.
  assert (Hw' : senderKeyMemory w'
                = <[jid := {[jidEncode (fj_user d) "s.whatsapp.net" (fj_device d)
                             := true]}]> (senderKeyMemory w)).
  { rewrite Hmem, Hm2. rewrite insert_empty. f_equal. chain. }
  eexists _, new, d. split_and!; [done | | | | | | ].
  - rewrite Hlog, Hl2. f_equal. f_equal. chain.
  - intros ids. by apply hasKind_memory_read.
  - unfold recipientJids. by rewrite Hrn.
  - rewrite Hw'. apply lookup_insert_eq.
  - intros j Hne. rewrite Hw', lookup_insert_eq. simpl.
    by apply lookup_singleton_ne.
  - intros g Hne. rewrite Hw'. by apply lookup_insert_ne.
Qed.

(** One group send that is not a retry: the per-device nodes are those of
    the sender-key loop run on the discovered devices and the stored map,
    and the map the loop leaves is written back. *)
Lemma relay_group_plain jid message opts decoded (w : World Ext) msgId w' :
  jidDecode jid = Some decoded → fj_server decoded = "g.us" →
  participant opts = None →
  relayMessage jid message opts w = Ok (msgId, w') →
  ∃ stanza new devices,
    discovers opts w devices
    ∧ log w' = node_sent stanza :: new ++ log w
    ∧ recipientJids stanza
      = (senderKeyLoop false devices (default ∅ (senderKeyMemory w !! jid))).1
    ∧ length (recipientNodes stanza) = length (recipientJids stanza)
    ∧ (hasChild "participants" stanza = true ↔ recipientNodes stanza ≠ [])
    ∧ senderKeyMemory w'
      = <[jid := (senderKeyLoop false devices
                    (default ∅ (senderKeyMemory w !! jid))).2]> (senderKeyMemory w).
Proof.
  intros Hdec Hg Hp Hrun.
  apply relayMessage_Ok in Hrun
    as (meId & decoded' & additional & devices & w1 & ps & bnc & flag & w2 & content
        & Hme & Hdec' & Hid & Hrt & He1 & Hc1 & Hbranch & Hpush & Hlog & _ & Hmem).
  assert (decoded' = decoded) as -> by congruence.
  rewrite bool_decide_eq_true_2 in Hrt, Hbranch, Hlog by done.
  apply retryTarget_Ok in Hrt as (_ & Hrt). rewrite Hp in Hrt.
  destruct Hrt as (-> & ->).
  eapply relayGroup_plain_Ok in Hbranch
    as (groupData & wa & found & wb & new & Hus & Hmea & Hca & Hj & Hto & Henc
        & _ & Hm2 & Hl2 & _); [|done].
  eapply assembled_stanza in Hpush as (Hrn & _ & Hpart); [|done|done].
  simpl in Hj, Hm2.
  replace (senderKeyMemory w1) with (senderKeyMemory w) in Hj, Hm2 by (symmetry; chain).
  apply fmap_Some_omap in Hj as [Hj Hlen].
  eexists _, new, found. split_and!.
  - exists groupData, wa, wb. split_and!; [chain | congruence | done].
  - rewrite Hlog, Hl2. f_equal. f_equal. chain.
  - unfold recipientJids. by rewrite Hrn.
  - unfold recipientJids. by rewrite Hrn, Hj.
  - by rewrite Hrn.
  - by rewrite Hmem.
Qed.

(** C1.  Two sends to the same group, neither with a participant, the second
    from any later state in which the memory of the group is what the first
    send left.  What the memory holds for the group after the first send
    marks every device the first send found.  The second send then produces
    a distribution node for exactly the devices it finds that are not
    marked, each once; none at all (and no [participants] child) when every
    device it finds is marked; and the memory afterwards marks what was
    marked before together with the devices of the second send. *)
Theorem sender_key_economy jid decoded m1 o1 m2 o2 (w0 : World Ext) id1 w1 w1' id2 w2 :
  jidDecode jid = Some decoded → fj_server decoded = "g.us" →
  participant o1 = None → participant o2 = None →
  relayMessage jid m1 o1 w0 = Ok (id1, w1) →
  senderKeyMemory w1' !! jid = senderKeyMemory w1 !! jid →
  relayMessage jid m2 o2 w1' = Ok (id2, w2) →
  ∃ devices1 D stanza2 new2 devices2 D2,
    discovers o1 w0 devices1
    ∧ senderKeyMemory w1 !! jid = Some D
    ∧ (∀ j, j ∈ deviceJid <$> devices1 → marked D j = true)
    ∧ discovers o2 w1' devices2
    ∧ log w2 = node_sent stanza2 :: new2 ++ log w1'
    ∧ NoDup (recipientJids stanza2)
    ∧ length (recipientNodes stanza2) = length (recipientJids stanza2)
    ∧ (∀ j, j ∈ recipientJids stanza2
            ↔ j ∈ deviceJid <$> devices2 ∧ marked D j = false)
    ∧ ((∀ j, j ∈ deviceJid <$> devices2 → marked D j = true) →
       recipientNodes stanza2 = [] ∧ hasChild "participants" stanza2 = false)
    ∧ senderKeyMemory w2 !! jid = Some D2
    ∧ (∀ j, marked D2 j = true ↔ marked D j = true ∨ j ∈ deviceJid <$> devices2).
Proof.
  intros Hdec Hg Hp1 Hp2 Hrun1 Hsame Hrun2.
  eapply relay_group_plain in Hrun1
    as (stanza1 & new1 & devices1 & Hd1 & _ & _ & _ & _ & Hm1); [|done..].
  eapply relay_group_plain in Hrun2
    as (stanza2 & new2 & devices2 & Hd2 & Hl2 & Hj2 & Hlen2 & Hpart2 & Hm2); [|done..].
  rewrite Hsame, Hm1, lookup_insert_eq in Hj2, Hm2. simpl in Hj2, Hm2.
  destruct (senderKeyLoop_plain devices1 ([], default ∅ (senderKeyMemory w0 !! jid)))
    as (Hmark1 & _ & _).
  set (D := (senderKeyLoop false devices1 (default ∅ (senderKeyMemory w0 !! jid))).2)
    in *.
  destruct (senderKeyLoop_plain devices2 ([], D)) as (Hmark2 & Hin2 & Hnd2).
  fold (senderKeyLoop false devices2 D) in Hmark2, Hin2, Hnd2.
  simpl in Hmark1, Hmark2, Hin2, Hnd2.
  exists devices1, D, stanza2, new2, devices2, (senderKeyLoop false devices2 D).2.
  split_and!; try done.
  - rewrite Hm1. apply lookup_insert_eq.
  - intros j Hj. apply Hmark1. by right.
  - rewrite Hj2. apply Hnd2; [constructor|]. intros j Hj. by apply elem_of_nil in Hj.
  - intros j. rewrite Hj2, Hin2. split; [intros [Hj|?]; [by apply elem_of_nil in Hj|done]
                                        | by right].
  - intros Hall.
    assert (Hnil : recipientJids stanza2 = []).
    { destruct (recipientJids stanza2) as [|j js] eqn:Hjs; [done|]. exfalso.
      assert (Hj : j ∈ (senderKeyLoop false devices2 D).1)
        by (rewrite <- Hj2; apply elem_of_cons; by left).
      apply Hin2 in Hj as [Hj|[Hj Hun]]; [by apply elem_of_nil in Hj|].
      apply Hall in Hj. congruence. }
    rewrite Hnil in Hlen2. apply length_zero_iff_nil in Hlen2.
    split; [done|]. apply not_true_iff_false. rewrite Hpart2. by intros ?.
  - rewrite Hm2. apply lookup_insert_eq.
Qed.

(** C4, amended.  A 1-1 relay without a participant: the per-device [to]
    nodes are, up to order, one for the primary device of the peer, one for
    the primary device of the account, one for every device the cache
    holds for the two users (when the cache is in use), and one for every
    entry of the USync result that [extractDeviceJids] keeps: tag [device],
    an id other than 0, a key index, and not the sending device.  The USync
    result is the answer to the query for the users the cache misses, asked
    right after the message id is settled. *)
Theorem direct_fanout jid decoded message opts (w : World Ext) msgId w' :
  jidDecode jid = Some decoded → fj_server decoded ≠ "g.us" →
  participant opts = None →
  relayMessage jid message opts w = Ok (msgId, w') →
  ∃ stanza new meId sender cached users w1 result reported,
    me w = Some meId ∧ jidDecode meId = Some sender
    ∧ foldl (lookupCached
               (negb (bool_decide (useUserDevicesCache opts = Some false)))
               (userDevicesCache w))
            (Ok ([], [])) (remove_dups [meId; jid]) = Ok (cached, users)
    ∧ orGenerateMessageID (messageId opts) w = Ok (msgId, w1)
    ∧ fst <$> usyncQuery (ext w1) users = Some result
    ∧ Signal.reportedDevices result = Ok reported
    ∧ log w' = node_sent stanza :: new ++ log w
    ∧ usync_query users ∈ new
    ∧ recipientJids stanza
      ≡ₚ deviceJid
           <$> ({| user := fj_user decoded; device := None |}
                :: {| user := fj_user sender; device := None |}
                :: cached
                ++ omap (Signal.keepDevice (fj_user sender) (fj_device sender) true)
                        reported)
    ∧ length (recipientNodes stanza) = length (recipientJids stanza)
    ∧ ∀ u n,
        is_Some (Signal.keepDevice (fj_user sender) (fj_device sender) true (u, n))
        ↔ tag n = "device"
          ∧ toNumber (attrs n !! "id") ≠ Some 0
          ∧ (fj_user sender ≠ u
             ∨ Signal.strictNe (fj_device sender) (toNumber (attrs n !! "id")) = true)
          ∧ Signal.truthyAttr (attrs n !! "key-index") = true.
Proof.
  intros Hdec Hng Hp Hrun.
  apply relayMessage_Ok in Hrun
    as (meId & decoded' & additional & devices & w1 & ps & bnc & flag & w2 & content
        & Hme & Hdec' & Hid & Hrt & He1 & Hc1 & Hbranch & Hpush & Hlog & _ & _).
  assert (decoded' = decoded) as -> by congruence.
  rewrite bool_decide_eq_false_2 in Hrt, Hbranch, Hlog by done.
  apply retryTarget_Ok in Hrt as (_ & Hrt). rewrite Hp in Hrt.
  destruct Hrt as (-> & ->).
  apply relayDirect_Ok in Hbranch
    as (sender & devices' & wd & newf & rest & HmeD & Hdev & Hj & Hto & ->
        & _ & Her & _).
  rewrite Hp in Hdev. destruct Hdev as (found & Hus & ->).
  apply getUSyncDevices_Ok in Hus
    as (cached & users & result & meId' & extracted & Hcache & Hq & Hme' & Hex
        & -> & Heu).
  assert (meId' = meId) as -> by (destruct He1 as (Hm1 & _); congruence).
  apply DeviceFacts.extractDeviceJids_reported in Hex
    as (sender' & reported & Hs' & Hrep & ->).
  assert (sender' = sender) as -> by congruence.
  eapply assembled_stanza in Hpush as (Hrn & _ & _); [|constructor|done].
  apply fmap_Some_omap in Hj as [Hj Hlen].
  pose proof (extends_trans _ _ _ _ _ Heu Her) as He2.
  exists {| tag := "message";
            attrs := stanzaAttrs msgId
                       (jidEncode (fj_user decoded) "s.whatsapp.net" None)
                       meId (additionalAttributes opts) (participant opts);
            content := nodes content |}, (rest ++ [usync_query users]),
         meId, sender, cached, users, w1, result, reported.
  split_and!; try done.
  - by rewrite <- Hc1.
  - rewrite Hlog. f_equal. chain.
  - set_solver.
  - unfold recipientJids. rewrite Hrn, Hj, <- fmap_app. simpl app.
    apply fmap_Permutation. apply filter_app_complement.
  - unfold recipientJids. by rewrite Hrn, Hj.
  - intros u n. apply DeviceFacts.keepDevice_spec.
Qed.

End WithHost.

Lemma device_identity_iff_pkmsg_witness :
  ∃ w',
    relayMessage Samples.peerJid Samples.textMessage Samples.plainSend
      (Samples.sampleWorld Samples.peerReply ["111@s.whatsapp.net"])
    = Ok ("MSG1", w')
    ∧ ∃ stanza new,
        log w' = node_sent stanza :: new
                 ++ log (Samples.sampleWorld Samples.peerReply ["111@s.whatsapp.net"])
        ∧ (hasChild "device-identity" stanza = true
           ↔ ∃ j, encrypted j pkmsg ∈ new)
        ∧ ((∀ j type, encrypted j type ∈ new → type = msg) →
           hasChild "device-identity" stanza = false).
Proof.
  eexists. split; [vm_compute; reflexivity|].
  apply (device_identity_iff_pkmsg Samples.peerJid Samples.textMessage
           Samples.plainSend
           (Samples.sampleWorld Samples.peerReply ["111@s.whatsapp.net"]) "MSG1").
  vm_compute; reflexivity.
Defined.

Lemma retry_isolation_witness :
  ∃ w',
    jidDecode (Ext := Samples.SampleExt) Samples.peerJid
    = Some {| fj_user := "111"; fj_server := "s.whatsapp.net"; fj_device := None |}
    ∧ "s.whatsapp.net" ≠ "g.us"
    ∧ participant (Samples.retrySend "111@s.whatsapp.net:2")
      = Some {| participant_jid := "111@s.whatsapp.net:2"; participant_count := 1 |}
    ∧ relayMessage Samples.peerJid Samples.textMessage
        (Samples.retrySend "111@s.whatsapp.net:2")
        (Samples.sampleWorld Samples.peerReply [])
      = Ok ("MSG1", w')
    ∧ ∃ stanza new d,
        jidDecode (Ext := Samples.SampleExt) "111@s.whatsapp.net:2" = Some d
        ∧ log w' = node_sent stanza :: new
                   ++ log (Samples.sampleWorld Samples.peerReply [])
        ∧ attrs stanza !! "device_fanout" = Some "false"
        ∧ recipientJids stanza
          = [jidEncode (Ext := Samples.SampleExt) (fj_user d) "s.whatsapp.net"
               (fj_device d)]
        ∧ length (recipientNodes stanza) = 1%nat
        ∧ Forall (λ n, tag n = "to") (recipientNodes stanza)
        ∧ ∀ users, usync_query users ∉ new.
Proof.
  eexists. split_and!; [reflexivity | discriminate | reflexivity
                       | vm_compute; reflexivity |].
  apply (retry_isolation Samples.peerJid Samples.textMessage
           (Samples.retrySend "111@s.whatsapp.net:2")
           {| participant_jid := "111@s.whatsapp.net:2"; participant_count := 1 |}
           {| fj_user := "111"; fj_server := "s.whatsapp.net"; fj_device := None |}
           (Samples.sampleWorld Samples.peerReply []) "MSG1");
    [reflexivity | discriminate | reflexivity | vm_compute; reflexivity].
Defined.

Lemma group_retry_resets_memory_witness :
  ∃ w1 w',
    relayMessage Samples.groupJid Samples.textMessage Samples.plainSend
      (Samples.sampleWorld Samples.peerReply [])
    = Ok ("MSG1", w1)
    ∧ (map_to_list <$> senderKeyMemory w1 !! Samples.groupJid)
      = Some [("999@s.whatsapp.net", true); ("111@s.whatsapp.net:1", true);
              ("111@s.whatsapp.net", true)]
    ∧ jidDecode (Ext := Samples.SampleExt) Samples.groupJid
      = Some {| fj_user := "g1"; fj_server := "g.us"; fj_device := None |}
    ∧ participant (Samples.retrySend "111@s.whatsapp.net:1")
      = Some {| participant_jid := "111@s.whatsapp.net:1"; participant_count := 1 |}
    ∧ relayMessage Samples.groupJid Samples.textMessage
        (Samples.retrySend "111@s.whatsapp.net:1") w1
      = Ok ("MSG1", w')
    ∧ ∃ stanza new d,
        jidDecode (Ext := Samples.SampleExt) "111@s.whatsapp.net:1" = Some d
        ∧ log w' = node_sent stanza :: new ++ log w1
        ∧ (∀ ids, keys_get "sender-key-memory" ids ∉ new)
        ∧ recipientJids stanza
          = [jidEncode (Ext := Samples.SampleExt) (fj_user d) "s.whatsapp.net"
               (fj_device d)]
        ∧ senderKeyMemory w' !! Samples.groupJid
          = Some {[jidEncode (Ext := Samples.SampleExt) (fj_user d)
                     "s.whatsapp.net" (fj_device d) := true]}
        ∧ (∀ j, j ≠ jidEncode (Ext := Samples.SampleExt) (fj_user d)
                      "s.whatsapp.net" (fj_device d) →
                senderKeyMemory w' !! Samples.groupJid ≫= (λ m, m !! j) = None)
        ∧ (∀ g, g ≠ Samples.groupJid →
                senderKeyMemory w' !! g = senderKeyMemory w1 !! g).
Proof.
  eexists _, _. split_and!; [vm_compute; reflexivity | vm_compute; reflexivity
    | reflexivity | reflexivity | vm_compute; reflexivity |].
  apply (group_retry_resets_memory Samples.groupJid Samples.textMessage
           (Samples.retrySend "111@s.whatsapp.net:1")
           {| participant_jid := "111@s.whatsapp.net:1"; participant_count := 1 |}
           {| fj_user := "g1"; fj_server := "g.us"; fj_device := None |}
           _ "MSG1");
    [reflexivity | reflexivity | reflexivity | vm_compute; reflexivity].
Defined.

Lemma sender_key_economy_witness :
  ∃ w1 w2,
    jidDecode (Ext := Samples.SampleExt) Samples.groupJid
    = Some {| fj_user := "g1"; fj_server := "g.us"; fj_device := None |}
    ∧ relayMessage Samples.groupJid Samples.textMessage Samples.plainSend
        (Samples.sampleWorld Samples.peerReply [])
      = Ok ("MSG1", w1)
    ∧ relayMessage Samples.groupJid Samples.textMessage Samples.plainSend
        (Samples.afterJoin w1)
      = Ok ("MSG1", w2)
    ∧ (recipientJids <$> Samples.lastSent (Ok ("MSG1", w1)))
      = Some ["999@s.whatsapp.net"; "111@s.whatsapp.net"; "111@s.whatsapp.net:1"]
    ∧ (recipientJids <$> Samples.lastSent (Ok ("MSG1", w2)))
      = Some ["333@s.whatsapp.net"; "333@s.whatsapp.net:3"]
    ∧ ∃ devices1 D stanza2 new2 devices2 D2,
        discovers Samples.plainSend (Samples.sampleWorld Samples.peerReply [])
          devices1
        ∧ senderKeyMemory w1 !! Samples.groupJid = Some D
        ∧ (∀ j, j ∈ deviceJid <$> devices1 → marked D j = true)
        ∧ discovers Samples.plainSend (Samples.afterJoin w1) devices2
        ∧ log w2 = node_sent stanza2 :: new2 ++ log (Samples.afterJoin w1)
        ∧ NoDup (recipientJids stanza2)
        ∧ length (recipientNodes stanza2) = length (recipientJids stanza2)
        ∧ (∀ j, j ∈ recipientJids stanza2
                ↔ j ∈ deviceJid <$> devices2 ∧ marked D j = false)
        ∧ ((∀ j, j ∈ deviceJid <$> devices2 → marked D j = true) →
           recipientNodes stanza2 = [] ∧ hasChild "participants" stanza2 = false)
        ∧ senderKeyMemory w2 !! Samples.groupJid = Some D2
        ∧ (∀ j, marked D2 j = true
                ↔ marked D j = true ∨ j ∈ deviceJid <$> devices2).
Proof.
  eexists _, _. split_and!; [reflexivity | vm_compute; reflexivity
    | vm_compute; reflexivity | vm_compute; reflexivity | vm_compute; reflexivity |].
  apply (sender_key_economy Samples.groupJid
           {| fj_user := "g1"; fj_server := "g.us"; fj_device := None |}
           Samples.textMessage Samples.plainSend
           Samples.textMessage Samples.plainSend
           (Samples.sampleWorld Samples.peerReply []) "MSG1" _ _ "MSG1");
    [reflexivity | reflexivity | reflexivity | reflexivity
    | vm_compute; reflexivity | reflexivity | vm_compute; reflexivity].
Defined.

Lemma direct_fanout_witness :
  ∃ w',
    jidDecode (Ext := Samples.SampleExt) Samples.peerJid
    = Some {| fj_user := "111"; fj_server := "s.whatsapp.net"; fj_device := None |}
    ∧ "s.whatsapp.net" ≠ "g.us"
    ∧ participant Samples.plainSend = None
    ∧ relayMessage Samples.peerJid Samples.textMessage Samples.plainSend
        (Samples.sampleWorld Samples.peerReply [])
      = Ok ("MSG1", w')
    ∧ (recipientJids <$> Samples.lastSent (Ok ("MSG1", w')))
      = Some ["999@s.whatsapp.net"; "111@s.whatsapp.net"; "111@s.whatsapp.net:1"]
    ∧ ∃ stanza new meId sender cached users w1 result reported,
        me (Samples.sampleWorld Samples.peerReply []) = Some meId
        ∧ jidDecode (Ext := Samples.SampleExt) meId = Some sender
        ∧ foldl (lookupCached
                   (negb (bool_decide
                            (useUserDevicesCache Samples.plainSend = Some false)))
                   (userDevicesCache (Samples.sampleWorld Samples.peerReply [])))
                (Ok ([], [])) (remove_dups [meId; Samples.peerJid])
          = Ok (cached, users)
        ∧ orGenerateMessageID (messageId Samples.plainSend)
            (Samples.sampleWorld Samples.peerReply [])
          = Ok ("MSG1", w1)
        ∧ fst <$> usyncQuery (ext w1) users = Some result
        ∧ Signal.reportedDevices result = Ok reported
        ∧ log w' = node_sent stanza :: new
                   ++ log (Samples.sampleWorld Samples.peerReply [])
        ∧ usync_query users ∈ new
        ∧ recipientJids stanza
          ≡ₚ deviceJid
               <$> ({| user := "111"; device := None |}
                    :: {| user := fj_user sender; device := None |}
                    :: cached
                    ++ omap (Signal.keepDevice (fj_user sender) (fj_device sender)
                               true) reported)
        ∧ length (recipientNodes stanza) = length (recipientJids stanza)
        ∧ ∀ u n,
            is_Some (Signal.keepDevice (fj_user sender) (fj_device sender) true (u, n))
            ↔ tag n = "device"
              ∧ toNumber (Ext := Samples.SampleExt) (attrs n !! "id") ≠ Some 0
              ∧ (fj_user sender ≠ u
                 ∨ Signal.strictNe (fj_device sender)
                     (toNumber (Ext := Samples.SampleExt) (attrs n !! "id")) = true)
              ∧ Signal.truthyAttr (attrs n !! "key-index") = true.
Proof.
  eexists. split_and!; [reflexivity | discriminate | reflexivity
    | vm_compute; reflexivity | vm_compute; reflexivity |].
  apply (direct_fanout Samples.peerJid
           {| fj_user := "111"; fj_server := "s.whatsapp.net"; fj_device := None |}
           Samples.textMessage Samples.plainSend
           (Samples.sampleWorld Samples.peerReply []) "MSG1");
    [reflexivity | discriminate | reflexivity | vm_compute; reflexivity].
Defined.

(** C4 as stated fails: the server reports device 2 of the peer without a
    key index; it is among the peer's devices as reported, it is not the
    sending device, and no [to] node is made for it. *)
Lemma direct_fanout_skips_device_without_key_index :
  (recipientJids
     <$> Samples.lastSent
           (relayMessage Samples.peerJid Samples.textMessage Samples.plainSend
              (Samples.sampleWorld Samples.peerReply [])))
  = Some ["999@s.whatsapp.net"; "111@s.whatsapp.net"; "111@s.whatsapp.net:1"]
  ∧ claimedRecipients (Ext := Samples.SampleExt) Samples.peerReply Samples.meJid
    = Some ["999@s.whatsapp.net"; "111@s.whatsapp.net"; "111@s.whatsapp.net:1";
            "111@s.whatsapp.net:2"]
  ∧ "111@s.whatsapp.net:2"
    ∉ ["999@s.whatsapp.net"; "111@s.whatsapp.net"; "111@s.whatsapp.net:1"].
Proof.
  split_and!; [vm_compute; reflexivity | vm_compute; reflexivity |].
  intros Hin. repeat (apply elem_of_cons in Hin as [Hin|Hin]; [discriminate|]).
  by apply elem_of_nil in Hin.
Qed.

End MessagesSendFacts.

(** *** Uploading pre-keys *)

Module PreKeyUploadFacts.
Import WABinary Signal PreKeyUpload.

Lemma omap_ext_in {A B} (f g : A → option B) (l : list A) :
  (∀ x, x ∈ l → f x = g x) → omap f l = omap g l.
Proof.
  induction l as [|x l IH]; intros Hfg; [done|].
  cbn [omap list_omap]. rewrite (Hfg x) by (by left).
  rewrite IH; [done|]. intros y Hy. apply Hfg. by right.
Qed.

Lemma omap_length_total {A B} (f : A → option B) (l : list A) :
  (∀ x, x ∈ l → is_Some (f x)) → length (omap f l) = length l.
Proof.
  induction l as [|x l IH]; intros Hf; [done|].
  cbn [omap list_omap]. destruct (Hf x) as [y ->]; [by left|].
  simpl. f_equal. apply IH. intros z Hz. apply Hf. by right.
Qed.

Lemma Sorted_le_seqZ (len : nat) : ∀ lo : Z, Sorted Z.le (seqZ lo (Z.of_nat len)).
Proof.
  induction len as [|len IH]; intros lo.
  - constructor.
  - rewrite Nat2Z.inj_succ, seqZ_cons by lia.
    replace (Z.pred (Z.succ (Z.of_nat len))) with (Z.of_nat len) by lia.
    constructor; [apply IH|].
    destruct len as [|len']; [constructor|].
    rewrite Nat2Z.inj_succ, seqZ_cons by lia. constructor. lia.
Qed.

(** The keys of an object that holds exactly the ids of an interval are the
    interval, in ascending order. *)
Lemma objectKeys_interval {A} (m : gmap Z A) (lo n : Z) :
  0 ≤ n → (∀ id, is_Some (m !! id) ↔ lo ≤ id < lo + n) →
  objectKeys m = seqZ lo n.
Proof.
  intros Hn Hdom. unfold objectKeys.
  apply (Sorted_unique Z.le).
  - apply (Sorted_merge_sort Z.le).
  - rewrite <- (Z2Nat.id n) by done. apply Sorted_le_seqZ.
  - rewrite merge_sort_Permutation. apply NoDup_Permutation.
    + apply NoDup_fst_map_to_list.
    + apply NoDup_seqZ.
    + intros id. rewrite elem_of_seqZ, <- Hdom.
      rewrite list_elem_of_fmap. split.
      * intros ([k v] & -> & Hkv). apply elem_of_map_to_list in Hkv. by eexists.
      * intros [v Hv]. exists (id, v). split; [done|]. by apply elem_of_map_to_list.
Qed.

Section WithCurve.
Context {Rng : Type} (generateKeyPair : Rng → KeyPair * Rng).

#[local] Abbreviation getNextPreKeys := (getNextPreKeys generateKeyPair).
#[local] Abbreviation uploadPreKeys := (uploadPreKeys generateKeyPair).

Lemma getNextPreKeys_after st count rng (id : Z) :
  keys_after (getNextPreKeys st count rng).1 !! id
  = if bool_decide
         (nextPreKeyId (creds st) ≤ id ≤ firstUnuploadedPreKeyId (creds st) + count - 1)
    then newPreKeys (generateOrGetPreKeys generateKeyPair (creds st) count rng).1 !! id
    else keys st !! id.
Proof.
  unfold Signal.getNextPreKeys.
  pose proof (SignalFacts.generateOrGetPreKeys_new generateKeyPair (creds st) count rng id)
    as Hnew.
  destruct (generateOrGetPreKeys _ _ _ _) as [b rng']. simpl in *.
  case_bool_decide as Hin.
  - apply Hnew in Hin as [kp Hkp]. rewrite Hkp. by apply lookup_union_Some_l.
  - apply lookup_union_r. apply eq_None_not_Some. by rewrite Hnew.
Qed.

Lemma getNextPreKeys_preKeys st count rng (id : Z) :
  preKeys (getNextPreKeys st count rng).1 !! id
  = if bool_decide (firstUnuploadedPreKeyId (creds st) ≤ id
                    < firstUnuploadedPreKeyId (creds st) + count)
    then keys_after (getNextPreKeys st count rng).1 !! id
    else None.
Proof.
  unfold Signal.getNextPreKeys.
  assert (Hrg : preKeysRange (generateOrGetPreKeys generateKeyPair (creds st) count rng).1
                = (firstUnuploadedPreKeyId (creds st), count)).
  { unfold generateOrGetPreKeys.
    case_bool_decide; [destruct (generateLoop _ _ _ _ _ _)|]; done. }
  destruct (generateOrGetPreKeys _ _ _ _) as [b rng']. simpl in *.
  rewrite Hrg. simpl. unfold getPreKeys.
  case_bool_decide as Hin.
  - destruct ((newPreKeys b ∪ keys st) !! id) as [kp|] eqn:Hkp.
    + by apply map_lookup_filter_Some.
    + apply map_lookup_filter_None. left. done.
  - apply map_lookup_filter_None. right. intros kp _. done.
Qed.

Lemma getNextPreKeys_ids st count rng (id : Z) :
  holdsUnuploaded st → 0 ≤ count →
  is_Some (preKeys (getNextPreKeys st count rng).1 !! id)
  ↔ firstUnuploadedPreKeyId (creds st) ≤ id
    < firstUnuploadedPreKeyId (creds st) + count.
Proof.
  intros [Hle Hheld] Hcount. rewrite getNextPreKeys_preKeys.
  case_bool_decide as Hin; [|split; [by intros [? ?]|done]].
  split; [done|]. intros _. rewrite getNextPreKeys_after.
  case_bool_decide as Hnew.
  - by apply SignalFacts.generateOrGetPreKeys_new.
  - apply Hheld. lia.
Qed.

Lemma uploadPreKeys_keeps st count rng st' rng' :
  holdsUnuploaded st → 0 ≤ count →
  uploadPreKeys st count rng true = Some (st', rng') →
  holdsUnuploaded st'
  ∧ firstUnuploadedPreKeyId (creds st')
    = firstUnuploadedPreKeyId (creds st) + count
  ∧ keys st' = keys_after (getNextPreKeys st count rng).1.
Proof.
  intros [Hle Hheld] Hcount Hup.
  pose proof (getNextPreKeys_after st count rng) as Hafter.
  pose proof (SignalFacts.generateOrGetPreKeys_last generateKeyPair (creds st) count rng)
    as Hlast.
  pose proof (SignalFacts.generateOrGetPreKeys_new generateKeyPair (creds st) count rng)
    as Hnew.
  unfold Signal.uploadPreKeys, Signal.getNextPreKeys in *.
  destruct (generateOrGetPreKeys _ _ _ _) as [b rng0]. simpl in *.
  simplify_eq. unfold holdsUnuploaded. simpl. rewrite Hlast.
  split_and!; [lia | | lia | done].
  intros id Hid. rewrite Hafter. case_bool_decide as Hin.
  - by apply Hnew.
  - apply Hheld. lia.
Qed.

(** Two uploads in a row, both taken by the server, with any counts: the
    first uploads the [c1] ids from [firstUnuploadedPreKeyId] on, the second
    the [c2] ids that follow, so no id is uploaded twice and none is skipped.
    A pair that was generated earlier and is still in the store is uploaded
    as stored, and what the server got is what the store holds afterwards. *)
Theorem successive_uploads_abut (st : AuthenticationState) (c1 c2 : Z)
    (rng : Rng) st1 rng1 :
  holdsUnuploaded st → 0 ≤ c1 → 0 ≤ c2 →
  uploadPreKeys st c1 rng true = Some (st1, rng1) →
  let first := firstUnuploadedPreKeyId (creds st) in
  let r1 := (getNextPreKeys st c1 rng).1 in
  let r2 := (getNextPreKeys st1 c2 rng1).1 in
  (∀ id, is_Some (preKeys r1 !! id) ↔ first ≤ id < first + c1)
  ∧ (∀ id, is_Some (preKeys r2 !! id) ↔ first + c1 ≤ id < first + c1 + c2)
  ∧ (∀ id, first ≤ id < Z.min (nextPreKeyId (creds st)) (first + c1) →
           preKeys r1 !! id = keys st !! id)
  ∧ (∀ id kp, preKeys r1 !! id = Some kp → keys st1 !! id = Some kp)
  ∧ holdsUnuploaded st1.
Proof.
  intros Hheld Hc1 Hc2 Hup first r1 r2.
  destruct (uploadPreKeys_keeps st c1 rng st1 rng1 Hheld Hc1 Hup)
    as (Hheld1 & Hfirst1 & Hkeys1).
  split_and!.
  - intros id. by apply getNextPreKeys_ids.
  - intros id. subst r2. rewrite getNextPreKeys_ids by done. by rewrite Hfirst1.
  - intros id Hid. subst r1. rewrite getNextPreKeys_preKeys.
    rewrite bool_decide_eq_true_2 by (fold first; lia).
    rewrite getNextPreKeys_after. by rewrite bool_decide_eq_false_2 by lia.
  - intros id kp. subst r1. rewrite getNextPreKeys_preKeys, Hkeys1.
    by case_bool_decide.
  - done.
Qed.

Section WithEncoding.
Context (encodeBigEndian : Z → nat → bytes) (KEY_BUNDLE_TYPE : bytes)
        (S_WHATSAPP_NET : string).

#[local] Abbreviation getNextPreKeysNode :=
  (getNextPreKeysNode encodeBigEndian KEY_BUNDLE_TYPE S_WHATSAPP_NET generateKeyPair).
#[local] Abbreviation xmppPreKey := (xmppPreKey encodeBigEndian).

(** The node that [getNextPreKeysNode] builds lists one [key] child for
    each of the [count] ids from [firstUnuploadedPreKeyId] on, in ascending
    order, each with the pair the store holds under its id; these are the
    ids that the update it returns marks as uploaded. *)
Theorem upload_node_lists_batch (st : AuthenticationState) (reg : RegistrationCreds)
    (count : Z) (rng : Rng) :
  holdsUnuploaded st → 0 ≤ firstUnuploadedPreKeyId (creds st) → 0 ≤ count →
  let first := firstUnuploadedPreKeyId (creds st) in
  let r := (getNextPreKeysNode st reg count rng).1.1 in
  let node := (getNextPreKeysNode st reg count rng).1.2 in
  r = (getNextPreKeys st count rng).1
  ∧ listedKeys node
    = omap (λ id, (λ pair, xmppPreKey pair id) <$> keys_after r !! id)
           (seqZ first count)
  ∧ length (listedKeys node) = Z.to_nat count
  ∧ upd_firstUnuploadedPreKeyId (update r) = first + count.
Proof.
  intros Hheld Hfirst Hcount first r node.
  pose proof (getNextPreKeys_ids st count rng) as Hids.
  pose proof (getNextPreKeys_preKeys st count rng) as Hpre.
  pose proof (SignalFacts.generateOrGetPreKeys_last generateKeyPair (creds st) count rng)
    as Hlast.
  assert (Hr : r = (getNextPreKeys st count rng).1).
  { subst r. unfold PreKeyUpload.getNextPreKeysNode.
    by destruct (getNextPreKeys st count rng). }
  assert (Hnode : listedKeys node = preKeyNodes encodeBigEndian (preKeys r)).
  { subst node r. unfold PreKeyUpload.getNextPreKeysNode.
    destruct (getNextPreKeys st count rng) as [r0 rng0]. simpl.
    unfold listedKeys, MessagesSend.childrenOf. simpl. by rewrite app_nil_r. }
  assert (Hlist : listedKeys node
                  = omap (λ id, (λ pair, xmppPreKey pair id) <$> keys_after r !! id)
                         (seqZ first count)).
  { rewrite Hnode, Hr. unfold preKeyNodes.
    rewrite (objectKeys_interval _ first count) by (done || (intros id; by apply Hids)).
    apply omap_ext_in. intros id Hid. apply elem_of_seqZ in Hid.
    rewrite Hpre. by rewrite bool_decide_eq_true_2 by done. }
  split_and!; [done | done | |].
  - rewrite Hlist, omap_length_total.
    + rewrite length_seqZ. done.
    + intros id Hid. apply elem_of_seqZ in Hid. rewrite Hr.
      apply fmap_is_Some. apply Hids in Hid; [|done..].
      rewrite Hpre in Hid. by case_bool_decide.
  - rewrite Hr. unfold Signal.getNextPreKeys.
    destruct (generateOrGetPreKeys _ _ _ _) as [b rng0]. simpl in *.
    rewrite Hlast. lia.
Qed.

End WithEncoding.
End WithCurve.

Lemma sampleAuth_holdsUnuploaded : holdsUnuploaded Samples.sampleAuth.
Proof.
  split; [simpl; lia|]. intros id Hid. simpl in Hid.
  assert (id = 5 ∨ id = 6 ∨ id = 7) as [->|[->| ->]] by lia; vm_compute; eauto.
Qed.

Lemma successive_uploads_abut_witness :
  ∃ st1 rng1,
    uploadPreKeys Samples.countingCurve Samples.sampleAuth 2 0%nat true
    = Some (st1, rng1)
    ∧ objectKeys
        (preKeys (getNextPreKeys Samples.countingCurve Samples.sampleAuth 2 0%nat).1)
      = [5; 6]
    ∧ objectKeys (preKeys (getNextPreKeys Samples.countingCurve st1 4 rng1).1)
      = [7; 8; 9; 10]
    ∧ (∀ id, is_Some (preKeys (getNextPreKeys Samples.countingCurve st1 4 rng1).1 !! id)
             ↔ 5 + 2 ≤ id < 5 + 2 + 4)
    ∧ holdsUnuploaded st1.
Proof.
  eexists _, _. split; [vm_compute; reflexivity|].
  split; [vm_compute; reflexivity|]. split; [vm_compute; reflexivity|].
  assert (H1 : 0 ≤ 2) by lia. assert (H2 : 0 ≤ 4) by lia.
  destruct (successive_uploads_abut Samples.countingCurve Samples.sampleAuth 2 4
              0%nat _ _ sampleAuth_holdsUnuploaded H1 H2 eq_refl)
    as (_ & Hsecond & _ & _ & Hheld).
  split; [exact Hsecond | exact Hheld].
Defined.

Lemma upload_node_lists_batch_witness :
  0 ≤ firstUnuploadedPreKeyId (creds Samples.sampleAuth) ∧ 0 ≤ 4
  ∧ length
      (listedKeys
         (getNextPreKeysNode MoreSamples.sampleBigEndian [Byte.x05] "@s.whatsapp.net"
            Samples.countingCurve Samples.sampleAuth MoreSamples.sampleRegistration
            4 0%nat).1.2)
    = 4%nat
  ∧ upd_firstUnuploadedPreKeyId
      (update
         (getNextPreKeysNode MoreSamples.sampleBigEndian [Byte.x05] "@s.whatsapp.net"
            Samples.countingCurve Samples.sampleAuth MoreSamples.sampleRegistration
            4 0%nat).1.1)
    = 9.
Proof.
  assert (H1 : 0 ≤ firstUnuploadedPreKeyId (creds Samples.sampleAuth)) by (simpl; lia).
  assert (H2 : 0 ≤ 4) by lia.
  destruct (upload_node_lists_batch Samples.countingCurve MoreSamples.sampleBigEndian
              [Byte.x05] "@s.whatsapp.net" Samples.sampleAuth
              MoreSamples.sampleRegistration 4 0%nat
              sampleAuth_holdsUnuploaded H1 H2)
    as (_ & _ & Hlen & Hupd).
  split_and!; [done | done | exact Hlen | exact Hupd].
Defined.

End PreKeyUploadFacts.

(** *** What [extractDeviceJids] never returns *)

Module DeviceListFacts.
Import WABinary Signal.

Section WithHost.
Context {Ext : Type} `{!Host Ext}.

(** Whatever the USync result holds, [extractDeviceJids] never returns the
    device it is called for (the device id of [myJid] under the user of
    [myJid]), and when it is asked to exclude zero devices it returns no
    device with id 0. *)
Theorem extractDeviceJids_never_self result myJid excludeZeroDevices extracted
    sender :
  extractDeviceJids result myJid excludeZeroDevices = Ok extracted →
  jidDecode myJid = Some sender →
  (∀ d, fj_device sender = Some d →
        {| user := fj_user sender; device := Some d |} ∉ extracted)
  ∧ (excludeZeroDevices = true → ∀ x, x ∈ extracted → device x ≠ Some 0).
Proof.
  intros Hrun Hme.
  apply DeviceFacts.extractDeviceJids_reported in Hrun
    as (sender' & reported & Hme' & _ & ->).
  assert (sender' = sender) as -> by congruence.
  split.
  - intros d Hd Hin. apply list_elem_of_omap in Hin as ([u n] & _ & Hkeep).
    unfold keepDevice, acceptDevice in Hkeep. cbn [fst snd] in Hkeep.
    destruct (bool_decide (tag n = "device") && _ && _ && _) eqn:Hacc; [|done].
    injection Hkeep as -> Hid. rewrite Hd, Hid in Hacc.
    rewrite (bool_decide_eq_false_2 (fj_user sender ≠ fj_user sender)) in Hacc
      by (intros X; by apply X).
    unfold strictNe in Hacc.
    rewrite (bool_decide_eq_false_2 (d ≠ d)) in Hacc by (intros X; by apply X).
    simpl in Hacc. by rewrite andb_false_r in Hacc.
  - intros -> x Hin. apply list_elem_of_omap in Hin as ([u n] & _ & Hkeep).
    unfold keepDevice, acceptDevice in Hkeep. cbn [fst snd negb orb] in Hkeep.
    destruct (bool_decide (tag n = "device") && _ && _ && _) eqn:Hacc; [|done].
    injection Hkeep as <-. simpl.
    apply andb_true_iff in Hacc as [Hacc _]. apply andb_true_iff in Hacc as [Hacc _].
    apply andb_true_iff in Hacc as [_ Hacc]. by apply bool_decide_eq_true in Hacc.
Qed.

End WithHost.

Lemma extractDeviceJids_never_self_witness :
  extractDeviceJids (Ext := Samples.SampleExt) Samples.peerReply Samples.meJid false
  = Ok [ {| user := "999"; device := Some 0 |};
         {| user := "111"; device := Some 0 |};
         {| user := "111"; device := Some 1 |} ]
  ∧ {| user := "999"; device := Some 5 |}
    ∉ [ {| user := "999"; device := Some 0 |};
        {| user := "111"; device := Some 0 |};
        {| user := "111"; device := Some 1 |} ].
Proof.
  split; [vm_compute; reflexivity|].
  destruct (extractDeviceJids_never_self (Ext := Samples.SampleExt)
              Samples.peerReply Samples.meJid false
              [ {| user := "999"; device := Some 0 |};
                {| user := "111"; device := Some 0 |};
                {| user := "111"; device := Some 1 |} ]
              {| fj_user := "999"; fj_server := "s.whatsapp.net";
                 fj_device := Some 5 |})
    as [Hself _]; [vm_compute; reflexivity | vm_compute; reflexivity |].
  apply (Hself 5). reflexivity.
Defined.

End DeviceListFacts.

(** *** The socket after [end] *)

Module SocketEndFacts.
Import Signal Socket.

Section WithConfig.
Context (qrTimeout : option Z) (creds : AuthenticationCreds)
        (base64 : bytes → string) (ws_close : ReadyState → ReadyState).

(** Once [end] has run on a socket, the QR timer is gone: however many
    expiries are played afterwards, the state does not change, so no QR and
    no second close event is emitted after the close event. *)
Theorem no_qr_after_end (s : State) (error : option Boom) (now : Z) (dates : list Z) :
  closed s = false →
  let s' := end_ ws_close s error now in
  rotate qrTimeout creds base64 ws_close s' dates = s'
  ∧ emitted (rotate qrTimeout creds base64 ws_close s' dates)
    = emitted s
      ++ [connection_update {| connection := Some close; qr := None;
                               lastDisconnect := Some (error, now) |}].
Proof.
  intros Hopen s'.
  assert (Htimer : qrTimer s' = None).
  { subst s'. unfold end_. by rewrite Hopen. }
  assert (Hrot : rotate qrTimeout creds base64 ws_close s' dates = s').
  { clear Hopen. unfold rotate. induction dates as [|d dates IH]; [done|].
    simpl. unfold fireQrTimer at 2. by rewrite Htimer. }
  split; [done|]. rewrite Hrot. subst s'. unfold end_. by rewrite Hopen.
Qed.

End WithConfig.

Lemma no_qr_after_end_witness :
  closed (onPairDevice None (Samples.sampleCreds 5 8) Samples.sampleBase64
            Samples.sampleClose initial ["r1"; "r2"] 0) = false
  ∧ emitted
      (rotate None (Samples.sampleCreds 5 8) Samples.sampleBase64 Samples.sampleClose
         (end_ Samples.sampleClose
            (onPairDevice None (Samples.sampleCreds 5 8) Samples.sampleBase64
               Samples.sampleClose initial ["r1"; "r2"] 0)
            None 1000)
         [60000; 80000])
    = [connection_update
         {| connection := None; qr := Some "r1,AQ==,Ag==,adv"; lastDisconnect := None |};
       connection_update
         {| connection := Some close; qr := None;
            lastDisconnect := Some (None, 1000) |}].
Proof.
  split; [reflexivity|].
  apply (no_qr_after_end None (Samples.sampleCreds 5 8) Samples.sampleBase64
           Samples.sampleClose
           (onPairDevice None (Samples.sampleCreds 5 8) Samples.sampleBase64
              Samples.sampleClose initial ["r1"; "r2"] 0)
           None 1000 [60000; 80000] eq_refl).
Defined.

End SocketEndFacts.

(** *** Message tags and [logout] *)

Module SocketIOFacts.
Import WABinary Signal Socket SocketIO.

Section WithConfig.
Context (uqTagId : string) (S_WHATSAPP_NET : string)
        (ws_close : ReadyState → ReadyState).

#[local] Abbreviation generateMessageTags := (generateMessageTags uqTagId).
#[local] Abbreviation assignIds := (assignIds uqTagId).
#[local] Abbreviation logout := (logout uqTagId S_WHATSAPP_NET ws_close).

(** Every tag drawn from a socket is the prefix followed by a counter value
    that no earlier tag used. *)
Lemma generateMessageTags_from (n : nat) : ∀ c t,
  t ∈ (generateMessageTags n c).1 →
  ∃ k, epoch c ≤ k ∧ t = uqTagId +:+ pretty k.
Proof.
  induction n as [|n IH]; intros c t Hin; simpl in Hin.
  - by apply elem_of_nil in Hin.
  - destruct (generateMessageTags n _) as [ts c2] eqn:Hrest. simpl in Hin.
    apply elem_of_cons in Hin as [->|Hin].
    + exists (epoch c). split; [lia|done].
    + assert (Hin' : t ∈ (generateMessageTags n
                            {| core := core c; epoch := epoch c + 1;
                               sent := sent c |}).1) by (by rewrite Hrest).
      apply IH in Hin' as (k & Hk & ->). simpl in Hk. exists k. split; [lia|done].
Qed.

Lemma generateMessageTags_NoDup (n : nat) : ∀ c, NoDup (generateMessageTags n c).1.
Proof.
  induction n as [|n IH]; intros c; simpl.
  - constructor.
  - pose proof (generateMessageTags_from n
                  {| core := core c; epoch := epoch c + 1; sent := sent c |}) as Hfrom.
    specialize (IH {| core := core c; epoch := epoch c + 1; sent := sent c |}).
    destruct (generateMessageTags n _) as [ts c2]. simpl in *.
    constructor; [|done]. intros Hin.
    apply Hfrom in Hin as (k & Hk & Heq). simpl in Hk.
    apply (inj (String.app uqTagId)) in Heq. apply (inj pretty) in Heq. lia.
Qed.

(** Queries whose nodes come without an [id] go out under ids drawn from
    the tag counter, one after the other: each gets an id, and no two of
    them get the same one. *)
Theorem query_ids_never_repeat (c : Conn) (nodes : list BinaryNode) :
  Forall (λ node, truthy (attrs node !! "id") = false) nodes →
  (assignIds c nodes).1 = Some <$> (generateMessageTags (length nodes) c).1
  ∧ NoDup (assignIds c nodes).1
  ∧ epoch (assignIds c nodes).2 = epoch c + Z.of_nat (length nodes).
Proof.
  intros Hall.
  assert (Hids : (assignIds c nodes).1
                 = Some <$> (generateMessageTags (length nodes) c).1
                 ∧ epoch (assignIds c nodes).2 = epoch c + Z.of_nat (length nodes)).
  { revert c. induction Hall as [|node rest Hnode _ IH]; intros c.
    - simpl. split; [done|lia].
    - cbn [SocketIO.assignIds SocketIO.generateMessageTags length].
      unfold assignId. rewrite Hnode. cbn [generateMessageTag].
      destruct (IH {| core := core c; epoch := epoch c + 1; sent := sent c |})
        as [IH1 IH2].
      destruct (assignIds _ rest) as [ids c2].
      destruct (generateMessageTags (length rest) _) as [ts c3]. simpl in *.
      rewrite lookup_insert_eq, IH1. split; [done|lia]. }
  destruct Hids as [Hids Hepoch]. split_and!; [done | | done].
  rewrite Hids. apply (NoDup_fmap_2 Some), generateMessageTags_NoDup.
Qed.

(** [logout] by cases: no account id; an account id and a WebSocket that is
    not open; an account id and an open WebSocket. *)
Lemma logout_no_account (c : Conn) (meId msg : option string) delivered now :
  truthy meId = false →
  logout c meId msg delivered now
  = ({| core := end_ ws_close (core c)
                  (Some {| message := if truthy msg then default "" msg
                                      else "Intentional Logout";
                           statusCode := loggedOut |}) now;
        epoch := epoch c; sent := sent c |}, None).
Proof.
  unfold SocketIO.logout, truthy at 1. intros Hme.
  destruct meId as [jid|]; [|done]. by rewrite Hme.
Qed.

Lemma logout_not_open (c : Conn) (meId msg : option string) delivered now :
  truthy meId = true → readyState (core c) ≠ OPEN →
  logout c meId msg delivered now
  = ({| core := core c; epoch := epoch c + 1; sent := sent c |},
     Some (notOpen {| message := "Connection Closed";
                      statusCode := connectionClosed |})).
Proof.
  unfold SocketIO.logout, truthy at 1. intros Hme Hopen.
  destruct meId as [jid|]; [|done]. rewrite Hme.
  cbn [generateMessageTag]. unfold sendNode. cbn [core].
  by rewrite bool_decide_eq_true_2 by done.
Qed.

Lemma logout_open (c : Conn) (meId msg : option string) delivered now :
  truthy meId = true → readyState (core c) = OPEN →
  ∃ frame,
    attrs frame !! "id" = Some (uqTagId +:+ pretty (epoch c))
    ∧ (attrs <$> MessagesSend.childrenOf frame)
      = [<["jid" := default "" meId]> {["reason" := "user_initiated"]}]
    ∧ logout c meId msg delivered now
      = if delivered
        then ({| core := end_ ws_close (core c)
                           (Some {| message := if truthy msg then default "" msg
                                               else "Intentional Logout";
                                    statusCode := loggedOut |}) now;
                 epoch := epoch c + 1; sent := sent c ++ [frame] |}, None)
        else ({| core := core c; epoch := epoch c + 1; sent := sent c ++ [frame] |},
              Some sendFailed).
Proof.
  unfold SocketIO.logout, truthy at 1. intros Hme Hopen.
  destruct meId as [jid|]; [|done]. rewrite Hme.
  cbn [generateMessageTag]. unfold sendNode. cbn [core epoch sent].
  rewrite bool_decide_eq_false_2 by (intros X; by apply X).
  eexists. split_and!; [| |by destruct delivered].
  - simpl. rewrite lookup_insert_ne by done.
    rewrite lookup_insert_ne by done. by rewrite lookup_insert_eq.
  - done.
Qed.

(** [logout] on a socket on which [end] has not run.  It ends the socket,
    with status [loggedOut] and the given message (or [Intentional Logout]),
    exactly when it returns normally.  With an account id and a WebSocket
    that is not open it throws [Connection Closed] instead: nothing is sent,
    the socket is not ended and no close event is emitted.  With an account
    id and an open WebSocket one frame is sent, tagged with a fresh message
    tag and naming the account in its [remove-companion-device] child.
    Without an account id nothing is sent and the socket is ended. *)
Theorem logout_ends_or_throws (c : Conn) (meId msg : option string)
    (delivered : bool) (now : Z) :
  closed (core c) = false →
  let r := logout c meId msg delivered now in
  let closing :=
    connection_update
      {| connection := Some close; qr := None;
         lastDisconnect :=
           Some (Some {| message := if truthy msg then default "" msg
                                    else "Intentional Logout";
                         statusCode := loggedOut |}, now) |} in
  (r.2 = None →
     closed (core r.1) = true ∧ emitted (core r.1) = emitted (core c) ++ [closing])
  ∧ (is_Some r.2 → core r.1 = core c)
  ∧ (truthy meId = true → readyState (core c) ≠ OPEN →
     r.2 = Some (notOpen {| message := "Connection Closed";
                            statusCode := connectionClosed |})
     ∧ sent r.1 = sent c)
  ∧ (truthy meId = true → readyState (core c) = OPEN →
     r.2 = (if delivered then None else Some sendFailed)
     ∧ ∃ frame, sent r.1 = sent c ++ [frame]
         ∧ attrs frame !! "id" = Some (uqTagId +:+ pretty (epoch c))
         ∧ (attrs <$> MessagesSend.childrenOf frame)
           = [<["jid" := default "" meId]> {["reason" := "user_initiated"]}])
  ∧ (truthy meId = false → r.2 = None ∧ sent r.1 = sent c).
Proof.
  intros Hlive r closing.
  assert (Hend : ∀ e, closed (end_ ws_close (core c) e now) = true
                      ∧ emitted (end_ ws_close (core c) e now)
                        = emitted (core c)
                          ++ [connection_update
                                {| connection := Some close; qr := None;
                                   lastDisconnect := Some (e, now) |}]).
  { intros e. unfold end_. by rewrite Hlive. }
  destruct (truthy meId) eqn:Hme.
  - destruct (decide (readyState (core c) = OPEN)) as [Hopen|Hopen].
    + destruct (logout_open c meId msg delivered now Hme Hopen)
        as (frame & Hid & Hchild & Hrun).
      subst r. rewrite Hrun. destruct delivered; cbn [fst snd core sent].
      * split_and!; [intros _; apply Hend | by intros [? ?] | done | | done].
        intros _ _. split; [done|]. by exists frame.
      * split_and!; [done | done | done | | done].
        intros _ _. split; [done|]. by exists frame.
    + subst r. rewrite logout_not_open by done. cbn [fst snd core sent].
      split_and!; [done | done | done | done | done].
  - subst r. rewrite logout_no_account by done. cbn [fst snd core sent].
    split_and!; [intros _; apply Hend | by intros [? ?] | done | done | done].
Qed.

End WithConfig.

Lemma query_ids_never_repeat_witness :
  Forall (λ node, truthy (attrs node !! "id") = false)
    [Samples.leaf "iq" [("type", "get")]; Samples.leaf "iq" [("type", "set")]]
  ∧ (assignIds "3EB0." (MoreSamples.freshConn OPEN)
       [Samples.leaf "iq" [("type", "get")]; Samples.leaf "iq" [("type", "set")]]).1
    = [Some "3EB0.1"; Some "3EB0.2"]
  ∧ NoDup (assignIds "3EB0." (MoreSamples.freshConn OPEN)
             [Samples.leaf "iq" [("type", "get")];
              Samples.leaf "iq" [("type", "set")]]).1.
Proof.
  assert (H : Forall (λ node, truthy (attrs node !! "id") = false)
                [Samples.leaf "iq" [("type", "get")];
                 Samples.leaf "iq" [("type", "set")]])
    by (repeat constructor).
  destruct (query_ids_never_repeat "3EB0." (MoreSamples.freshConn OPEN) _ H)
    as (_ & Hnd & _).
  split_and!; [exact H | vm_compute; reflexivity | exact Hnd].
Defined.

Lemma logout_ends_or_throws_witness :
  closed (core (MoreSamples.freshConn CONNECTING)) = false
  ∧ (logout "3EB0." "@s.whatsapp.net" Samples.sampleClose
       (MoreSamples.freshConn CONNECTING) (Some Samples.meJid) None true 50).2
    = Some (notOpen {| message := "Connection Closed";
                       statusCode := connectionClosed |})
  ∧ emitted (core (logout "3EB0." "@s.whatsapp.net" Samples.sampleClose
                     (MoreSamples.freshConn CONNECTING) (Some Samples.meJid)
                     None true 50).1)
    = [].
Proof.
  destruct (logout_ends_or_throws "3EB0." "@s.whatsapp.net" Samples.sampleClose
              (MoreSamples.freshConn CONNECTING) (Some Samples.meJid) None true 50
              eq_refl)
    as (_ & Hcore & Hthrow & _ & _).
  destruct Hthrow as [Hthrow _]; [reflexivity | discriminate |].
  split_and!; [reflexivity | exact Hthrow |].
  rewrite Hcore; [reflexivity | rewrite Hthrow; by eexists].
Defined.

End SocketIOFacts.

(** *** Receipts *)

Module ReceiptFacts.
Import WABinary MessagesSend Receipts MessagesSendFacts.

Lemma lookup_setAttr_ne (k k' : string) v (m : gmap string string) :
  k ≠ k' → setAttr k v m !! k' = m !! k'.
Proof. intros Hne. destruct v; simpl; [by rewrite lookup_insert_ne|done]. Qed.

Lemma lookup_setAttr_eq (k : string) v (m : gmap string string) :
  m !! k = None → setAttr k v m !! k = v.
Proof. intros Hm. destruct v; simpl; [by rewrite lookup_insert_eq|done]. Qed.

Lemma nodesSent_sent (ns : list BinaryNode) :
  nodesSent (reverse (node_sent <$> ns)) = ns.
Proof.
  unfold nodesSent. rewrite reverse_involutive.
  induction ns as [|n ns IH]; [done|].
  cbn [fmap list_fmap omap list_omap]. by rewrite IH.
Qed.

Section WithHost.
Context {Ext : Type} `{!Host Ext}.
Context (isJidUser : string → bool) (unixTimestampSeconds : Ext → Z)
        (aggregateMessageKeysNotFromMe : list WAMessageKey → list ReceiptGroup)
        (query : Ext → BinaryNode → option (BinaryNode * Ext))
        (reduceBinaryNodeToDictionary :
           option (Byte.byte + BinaryNode) → string → gmap string string)
        (S_WHATSAPP_NET : string).

#[local] Abbreviation receiptNode := (receiptNode isJidUser).
#[local] Abbreviation sendReceipt := (sendReceipt isJidUser unixTimestampSeconds).
#[local] Abbreviation sendReceipts :=
  (sendReceipts isJidUser unixTimestampSeconds aggregateMessageKeysNotFromMe).
#[local] Abbreviation fetchPrivacySettings :=
  (fetchPrivacySettings query reduceBinaryNodeToDictionary S_WHATSAPP_NET).
#[local] Abbreviation readMessages :=
  (readMessages isJidUser unixTimestampSeconds aggregateMessageKeysNotFromMe
     query reduceBinaryNodeToDictionary S_WHATSAPP_NET).
#[local] Abbreviation privacyIq := (privacyIq S_WHATSAPP_NET).

Lemma receiptNode_id now jid participant messageIds type :
  attrs (receiptNode now jid participant messageIds type) !! "id" = head messageIds.
Proof.
  unfold Receipts.receiptNode. cbn [attrs].
  repeat match goal with
         | |- context [if ?b then _ else _] => destruct b
         end;
    rewrite ?lookup_setAttr_ne, ?lookup_insert_ne by done;
    by apply lookup_setAttr_eq.
Qed.

Lemma receiptIds_receiptNode now jid participant messageIds type :
  receiptIds (receiptNode now jid participant messageIds type) = messageIds
  ∧ (content (receiptNode now jid participant messageIds type) = absent
     ↔ (length messageIds ≤ 1)%nat).
Proof.
  unfold receiptIds. rewrite receiptNode_id.
  unfold Receipts.receiptNode, childrenOf. cbn [content tag].
  destruct messageIds as [|m [|m' rest]]; cbn [head tail option_list length].
  - split; [done|]. split; [lia|done].
  - split; [done|]. split; [lia|done].
  - split; [|split; [done|lia]].
    rewrite filter_cons_True by done. rewrite filter_nil.
    cbn [mbind list_bind content app]. rewrite app_nil_r. simpl. f_equal. f_equal.
    induction rest as [|r rest IH]; [done|].
    cbn [fmap list_fmap omap list_omap attrs]. rewrite lookup_singleton_eq.
    by rewrite IH.
Qed.

(** A receipt can be read back: its [id] attribute followed by the ids of
    the [item]s of its [list] child are the message ids it was built for, in
    order, whatever the type and the addressing; it has no content when
    there is at most one id. *)
Theorem receipt_acknowledges_ids now jid participant messageIds type :
  receiptIds (receiptNode now jid participant messageIds type) = messageIds
  ∧ (content (receiptNode now jid participant messageIds type) = absent
     ↔ (length messageIds ≤ 1)%nat).
Proof. apply receiptIds_receiptNode. Qed.

Lemma receiptNode_read now jid participant messageIds (type : string) :
  type = "read" ∨ type = "read-self" →
  let node := receiptNode now jid participant messageIds (Some type) in
  tag node = "receipt"
  ∧ attrs node !! "type" = Some type
  ∧ attrs node !! "t" = Some (pretty now)
  ∧ attrs node !! "to" = Some jid
  ∧ attrs node !! "recipient" = None
  ∧ attrs node !! "participant" = (if truthy participant then participant else None).
Proof.
  intros Htype. unfold Receipts.receiptNode. cbn [attrs tag].
  rewrite (bool_decide_eq_true_2 (_ ∨ _)) by (destruct Htype; subst; auto).
  rewrite (bool_decide_eq_false_2 (Some type = Some "sender"))
    by (destruct Htype; subst; done).
  assert (Hty : truthy (Some type) = true) by (destruct Htype; subst; done).
  rewrite Hty. cbn [andb setAttr].
  assert (Hid : ∀ k, k ≠ "id" → setAttr "id" (head messageIds) ∅ !! k = None).
  { intros k Hk. by rewrite lookup_setAttr_ne, lookup_empty by done. }
  destruct (truthy participant) eqn:Hp; split_and!; try done.
  - by rewrite lookup_insert_eq.
  - rewrite lookup_insert_ne, lookup_setAttr_ne, lookup_insert_ne by done.
    by rewrite lookup_insert_eq.
  - rewrite lookup_insert_ne, lookup_setAttr_ne by done. by rewrite lookup_insert_eq.
  - rewrite lookup_insert_ne, lookup_setAttr_ne, !lookup_insert_ne by done.
    by apply Hid.
  - rewrite lookup_insert_ne by done. apply lookup_setAttr_eq.
    rewrite !lookup_insert_ne by done. by apply Hid.
  - by rewrite lookup_insert_eq.
  - rewrite !lookup_insert_ne by done. by rewrite lookup_insert_eq.
  - rewrite lookup_insert_ne by done. by rewrite lookup_insert_eq.
  - rewrite !lookup_insert_ne by done. by apply Hid.
  - rewrite !lookup_insert_ne by done. by apply Hid.
Qed.

Lemma sendReceipt_Ok jid participant messageIds type (w : World Ext) u w' :
  sendReceipt jid participant messageIds type w = Ok (u, w') →
  log w'
  = node_sent (receiptNode (unixTimestampSeconds (ext w)) jid participant
                 messageIds type) :: log w
  ∧ me w' = me w ∧ senderKeyMemory w' = senderKeyMemory w
  ∧ userDevicesCache w' = userDevicesCache w.
Proof.
  unfold Receipts.sendReceipt. intros Hrun. repeat inv_step.
  split_and!; chain.
Qed.

(** One receipt per group, in the order of the groups, each built at the
    clock reading of its turn. *)
Lemma forEach_sendReceipt type (groups : list ReceiptGroup) :
  ∀ (w : World Ext) us w',
  forEach (λ g, sendReceipt (rg_jid g) (rg_participant g) (rg_messageIds g) type)
          groups w = Ok (us, w') →
  ∃ nows,
    length nows = length groups
    ∧ log w'
      = reverse (node_sent
                   <$> zip_with (λ now g, receiptNode now (rg_jid g)
                                            (rg_participant g) (rg_messageIds g) type)
                                nows groups)
        ++ log w
    ∧ me w' = me w ∧ senderKeyMemory w' = senderKeyMemory w
    ∧ userDevicesCache w' = userDevicesCache w.
Proof.
  induction groups as [|g groups IH]; intros w us w' Hrun; simpl in Hrun.
  - inv_step. by exists [].
  - repeat inv_step.
    match goal with Hx : sendReceipt _ _ _ _ _ = Ok _ |- _ =>
      apply sendReceipt_Ok in Hx as (Hl1 & Hm1 & Hs1 & Hc1) end.
    match goal with Hx : forEach _ _ _ = Ok _ |- _ =>
      apply IH in Hx as (nows & Hlen & Hl2 & Hm2 & Hs2 & Hc2) end.
    exists (unixTimestampSeconds (ext w) :: nows).
    split_and!; [simpl; lia | | congruence | congruence | congruence].
    rewrite Hl2, Hl1. cbn [zip_with fmap list_fmap]. rewrite reverse_cons.
    by rewrite <- app_assoc.
Qed.

(** [sendReceipts] sends one receipt for every group that
    [aggregateMessageKeysNotFromMe] makes of the keys, in their order and
    nothing else; read back, the receipts acknowledge the message ids of
    the groups. *)
Theorem sendReceipts_one_per_group keys type (w : World Ext) us w' :
  sendReceipts keys type w = Ok (us, w') →
  ∃ new,
    log w' = new ++ log w
    ∧ Forall (λ e, ∃ n, e = node_sent n ∧ tag n = "receipt") new
    ∧ length (nodesSent new) = length (aggregateMessageKeysNotFromMe keys)
    ∧ receiptIds <$> nodesSent new
      = rg_messageIds <$> aggregateMessageKeysNotFromMe keys.
Proof.
  unfold Receipts.sendReceipts. intros Hrun.
  apply forEach_sendReceipt in Hrun as (nows & Hlen & Hlog & _).
  eexists. split; [exact Hlog|].
  rewrite nodesSent_sent.
  set (groups := aggregateMessageKeysNotFromMe keys) in *. clearbody groups.
  split_and!.
  - apply Forall_reverse, Forall_fmap, Forall_forall. intros n Hn.
    apply elem_of_zip_with in Hn as (now & g & -> & _). by eexists.
  - rewrite length_zip_with. lia.
  - clear Hlog. revert nows Hlen.
    induction groups as [|g groups IH]; intros [|now nows] Hlen; try done.
    cbn [zip_with fmap list_fmap].
    rewrite (proj1 (receiptIds_receiptNode _ _ _ _ _)).
    f_equal. apply IH. simpl in Hlen. lia.
Qed.

Lemma fetchPrivacySettings_Ok privacySettings (w : World Ext) settings w' :
  fetchPrivacySettings privacySettings false w = Ok (settings, w') →
  match privacySettings with
  | Some s => settings = s ∧ w' = w
  | None =>
      log w' = node_sent privacyIq :: log w
      ∧ ∃ result, fst <$> query (ext w) privacyIq = Some result
          ∧ settings
            = reduceBinaryNodeToDictionary (firstOf (content result)) "category"
  end.
Proof.
  unfold Receipts.fetchPrivacySettings.
  destruct privacySettings as [s|]; intros Hrun; repeat inv_step; [done|].
  split; [chain|]. eexists. split; [|done].
  match goal with Hq : query (ext ?w0) _ = Some _, Hx : ext ?w0 = ext w |- _ =>
    rewrite <- Hx, Hq end. done.
Qed.

(** [readMessages] asks for the privacy settings only when none are held
    yet, and then sends one receipt per group of keys and nothing else.
    Every receipt is of type [read] when the [readreceipts] setting is [all]
    and of type [read-self] otherwise, carries a timestamp, is addressed to
    the chat of its group and acknowledges the message ids of its group. *)
Theorem readMessages_receipts privacySettings keys (w : World Ext) settings w' :
  readMessages privacySettings keys w = Ok (settings, w') →
  let readType :=
    if bool_decide (settings !! "readreceipts" = Some "all") then "read"
    else "read-self" in
  ∃ receipts,
    log w'
    = reverse (node_sent
                 <$> match privacySettings with
                     | Some _ => []
                     | None => [privacyIq]
                     end ++ receipts)
      ++ log w
    ∧ (∀ s, privacySettings = Some s → settings = s)
    ∧ Forall2 (λ n g, tag n = "receipt"
                      ∧ attrs n !! "type" = Some readType
                      ∧ is_Some (attrs n !! "t")
                      ∧ attrs n !! "to" = Some (rg_jid g)
                      ∧ attrs n !! "recipient" = None
                      ∧ receiptIds n = rg_messageIds g)
              receipts (aggregateMessageKeysNotFromMe keys).
Proof.
  intros Hrun readType. unfold Receipts.readMessages in Hrun. repeat inv_step.
  match goal with Hx : fetchPrivacySettings _ _ _ = Ok _ |- _ =>
    apply fetchPrivacySettings_Ok in Hx as Hfetch end.
  match goal with Hx : sendReceipts _ _ _ = Ok _ |- _ =>
    unfold Receipts.sendReceipts in Hx;
    apply forEach_sendReceipt in Hx as (nows & Hlen & Hlog & _) end.
  eexists. split_and!.
  - rewrite Hlog. destruct privacySettings as [s|].
    + destruct Hfetch as [_ ->]. done.
    + destruct Hfetch as [-> _]. cbn [app fmap list_fmap].
      rewrite reverse_cons, <- app_assoc. done.
  - intros s ->. by destruct Hfetch.
  - set (groups := aggregateMessageKeysNotFromMe keys) in *. clearbody groups.
    clear Hlog. revert nows Hlen.
    induction groups as [|g groups IH]; intros nows Hlen;
      destruct nows as [|now nows]; try discriminate Hlen.
    + constructor.
    + cbn [zip_with]. constructor; [|apply IH; simpl in Hlen; lia].
      fold readType.
      destruct (receiptNode_read now (rg_jid g) (rg_participant g) (rg_messageIds g)
                  readType) as (Ht & Hty & Hts & Hto & Hre & _).
      { subst readType. case_bool_decide; auto. }
      split_and!; [done | done | by rewrite Hts | done | done |].
      apply receiptIds_receiptNode.
Qed.

End WithHost.

Lemma sendReceipts_one_per_group_witness :
  ∃ w',
    sendReceipts MoreSamples.sampleIsJidUser MoreSamples.sampleClock
      MoreSamples.sampleAggregate MoreSamples.sampleKeys (Some "played")
      (Samples.sampleWorld Samples.peerReply [])
    = Ok ([()], w')
    ∧ ∃ new,
        log w' = new ++ log (Samples.sampleWorld Samples.peerReply [])
        ∧ Forall (λ e, ∃ n, e = node_sent n ∧ tag n = "receipt") new
        ∧ length (nodesSent new)
          = length (MoreSamples.sampleAggregate MoreSamples.sampleKeys)
        ∧ receiptIds <$> nodesSent new
          = rg_messageIds <$> MoreSamples.sampleAggregate MoreSamples.sampleKeys.
Proof.
  eexists. split; [vm_compute; reflexivity|].
  apply (sendReceipts_one_per_group MoreSamples.sampleIsJidUser MoreSamples.sampleClock
           MoreSamples.sampleAggregate MoreSamples.sampleKeys (Some "played")
           (Samples.sampleWorld Samples.peerReply []) [()]).
  vm_compute; reflexivity.
Defined.

Lemma readMessages_receipts_witness :
  ∃ w',
    readMessages MoreSamples.sampleIsJidUser MoreSamples.sampleClock
      MoreSamples.sampleAggregate MoreSamples.sampleQuery MoreSamples.sampleReduce
      "@s.whatsapp.net" (Some {["readreceipts" := "none"]}) MoreSamples.sampleKeys
      (Samples.sampleWorld Samples.peerReply [])
    = Ok ({["readreceipts" := "none"]}, w')
    ∧ (receiptIds <$> nodesSent (log w')) = [["A1"; "A2"]]
    ∧ ((λ n, attrs n !! "type") <$> nodesSent (log w')) = [Some "read-self"]
    ∧ ∃ receipts,
        log w'
        = reverse (node_sent <$> [] ++ receipts)
          ++ log (Samples.sampleWorld Samples.peerReply [])
        ∧ (∀ s : gmap string string,
             Some ({["readreceipts" := "none"]} : gmap string string) = Some s →
             {["readreceipts" := "none"]} = s)
        ∧ Forall2 (λ n g, tag n = "receipt"
                          ∧ attrs n !! "type"
                            = Some (if bool_decide
                                         (({["readreceipts" := "none"]}
                                           : gmap string string) !! "readreceipts"
                                          = Some "all")
                                    then "read" else "read-self")
                          ∧ is_Some (attrs n !! "t")
                          ∧ attrs n !! "to" = Some (rg_jid g)
                          ∧ attrs n !! "recipient" = None
                          ∧ receiptIds n = rg_messageIds g)
                  receipts (MoreSamples.sampleAggregate MoreSamples.sampleKeys).
Proof.
  eexists. split_and!; [vm_compute; reflexivity | vm_compute; reflexivity
    | vm_compute; reflexivity |].
  apply (readMessages_receipts MoreSamples.sampleIsJidUser MoreSamples.sampleClock
           MoreSamples.sampleAggregate MoreSamples.sampleQuery MoreSamples.sampleReduce
           "@s.whatsapp.net" (Some {["readreceipts" := "none"]}) MoreSamples.sampleKeys
           (Samples.sampleWorld Samples.peerReply []) {["readreceipts" := "none"]}).
  vm_compute; reflexivity.
Defined.

End ReceiptFacts.

(** *** The media connection *)

Module MediaConnFacts.
Import WABinary MessagesSend MediaConn.

Section WithHost.
Context {Ext : Type} `{!Host Ext}.
Context (query : Ext → BinaryNode → option (BinaryNode * Ext))
        (nowMs : Ext → Z)
        (getBinaryNodeChildren : option BinaryNode → string → list BinaryNode)
        (S_WHATSAPP_NET : string).

#[local] Abbreviation refreshMediaConn :=
  (refreshMediaConn query nowMs getBinaryNodeChildren S_WHATSAPP_NET).
#[local] Abbreviation refreshAll :=
  (refreshAll query nowMs getBinaryNodeChildren S_WHATSAPP_NET).
#[local] Abbreviation mediaIq := (mediaIq S_WHATSAPP_NET).

(** As long as the info that [mediaConn] resolved to has not expired (its
    [ttl] in seconds has not passed since [fetchDate], or its [ttl] was not
    a number), calls that do not force a fetch return that same info and
    send nothing, however many they are. *)
Theorem media_conn_reused_while_fresh (between : World Ext → World Ext)
    (media : MediaConnInfo) (flags : list bool) (w : World Ext) :
  (∀ w', expired media (nowMs (ext (between w'))) = false) →
  Forall (λ forceGet, forceGet = false) flags →
  refreshAll between flags (resolved media, w)
  = (resolved media, Nat.iter (length flags) between w).
Proof.
  intros Hfresh Hflags. revert w.
  induction Hflags as [|f flags -> _ IH] using Forall_ind; intros w; [done|].
  unfold MediaConn.refreshAll in *. cbn [foldl fst snd length].
  unfold MediaConn.refreshMediaConn at 2. unfold mustFetch. rewrite Hfresh.
  cbn [orb]. rewrite IH. by rewrite Nat.iter_succ_r.
Qed.

(** When the query of a fetch is rejected, the call returns the rejection
    and [mediaConn] keeps it: every later call, forced or not and whatever
    the clock says, returns that same rejection and sends nothing. *)
Theorem media_conn_failure_sticks (mediaConn : Promise MediaConnInfo)
    (forceGet : bool) (w : World Ext) :
  (∀ e, mediaConn ≠ rejected e) →
  mustFetch (match mediaConn with resolved m => Some m | _ => None end)
            forceGet (nowMs (ext w)) = true →
  query (ext w) mediaIq = None →
  let r := refreshMediaConn mediaConn forceGet w in
  r.1 = rejected Rejected
  ∧ log r.2 = node_sent mediaIq :: log w
  ∧ ∀ between flags,
      refreshAll between flags r
      = (rejected Rejected, Nat.iter (length flags) between r.2).
Proof.
  intros Hnot Hmust Hq r.
  assert (Hr : r = (rejected Rejected,
                    {| ext := ext w; me := me w; senderKeyMemory := senderKeyMemory w;
                       userDevicesCache := userDevicesCache w;
                       log := node_sent mediaIq :: log w |})).
  { subst r. unfold MediaConn.refreshMediaConn.
    destruct mediaConn as [|m|e]; [| |by destruct (Hnot e)];
      rewrite Hmust; unfold fetchMediaConn; by rewrite Hq. }
  rewrite Hr. split_and!; [done | done |].
  intros between flags. generalize ({| ext := ext w; me := me w;
    senderKeyMemory := senderKeyMemory w; userDevicesCache := userDevicesCache w;
    log := node_sent mediaIq :: log w |}). clear.
  induction flags as [|f flags IH]; intros w1; [done|].
  unfold MediaConn.refreshAll in *. cbn [foldl fst snd length].
  unfold MediaConn.refreshMediaConn at 2. rewrite IH. by rewrite Nat.iter_succ_r.
Qed.

End WithHost.

Lemma media_conn_reused_while_fresh_witness :
  (∀ w' : World Samples.SampleExt,
     expired MoreSamples.sampleMedia (MoreSamples.sampleNowMs (ext (id w'))) = false)
  ∧ Forall (λ forceGet, forceGet = false) [false; false; false]
  ∧ refreshAll MoreSamples.sampleQuery MoreSamples.sampleNowMs
      MoreSamples.sampleChildren "@s.whatsapp.net" id [false; false; false]
      (resolved MoreSamples.sampleMedia, Samples.sampleWorld Samples.peerReply [])
    = (resolved MoreSamples.sampleMedia,
       Nat.iter 3 id (Samples.sampleWorld Samples.peerReply [])).
Proof.
  assert (H1 : ∀ w' : World Samples.SampleExt,
             expired MoreSamples.sampleMedia
               (MoreSamples.sampleNowMs (ext (id w'))) = false)
    by (intros w'; reflexivity).
  assert (H2 : Forall (λ forceGet, forceGet = false) [false; false; false])
    by (repeat constructor).
  split_and!; [exact H1 | exact H2 |].
  apply (media_conn_reused_while_fresh MoreSamples.sampleQuery MoreSamples.sampleNowMs
           MoreSamples.sampleChildren "@s.whatsapp.net" id MoreSamples.sampleMedia
           [false; false; false] (Samples.sampleWorld Samples.peerReply []) H1 H2).
Defined.

Lemma media_conn_failure_sticks_witness :
  (refreshMediaConn MoreSamples.noAnswer MoreSamples.sampleNowMs
     MoreSamples.sampleChildren "@s.whatsapp.net" unassigned false
     (Samples.sampleWorld Samples.peerReply [])).1
  = rejected Rejected
  ∧ (refreshAll MoreSamples.noAnswer MoreSamples.sampleNowMs
       MoreSamples.sampleChildren "@s.whatsapp.net" id [true; false]
       (refreshMediaConn MoreSamples.noAnswer MoreSamples.sampleNowMs
          MoreSamples.sampleChildren "@s.whatsapp.net" unassigned false
          (Samples.sampleWorld Samples.peerReply []))).1
    = rejected Rejected
  ∧ length (log (refreshAll MoreSamples.noAnswer MoreSamples.sampleNowMs
                   MoreSamples.sampleChildren "@s.whatsapp.net" id [true; false]
                   (refreshMediaConn MoreSamples.noAnswer MoreSamples.sampleNowMs
                      MoreSamples.sampleChildren "@s.whatsapp.net" unassigned false
                      (Samples.sampleWorld Samples.peerReply []))).2)
    = 1%nat.
Proof.
  destruct (media_conn_failure_sticks MoreSamples.noAnswer MoreSamples.sampleNowMs
              MoreSamples.sampleChildren "@s.whatsapp.net" unassigned false
              (Samples.sampleWorld Samples.peerReply []))
    as (Hfirst & Hlog & Hlater); [done | reflexivity | reflexivity |].
  split_and!; [exact Hfirst | by rewrite Hlater | rewrite Hlater; reflexivity].
Defined.

End MediaConnFacts.

(** *** Device discovery and its cache *)

Module USyncFacts.
Import WABinary MessagesSend MessagesSendFacts.


Lemma remove_dups_NoDup `{EqDecision A} (l : list A) :
  NoDup l → remove_dups l = l.
Proof.
  induction 1 as [|x l Hx _ IH]; [done|].
  simpl. destruct (decide_rel elem_of x l); [done|]. by rewrite IH.
Qed.

Section WithHost.
Context {Ext : Type} `{!Host Ext}.

(** [getUSyncDevices], taken apart with what it leaves in the cache. *)
Lemma getUSyncDevices_cache jids useCache ignoreZeroDevices (w : World Ext) ds w' :
  getUSyncDevices jids useCache ignoreZeroDevices w = Ok (ds, w') →
  ∃ cached users result meId extracted,
    foldl (lookupCached useCache (userDevicesCache w)) (Ok ([], []))
          (remove_dups jids) = Ok (cached, users)
    ∧ fst <$> usyncQuery (ext w) users = Some result
    ∧ me w = Some meId
    ∧ Signal.extractDeviceJids result meId ignoreZeroDevices = Ok extracted
    ∧ ds = cached ++ extracted
    ∧ log w' = usync_query users :: log w
    ∧ userDevicesCache w' = foldl addToDeviceMap ∅ extracted ∪ userDevicesCache w.
Proof.
  unfold getUSyncDevices. intros Hrun. repeat inv_step. split_pairs.
  repeat inv_step.
  match goal with Hx : setUserDevicesCache _ _ = Ok _ |- _ =>
    injection Hx as _ <- end.
  match goal with Hq : usyncQuery (ext ?w0) _ = Some _, Hx : ext ?w0 = ext w |- _ =>
    rewrite Hx in Hq end.
  eexists _, _, _, _, _. split_and!; try done.
  - match goal with Hq : usyncQuery _ _ = Some _ |- _ => by rewrite Hq end.
  - chain.
  - chain.
  - cbn [userDevicesCache]. f_equal. congruence.
Qed.


Lemma lookupCached_all_cached (cache : gmap string (list JidWithDevice))
    (jids : list string) (lists : list (list JidWithDevice)) :
  Forall2 (λ jid devices, ∃ d, jidDecode jid = Some d
                               ∧ cache !! fj_user d = Some devices) jids lists →
  ∀ acc users,
    foldl (lookupCached true cache) (Ok (acc, users)) jids
    = Ok (acc ++ concat lists, users).
Proof.
  induction 1 as [|jid devices jids lists (d & Hd & Hc) _ IH]; intros acc users.
  - simpl. by rewrite app_nil_r.
  - cbn [foldl concat]. unfold lookupCached at 2. rewrite Hd. cbn [fmap option_fmap option_map].
    rewrite Hc, IH. by rewrite <- app_assoc.
Qed.

(** Jids whose users are all in the cache, asked for with the cache in use:
    the devices come from the cache, in the order of the jids, followed by
    whatever the answer to the query still yields; the query is sent all
    the same, with an empty list of users. *)
Theorem usync_cached_users_not_asked (jids : list string)
    (lists : list (list JidWithDevice)) ignoreZeroDevices (w : World Ext) ds w' :
  NoDup jids →
  Forall2 (λ jid devices, ∃ d, jidDecode jid = Some d
                               ∧ userDevicesCache w !! fj_user d = Some devices)
          jids lists →
  getUSyncDevices jids true ignoreZeroDevices w = Ok (ds, w') →
  ∃ result meId extracted,
    log w' = usync_query [] :: log w
    ∧ fst <$> usyncQuery (ext w) [] = Some result
    ∧ me w = Some meId
    ∧ Signal.extractDeviceJids result meId ignoreZeroDevices = Ok extracted
    ∧ ds = concat lists ++ extracted.
Proof.
  intros Hnd Hall Hrun.
  apply getUSyncDevices_cache in Hrun
    as (cached & users & result & meId & extracted & Hc & Hq & Hme & Hex & Hds & Hlog & _).
  rewrite remove_dups_NoDup in Hc by done.
  rewrite (lookupCached_all_cached _ _ _ Hall) in Hc. simplify_eq/=.
  by exists result, meId, extracted.
Qed.

End WithHost.


Lemma usync_cached_users_not_asked_witness :
  ∃ w1 w2,
    getUSyncDevices [Samples.meJid; Samples.peerJid] true true
      (Samples.sampleWorld Samples.peerReply [])
    = Ok ([{| user := "111"; device := Some 1 |}], w1)
    ∧ getUSyncDevices [Samples.peerJid] true true w1
      = Ok ([{| user := "111"; device := Some 1 |};
             {| user := "111"; device := Some 1 |}], w2)
    ∧ ∃ result meId extracted,
        log w2 = usync_query [] :: log w1
        ∧ fst <$> usyncQuery (ext w1) [] = Some result
        ∧ me w1 = Some meId
        ∧ Signal.extractDeviceJids result meId true = Ok extracted
        ∧ [{| user := "111"; device := Some 1 |};
           {| user := "111"; device := Some 1 |}]
          = concat [[{| user := "111"; device := Some 1 |}]] ++ extracted.
Proof.
  eexists _, _. split_and!; [vm_compute; reflexivity | vm_compute; reflexivity |].
  apply (usync_cached_users_not_asked [Samples.peerJid]
           [[{| user := "111"; device := Some 1 |}]] true).
  - repeat constructor. set_solver.
  - constructor; [|constructor]. eexists. split; vm_compute; reflexivity.
  - vm_compute; reflexivity.
Defined.

End USyncFacts.

(** *** More on [relayMessage] *)

Module RelayFacts.
Import WABinary MessagesSend MessagesSendFacts.

Section WithHost.
Context {Ext : Type} `{!Host Ext}.

(** A list message whose list type is unset (or is one that the [ListType]
    enumeration does not name) is never sent: unless the message is also a
    template message, [getButtonArgs] throws when the [biz] node is built, so
    [relayMessage] throws and no stanza goes out. *)
Theorem list_without_type_never_sent jid (c : MessageContent) type opts
    (w : World Ext) :
  listMessage c = Some type →
  type = 0 ∨ listTypeName type = None →
  templateMessage c = false →
  ∃ e, relayMessage jid (contentMessage c) opts w = Throw e.
Proof.
  intros Hlist Htype Htemplate.
  destruct (relayMessage jid (contentMessage c) opts w) as [[msgId w']|e] eqn:Hrun;
    [|by exists e].
  exfalso.
  apply relayMessage_Ok in Hrun
    as (meId & decoded & additional & devices & w1 & ps & bnc & flag & w2 & content
        & _ & _ & _ & _ & _ & _ & _ & Hpush & _).
  unfold pushBiz, getButtonType, getButtonArgs in Hpush.
  rewrite Hlist, Htemplate in Hpush.
  rewrite (bool_decide_eq_true_2 (is_Some (Some type))) in Hpush by eauto.
  assert (Hargs : (if bool_decide (type = 0) then Throw Rejected
                   else match listTypeName type with
                        | Some n => Ok (<["v" := "2"]> ({["type" := n]} : gmap string string))
                        | None => Throw TypeError
                        end)
                  = Throw (if bool_decide (type = 0) then Rejected else TypeError)).
  { case_bool_decide as H0; [done|]. destruct Htype as [?|Hn]; [done|by rewrite Hn]. }
  rewrite Hargs in Hpush.
  destruct (buttonsMessage c), (buttonsResponseMessage c),
    (interactiveResponseMessage c); discriminate Hpush.
Qed.

(** A 1-1 relay that returns has left the sender-key memory as it was and
    has not read it; the stanza it sent last is a [message] whose [id] is
    the message id and whose [type] is [text], unless
    [additionalAttributes] names these attributes and so replaces them;
    without a retry participant its [to] is the peer's user jid, whatever
    [additionalAttributes] holds. *)
Theorem direct_relay_leaves_memory jid decoded message opts (w : World Ext)
    msgId w' :
  jidDecode jid = Some decoded → fj_server decoded ≠ "g.us" →
  relayMessage jid message opts w = Ok (msgId, w') →
  senderKeyMemory w' = senderKeyMemory w
  ∧ ∃ stanza new,
      log w' = node_sent stanza :: new ++ log w
      ∧ hasKind KMemoryRead new = false
      ∧ tag stanza = "message"
      ∧ (∀ k, k ∈ ["id"; "type"] →
              attrs stanza !! k
              = match default ∅ (additionalAttributes opts) !! k with
                | Some v => Some v
                | None => if bool_decide (k = "id") then Some msgId else Some "text"
                end)
      ∧ (participant opts = None →
         attrs stanza !! "to"
         = Some (jidEncode (fj_user decoded) "s.whatsapp.net" None)).
Proof.
  intros Hdec Hng Hrun.
  apply relayMessage_Ok in Hrun
    as (meId & decoded' & additional & devices & w1 & ps & bnc & flag & w2 & content
        & Hme & Hdec' & Hid & Hrt & He1 & Hc1 & Hbranch & Hpush & Hlog & _ & Hmem).
  assert (decoded' = decoded) as -> by congruence.
  rewrite bool_decide_eq_false_2 in Hrt, Hbranch, Hlog by done.
  apply retryTarget_Ok in Hrt as (_ & Hrt).
  apply relayDirect_Ok in Hbranch
    as (sender & devices' & wd & found & rest & _ & _ & _ & _ & _
        & Hef & Her & Hrf & _ & _ & Hrr & _).
  pose proof (extends_trans _ _ _ _ _ Hef Her) as He2.
  split; [rewrite Hmem; chain|].
  eexists _, (rest ++ found). split_and!.
  - rewrite Hlog. f_equal. chain.
  - kinds.
  - done.
  - intros k Hk. cbn [attrs].
    assert (Hadd : default ∅ additional !! k
                   = default ∅ (additionalAttributes opts) !! k).
    { destruct (participant opts);
        [destruct Hrt as (d & _ & _ & ->)|destruct Hrt as [_ ->]]; [|done].
      simpl. apply lookup_insert_ne. intros <-. set_solver. }
    assert (Hbase : (default ∅ additional
                     ∪ <["id" := msgId]> ({["type" := "text"]} : gmap string string))
                    !! k
                    = match default ∅ (additionalAttributes opts) !! k with
                      | Some v => Some v
                      | None => if bool_decide (k = "id") then Some msgId
                                else Some "text"
                      end).
    { rewrite lookup_union, Hadd.
      destruct (default ∅ (additionalAttributes opts) !! k) as [v|]; simpl.
      - by rewrite union_Some_l.
      - rewrite (left_id None _).
        apply elem_of_cons in Hk as [->|Hk]; [by rewrite lookup_insert_eq|].
        apply list_elem_of_singleton in Hk as ->.
        rewrite lookup_insert_ne by done. by rewrite lookup_singleton_eq. }
    unfold stanzaAttrs.
    destruct (participant opts);
      [destruct (isJidGroup _); [|destruct (areJidsSameUser _ _)]|];
      rewrite ?lookup_insert_ne by (intros <-; set_solver); exact Hbase.
  - intros Hp. rewrite Hp in *. cbn [attrs]. unfold stanzaAttrs.
    by rewrite lookup_insert_eq.
Qed.

End WithHost.

Lemma list_without_type_never_sent_witness :
  listMessage MoreSamples.listWithoutType = Some 0
  ∧ templateMessage MoreSamples.listWithoutType = false
  ∧ relayMessage Samples.peerJid (contentMessage MoreSamples.listWithoutType)
      Samples.plainSend (Samples.sampleWorld Samples.peerReply [])
    = Throw Rejected
  ∧ ∃ e, relayMessage Samples.peerJid (contentMessage MoreSamples.listWithoutType)
           Samples.plainSend (Samples.sampleWorld Samples.peerReply [])
         = Throw e.
Proof.
  split_and!; [reflexivity | reflexivity | vm_compute; reflexivity |].
  apply (list_without_type_never_sent Samples.peerJid MoreSamples.listWithoutType 0
           Samples.plainSend (Samples.sampleWorld Samples.peerReply []));
    [reflexivity | by left | reflexivity].
Defined.

Lemma direct_relay_leaves_memory_witness :
  ∃ w',
    relayMessage Samples.peerJid Samples.textMessage MoreSamples.overridingSend
      (Samples.sampleWorld Samples.peerReply [])
    = Ok ("MSG1", w')
    ∧ ((λ n, (attrs n !! "to", attrs n !! "id"))
         <$> Samples.lastSent (Ok ("MSG1", w')))
      = Some (Some "111@s.whatsapp.net", Some "OTHER")
    ∧ senderKeyMemory w' = senderKeyMemory (Samples.sampleWorld Samples.peerReply [])
    ∧ ∃ stanza new,
        log w' = node_sent stanza :: new ++ log (Samples.sampleWorld Samples.peerReply [])
        ∧ hasKind KMemoryRead new = false
        ∧ tag stanza = "message"
        ∧ (∀ k, k ∈ ["id"; "type"] →
                attrs stanza !! k
                = match default ∅ (additionalAttributes MoreSamples.overridingSend) !! k
                  with
                  | Some v => Some v
                  | None => if bool_decide (k = "id") then Some "MSG1" else Some "text"
                  end)
        ∧ (participant MoreSamples.overridingSend = None →
           attrs stanza !! "to"
           = Some (jidEncode (Ext := Samples.SampleExt) "111" "s.whatsapp.net" None)).
Proof.
  eexists. split; [vm_compute; reflexivity|]. split; [vm_compute; reflexivity|].
  apply (direct_relay_leaves_memory Samples.peerJid
           {| fj_user := "111"; fj_server := "s.whatsapp.net"; fj_device := None |}
           Samples.textMessage MoreSamples.overridingSend
           (Samples.sampleWorld Samples.peerReply []) "MSG1");
    [reflexivity | discriminate | vm_compute; reflexivity].
Defined.

End RelayFacts.

(** *** [sendMessage] *)

Module SendMessageFacts.
Import WABinary MessagesSend MessagesSendFacts SendMessage.

Section WithHost.
Context {Ext : Type} `{!Host Ext}.
Context (generateWAMessage :
           Ext → string → AnyMessageContent → string → option (WAMessage * Ext))
        (groupToggleEphemeral : Ext → string → Z → option Ext)
        (WA_DEFAULT_EPHEMERAL : Z)
        (isJidGroupOfNothing : bool)
        (emitOwnEvents : bool).

#[local] Abbreviation sendMessage :=
  (sendMessage generateWAMessage groupToggleEphemeral WA_DEFAULT_EPHEMERAL
     isJidGroupOfNothing emitOwnEvents).
#[local] Abbreviation deleteAttributes := (deleteAttributes isJidGroupOfNothing).

Lemma deleteAttributes_lookup content k :
  deleteAttributes content !! k
  = if bool_decide (k = "edit") then
      match delete content with
      | Some key =>
          Some (if from_option isJidGroup isJidGroupOfNothing (Receipts.remoteJid key)
                   && negb (Receipts.fromMe key)
                then "8" else "7")
      | None => None
      end
    else None.
Proof.
  unfold SendMessage.deleteAttributes.
  destruct (delete content) as [key|]; [|by case_bool_decide].
  case_bool_decide as Hk; [subst k|];
    destruct (_ && _); by rewrite ?lookup_singleton_eq, ?lookup_singleton_ne.
Qed.

(** The message stanza of a [sendMessage] carries [edit] exactly for a
    delete: "8" when the deleted message is in a group and is not the
    account's own, "7" otherwise; its [id] is the id of the generated
    message key.  Content that sets [disappearingMessagesInChat], sent to a
    group, is no message at all: the call toggles the group's ephemeral
    setting (to the default duration for [true], to 0 for [false], to the
    number given otherwise), sends no stanza and returns nothing. *)
Theorem sendMessage_outcome jid content cachedGroupMetadata (w : World Ext) r w' :
  sendMessage jid content cachedGroupMetadata w = Ok (r, w') →
  match r with
  | None =>
      ∃ d, disappearingMessagesInChat content = Some d
           ∧ isJidGroup jid = true
           ∧ groupToggleEphemeral (ext w) jid (ephemeralValue WA_DEFAULT_EPHEMERAL d)
             = Some (ext w')
           ∧ log w' = log w
  | Some sent =>
      (disappearingMessagesInChat content = None ∨ isJidGroup jid = false)
      ∧ upsertScheduled sent = emitOwnEvents
      ∧ ∃ stanza new,
          log w' = node_sent stanza :: new ++ log w
          ∧ tag stanza = "message"
          ∧ attrs stanza !! "edit"
            = match delete content with
              | Some key =>
                  Some (if from_option isJidGroup isJidGroupOfNothing
                             (Receipts.remoteJid key)
                           && negb (Receipts.fromMe key)
                        then "8" else "7")
              | None => None
              end
          ∧ (Receipts.truthy (Receipts.id (key (fullMsg sent))) = true →
             attrs stanza !! "id" = Receipts.id (key (fullMsg sent)))
  end.
Proof.
  unfold SendMessage.sendMessage. intros Hrun. repeat inv_step.
  assert (Hrelay :
    ∀ r w',
      bind (withExt Rejected (λ x, generateWAMessage x jid content a0))
        (λ fullMsg,
           bind (nonNull (message fullMsg))
             (λ relayed,
                bind (relayMessage jid relayed
                        {| messageId := Receipts.id (key fullMsg);
                           participant := None;
                           additionalAttributes := Some (deleteAttributes content);
                           useUserDevicesCache := None;
                           MessagesSend.cachedGroupMetadata := cachedGroupMetadata |})
                  (λ _, ret (Some {| fullMsg := fullMsg;
                                     upsertScheduled := emitOwnEvents |})))) w
      = Ok (r, w') →
      ∃ sent, r = Some sent
        ∧ upsertScheduled sent = emitOwnEvents
        ∧ ∃ stanza new,
            log w' = node_sent stanza :: new ++ log w
            ∧ tag stanza = "message"
            ∧ attrs stanza !! "edit" = deleteAttributes content !! "edit"
            ∧ (Receipts.truthy (Receipts.id (key (fullMsg sent))) = true →
               attrs stanza !! "id" = Receipts.id (key (fullMsg sent)))).
  { clear Hrun. intros r0 w0 Hrun. repeat inv_step.
    match goal with Hx : relayMessage _ _ _ _ = Ok _ |- _ =>
      apply relayMessage_Ok in Hx
        as (meId & decoded & additional & devices & wi & ps & bnc & flag & wb
            & content' & Hme & Hdec & Hid & Hrt & He1 & Hc1 & Hbranch & Hpush
            & Hlog & _ & _) end.
    cbn [participant additionalAttributes messageId] in *.
    apply retryTarget_Ok in Hrt as (_ & Hrt). cbn [participant] in Hrt.
    destruct Hrt as [_ ->]. cbn [additionalAttributes] in *.
    apply branch_Ok in Hbranch as (_ & _ & new & Hl2 & _).
    eexists. split; [done|]. split; [done|].
    eexists _, new. split_and!.
    - rewrite Hlog, Hl2. f_equal. f_equal. chain.
    - done.
    - cbn [attrs]. unfold stanzaAttrs. rewrite lookup_insert_ne by done.
      rewrite lookup_union.
      change (default ∅ (Some (deleteAttributes content)))
        with (deleteAttributes content).
      rewrite lookup_insert_ne, lookup_singleton_ne by done.
      by rewrite (right_id None _).
    - intros Hid'. cbn [attrs fullMsg]. unfold stanzaAttrs.
      rewrite lookup_insert_ne by done. rewrite lookup_union.
      change (default ∅ (Some (deleteAttributes content)))
        with (deleteAttributes content).
      rewrite deleteAttributes_lookup. rewrite bool_decide_eq_false_2 by done.
      rewrite (left_id None _), lookup_insert_eq.
      unfold orGenerateMessageID in Hid. unfold Receipts.truthy in Hid'.
      cbn [fullMsg] in Hid'.
      destruct (Receipts.id (key a)) as [i|]; [|done].
      rewrite bool_decide_eq_false_2 in Hid by (by apply bool_decide_eq_true in Hid').
      inv_step. done. }
  destruct (disappearingMessagesInChat content) as [d|] eqn:Hd;
    [destruct (isJidGroup jid) eqn:Hg|].
  - repeat inv_step. exists d. split_and!; [done | done | | chain].
    match goal with Hx : _ <$> groupToggleEphemeral _ _ _ = Some _ |- _ =>
      destruct (groupToggleEphemeral _ _ _) as [x'|]; [|done];
      injection Hx as _ <-; congruence end.
  - apply Hrelay in Hrun as (sent & -> & Hup & stanza & new & Hl & Ht & He & Hi).
    split_and!; [by right | done |]. exists stanza, new.
    split_and!; [done | done | | done].
    rewrite He, deleteAttributes_lookup. by rewrite bool_decide_eq_true_2.
  - apply Hrelay in Hrun as (sent & -> & Hup & stanza & new & Hl & Ht & He & Hi).
    split_and!; [by left | done |]. exists stanza, new.
    split_and!; [done | done | | done].
    rewrite He, deleteAttributes_lookup. by rewrite bool_decide_eq_true_2.
Qed.

End WithHost.

Lemma sendMessage_outcome_witness :
  ∃ sent w',
    MoreSamples.deleteRun = Ok (Some sent, w')
    ∧ ∃ stanza new,
        log w' = node_sent stanza :: new
                 ++ log (Samples.sampleWorld Samples.peerReply [])
        ∧ tag stanza = "message"
        ∧ attrs stanza !! "edit" = Some "8".
Proof.
  destruct MoreSamples.deleteRun as [[[sent|] w']|e] eqn:Hrun;
    [|vm_compute in Hrun; discriminate..].
  exists sent, w'. split; [done|].
  unfold MoreSamples.deleteRun in Hrun.
  apply sendMessage_outcome in Hrun
    as (_ & _ & stanza & new & Hlog & Htag & Hedit & _).
  exists stanza, new. split_and!; [exact Hlog | exact Htag |].
  rewrite Hedit. reflexivity.
Defined.

End SendMessageFacts.

(** *** Presence *)

Module PresenceFacts.
Import WABinary Presence.

Section WithHost.
Context {Ext : Type} `{!Host Ext}.
Context (shouldIgnoreJid : option string → bool).

#[local] Abbreviation handlePresenceUpdate := (handlePresenceUpdate shouldIgnoreJid).

(** What [sendPresenceUpdate] sends, [handlePresenceUpdate] reads back.  A
    node that arrives with the tag and content of the node sent and with at
    least its attributes, from a jid that is not ignored, makes exactly one
    [presence.update], whose [lastKnownPresence] is the type that was sent,
    except that [paused] arrives as [available].  Only [available] and
    [unavailable] emit [isOnline] on the sending side. *)
Theorem presence_round_trip me type toJid evs node received :
  sendPresenceUpdate me type toJid = Ok (evs, [node]) →
  tag received = tag node → content received = content node →
  attrs node ⊆ attrs received →
  shouldIgnoreJid (attrs received !! "from") = false →
  (∃ participant seen,
     handlePresenceUpdate received
     = Ok [presence_update (attrs received !! "from") participant
             {| lastKnownPresence :=
                  presenceName (if bool_decide (type = paused) then available
                                else type);
                lastSeen := seen |}])
  ∧ evs = (if bool_decide (type = available ∨ type = unavailable)
           then [isOnline_update (bool_decide (type = available))] else []).
Proof.
  intros Hsend Htag Hcontent Hsub Hign.
  unfold sendPresenceUpdate in Hsend. destruct me as [me|]; [|done].
  unfold Presence.handlePresenceUpdate. rewrite Hign, Htag, Hcontent.
  assert (Htype : ∀ v, attrs node !! "type" = Some v →
                       attrs received !! "type" = Some v).
  { intros v Hv. by eapply lookup_weaken. }
  case_bool_decide as Hkind.
  - destruct (Receipts.truthy (c_name me)) eqn:Hname; [|done].
    injection Hsend as <- <-. cbn [tag content attrs] in *.
    rewrite bool_decide_eq_true_2 by done.
    split; [|done]. eexists _, _.
    rewrite (Htype (presenceName type)).
    + destruct Hkind as [-> | ->]; reflexivity.
    + destruct (c_name me) as [n|]; [|done]. simpl.
      rewrite lookup_insert_ne by done. by rewrite lookup_singleton_eq.
  - injection Hsend as <- <-. cbn [tag content attrs] in *.
    rewrite bool_decide_eq_false_2 by done.
    split; [|done]. eexists _, _.
    destruct type; try (exfalso; apply Hkind; auto; fail); reflexivity.
Qed.

End WithHost.

Lemma presence_round_trip_witness :
  sendPresenceUpdate (Some MoreSamples.sampleMe) recording (Some Samples.peerJid)
  = Ok ([], [MoreSamples.recordingNode])
  ∧ handlePresenceUpdate (Ext := Samples.SampleExt) (λ _, false)
      MoreSamples.recordingNode
    = Ok [presence_update (Some Samples.meJid) (Some Samples.meJid)
            {| lastKnownPresence := "recording"; lastSeen := None |}]
  ∧ ∃ participant seen,
      handlePresenceUpdate (Ext := Samples.SampleExt) (λ _, false)
        MoreSamples.recordingNode
      = Ok [presence_update (attrs MoreSamples.recordingNode !! "from") participant
              {| lastKnownPresence :=
                   presenceName (if bool_decide (recording = paused) then available
                                 else recording);
                 lastSeen := seen |}].
Proof.
  split_and!; [vm_compute; reflexivity | vm_compute; reflexivity |].
  apply (presence_round_trip (Ext := Samples.SampleExt) (λ _, false)
           (Some MoreSamples.sampleMe) recording (Some Samples.peerJid) []
           MoreSamples.recordingNode MoreSamples.recordingNode);
    [vm_compute; reflexivity | reflexivity | reflexivity | reflexivity | reflexivity].
Defined.

End PresenceFacts.

(** *** More on the sync loop *)

Module ResyncFacts.
Import Chats ChatsFacts.

Section WithCodec.
Context {Snapshot Patch ChatMutation : Type}.
Context (decodeSyncdSnapshot :
           string → Snapshot → option Z → bool →
           SyncError + (LTHashState * gmap string ChatMutation)).
Context (decodePatches :
           string → list Patch → option LTHashState → option Z → bool →
           SyncError + (LTHashState * gmap string ChatMutation)).
Context (macSnapshot macPatch : bool).

#[local] Abbreviation trySync :=
  (trySync decodeSyncdSnapshot decodePatches macSnapshot macPatch).
#[local] Abbreviation syncCollection :=
  (syncCollection decodeSyncdSnapshot decodePatches macSnapshot macPatch).
#[local] Abbreviation syncRound :=
  (syncRound decodeSyncdSnapshot decodePatches macSnapshot macPatch).
#[local] Abbreviation resyncAppState :=
  (resyncAppState decodeSyncdSnapshot decodePatches macSnapshot macPatch).
#[local] Abbreviation Sync := (Sync (ChatMutation := ChatMutation)).

(** The [collection] node asked for [n] when the store is [stored]. *)
#[local] Abbreviation askFor stored :=
  (λ n : string,
     {| cn_name := n;
        cn_version := version (default newLTHashState (stored !! n));
        return_snapshot :=
          bool_decide (version (default newLTHashState (stored !! n)) = 0) |}).

(** The first loop of a round: what it leaves in the three tables. *)
Lemma prepare_tables (l : list string) : ∀ (s : Sync) states ns,
  let r := foldl prepareCollection (s, states, ns) l in
  r.2 = ns ++ (askFor (store s) <$> l)
  ∧ queries r.1.1 = queries s
  ∧ (∀ n, r.1.2 !! n
          = if bool_decide (n ∈ l) then Some (default newLTHashState (store s !! n))
            else states !! n)
  ∧ (∀ n, initialVersionMap r.1.1 !! n
          = if bool_decide (n ∈ l) then
              match initialVersionMap s !! n with
              | Some v => Some v
              | None => version <$> store s !! n
              end
            else initialVersionMap s !! n).
Proof.
  induction l as [|x l IH]; intros s states ns.
  - simpl. rewrite app_nil_r. split_and!; try done.
  - cbv zeta. cbn [foldl].
    pose proof (prepare_frame [x] s states ns) as (_ & _ & Hst).
    cbv zeta in Hst. cbn [foldl] in Hst.
    destruct (prepareCollection (s, states, ns) x) as [[s1 st1] ns1] eqn:Hstep.
    cbn [fst snd] in Hst.
    destruct (IH s1 st1 ns1) as (Hn & Hq & Hs & Hi). cbv zeta in *.
    rewrite Hn, Hq. rewrite Hst in *.
    unfold prepareCollection in Hstep.
    assert (Hstep' : ns1 = ns ++ [askFor (store s) x]
                     ∧ queries s1 = queries s
                     ∧ st1 = <[x := default newLTHashState (store s !! x)]> states
                     ∧ initialVersionMap s1
                       = match store s !! x, initialVersionMap s !! x with
                         | Some st, None => <[x := version st]> (initialVersionMap s)
                         | _, _ => initialVersionMap s
                         end).
    { destruct (store s !! x) as [st|]; [destruct (initialVersionMap s !! x)|];
        by simplify_eq. }
    destruct Hstep' as (-> & Hq1 & -> & Hi1).
    split_and!.
    + by rewrite <- app_assoc.
    + done.
    + intros n. rewrite Hs.
      destruct (decide (n = x)) as [->|Hne].
      * rewrite (bool_decide_eq_true_2 (x ∈ x :: l)) by (by left).
        destruct (bool_decide (x ∈ l)); [done|]. by rewrite lookup_insert_eq.
      * rewrite lookup_insert_ne by done.
        rewrite (bool_decide_ext (n ∈ x :: l) (n ∈ l));
          [done|rewrite elem_of_cons; naive_solver].
    + intros n. rewrite Hi, Hi1.
      destruct (decide (n = x)) as [->|Hne].
      * rewrite (bool_decide_eq_true_2 (x ∈ x :: l)) by (by left).
        destruct (store s !! x) as [st|] eqn:Hsx;
          destruct (initialVersionMap s !! x) as [v|] eqn:Hix;
          rewrite ?lookup_insert_eq, ?Hix; simpl; by destruct (bool_decide (x ∈ l)).
      * assert (Hsame : match store s !! x, initialVersionMap s !! x with
                        | Some st, None => <[x := version st]> (initialVersionMap s)
                        | _, _ => initialVersionMap s
                        end !! n = initialVersionMap s !! n).
        { destruct (store s !! x); [destruct (initialVersionMap s !! x)|];
            by rewrite ?lookup_insert_ne by done. }
        rewrite Hsame.
        rewrite (bool_decide_ext (n ∈ x :: l) (n ∈ l));
          [done|rewrite elem_of_cons; naive_solver].
Qed.

End WithCodec.

End ResyncFacts.
